(** * Blockstack: the NAMESPACE_REVEAL codec and the zonefile data registry

    A shallow embedding of
    - [src/blockstore/lib/operations/namespacereveal.py] (module
      [NamespaceReveal]) and
    - [src/blockstack_cli_0.14.1/blockstack_client/user.py] (module [User]),
    preceded by the few Python primitives both rely on (module [Py]).

    Conventions.
    - A Python 2 [str] is a byte string: it is a Rocq [string].
    - A Python [int]/[long] is unbounded: it is a [Z].
    - A finite Python [float] is a binary64 number, hence a rational: it is a
      [Q].  Every float operation of [namespacereveal.py] is exact on the
      values that reach it ([NamespaceRevealFacts.decay_to_fixpoint_exact],
      [NamespaceRevealFacts.decay_to_float_exact]), so rational arithmetic
      computes the value the IEEE operation computes.  The floats that are
      not finite are left out: on [nan] and [inf] the [int(...)] of
      [namespace_decay_to_fixpoint] raises, and [-inf] is negative.
    - A raised exception is the [Raise] branch of [Py.result].
    - A function that mutates its argument returns the argument as the call
      leaves it, next to its result.
    - What the two files import from modules that are not among the sources
      is a parameter (a [Variable] of a section) or, where a definition is
      needed to run the code, a definition that says so. *)

From Stdlib Require Import ZArith QArith Qround Lqa Lia Bool List Ascii String.
From Stdlib Require Import DecimalString DecimalZ DecimalPos.
From stdpp Require Import gmap strings list fin_maps.

(** ** Python primitives *)

Module Py.

(** The texts of the [Exception(...)] values raised by [namespacereveal.py],
    with the values interpolated into them as arguments. *)
Inductive message : Type :=
| NonBase38 (namespace_id : string)
    (* "Namespace ID '%s' has non-base-38 characters" *)
| InvalidLength (namespace_id : string) (max : nat)
    (* "Invalid namespace ID length for '%s' (expected length between 1 and %s)" *)
| InvalidPriceDecay (rate : Q)
    (* "Invalid price decay rate '%s'" *)
| CostOutOfRange (cost : Z)
    (* "Cost '%s' out of range (expected unsigned 64-bit integer)" *)
| DecayOutOfRange (fixedpoint : Z)
    (* "Decay rate '%s' out of range (expected unsigned 32-bit integer)" *)
| IntegerOverflow (numbytes : Z).
    (* "Integer overflow (%s bytes)" *)

Inductive exn : Type :=
| Exception (msg : message)
| ValueError
| TypeError
| AssertionError
| IndexError
| KeyError.

Inductive result (A : Type) : Type :=
| Ok (a : A)
| Raise (e : exn).
Arguments Ok {A} a.
Arguments Raise {A} e.

#[export] Instance result_ret : MRet result := fun A a => Ok a.
#[export] Instance result_bind : MBind result := fun A B f c =>
  match c with
  | Ok a => f a
  | Raise e => Raise e
  end.

Definition raises {A : Type} (c : result A) : Prop := exists e, c = Raise e.

(** *** Slicing: [s[lo:hi]] and [s[lo:]] for non-negative indices.
    Out-of-range indices are clamped, they never raise. *)

Fixpoint str_take (n : nat) (s : string) : string :=
  match n, s with
  | S n', String c s' => String c (str_take n' s')
  | _, _ => EmptyString
  end.

Fixpoint str_drop (n : nat) (s : string) : string :=
  match n, s with
  | S n', String c s' => str_drop n' s'
  | _, _ => s
  end.

Definition slice (lo hi : nat) (s : string) : string :=
  str_take (hi - lo) (str_drop lo s).

Definition slice_from (lo : nat) (s : string) : string := str_drop lo s.

(** [c in s] and [s.count(c)] for a one-character [c]. *)
Fixpoint contains (c : ascii) (s : string) : bool :=
  match s with
  | EmptyString => false
  | String c' s' => Ascii.eqb c c' || contains c s'
  end.

Fixpoint count (c : ascii) (s : string) : Z :=
  match s with
  | EmptyString => 0
  | String c' s' => ((if Ascii.eqb c c' then 1 else 0) + count c s')%Z
  end.

Fixpoint str_forall (p : ascii -> bool) (s : string) : bool :=
  match s with
  | EmptyString => true
  | String c s' => p c && str_forall p s'
  end.

(** *** Hexadecimal digits *)

(** The position of the first [c] in [s]. *)
Fixpoint index_of (c : ascii) (s : string) : option Z :=
  match s with
  | EmptyString => None
  | String c' s' => if Ascii.eqb c c' then Some 0%Z else Z.succ <$> index_of c s'
  end.

Definition HEX_DIGITS : string := "0123456789abcdef".

(** The digit of a value from 0 to 15. *)
Definition hex_digit (d : Z) : ascii :=
  default "f"%char (String.get (Z.to_nat d) HEX_DIGITS).

(** The value of a digit, in either case. *)
Definition hex_value (c : ascii) : option Z :=
  match index_of c HEX_DIGITS with
  | Some d => Some d
  | None => Z.add 10 <$> index_of c "ABCDEF"
  end.

Arguments hex_digit : simpl never.
Arguments hex_value : simpl never.

(** [int(s, 16)] on a string of hexadecimal digits, the only strings
    [parse] passes to it (outputs of [hexlify]).  The empty string and a
    string with another character raise [ValueError]. *)
Fixpoint int16_acc (acc : Z) (s : string) : result Z :=
  match s with
  | EmptyString => Ok acc
  | String c s' =>
      match hex_value c with
      | Some d => int16_acc (16 * acc + d) s'
      | None => Raise ValueError
      end
  end.

Definition int16 (s : string) : result Z :=
  match s with
  | EmptyString => Raise ValueError
  | _ => int16_acc 0 s
  end.

(** [binascii.hexlify]: two lower-case digits per byte. *)
Definition byte_value (c : ascii) : Z := Z.of_N (N_of_ascii c).

Definition hexlify_byte (c : ascii) : string :=
  String (hex_digit (byte_value c / 16))
    (String (hex_digit (byte_value c mod 16)) EmptyString).

Fixpoint hexlify (s : string) : string :=
  match s with
  | EmptyString => EmptyString
  | String c s' => hexlify_byte c +:+ hexlify s'
  end.

(** [binascii.unhexlify]: [TypeError] on an odd length or on a character
    that is not a hexadecimal digit. *)
Fixpoint unhexlify (s : string) : result string :=
  match s with
  | EmptyString => Ok EmptyString
  | String _ EmptyString => Raise TypeError
  | String c1 (String c2 s') =>
      match hex_value c1, hex_value c2 with
      | Some h, Some l =>
          rest ← unhexlify s';
          Ok (String (ascii_of_N (Z.to_N (16 * h + l))) rest)
      | _, _ => Raise TypeError
      end
  end.

(** *** ["%0.<prec>x" % v]
    The digits of [|v|], without leading zeros ([to_hex]), are padded with
    zeros on the left up to [prec] digits; a negative [v] gets a ["-"] in
    front of the padded digits. *)

Fixpoint to_hex_fuel (fuel : nat) (n : Z) (acc : string) : string :=
  match fuel with
  | O => acc
  | S fuel' =>
      let acc' := String (hex_digit (n mod 16)) acc in
      if (n / 16 =? 0)%Z then acc' else to_hex_fuel fuel' (n / 16) acc'
  end.

Definition to_hex (n : Z) : string :=
  to_hex_fuel (S (Z.to_nat (Z.log2 n))) n EmptyString.

Fixpoint zeros (n : nat) : string :=
  match n with
  | O => EmptyString
  | S n' => String "0" (zeros n')
  end.

Definition zfill (width : nat) (s : string) : string :=
  zeros (width - String.length s) +:+ s.

Definition format_hex (prec : nat) (v : Z) : string :=
  if (v <? 0)%Z then String "-" (zfill prec (to_hex (- v)))
  else zfill prec (to_hex v).

(** The numeral of [v mod 16^n] on exactly [n] digits, and the [w] bytes of
    [v mod 256^w], most significant first.  They specify what [format_hex]
    prints and what [unhexlify] makes of it. *)
Fixpoint hex_fixed (n : nat) (v : Z) : string :=
  match n with
  | O => EmptyString
  | S n' => hex_fixed n' (v / 16) +:+ String (hex_digit (v mod 16)) EmptyString
  end.

Fixpoint be_bytes (w : nat) (v : Z) : string :=
  match w with
  | O => EmptyString
  | S w' =>
      be_bytes w' (v / 256) +:+ String (ascii_of_N (Z.to_N (v mod 256))) EmptyString
  end.

(** *** [int(x)] for a float [x]: truncation toward zero. *)
Definition int_of_float (x : Q) : Z := Z.quot (Qnum x) (Z.pos (Qden x)).

Definition Qltb (x y : Q) : bool := negb (Qle_bool y x).

(** *** The rationals that are binary64 numbers
    A finite binary64 number is [m * 2^e] for an integer [m] of at most 53
    bits and an exponent [e] from -1074 to 971.  An IEEE operation returns
    the exact result rounded to such a number: when the exact result is one
    already, the operation is exact. *)
Definition dyadic (m e : Z) : Q :=
  if (0 <=? e)%Z then inject_Z (m * 2 ^ e)
  else (inject_Z m / inject_Z (2 ^ (- e)))%Q.

Definition binary64 (x : Q) : Prop :=
  exists m e : Z,
    (Z.abs m < 2 ^ 53)%Z /\ (-1074 <= e <= 971)%Z /\ (x == dyadic m e)%Q.

(** *** More primitives, for the functions beyond the codec's core

    The number a byte string denotes, most significant byte first: what
    [int(hexlify(s), 16)] gives on a non-empty [s]. *)
Fixpoint be_value_acc (acc : Z) (s : string) : Z :=
  match s with
  | EmptyString => acc
  | String c s' => be_value_acc (256 * acc + byte_value c) s'
  end.

Definition be_value (s : string) : Z := be_value_acc 0 s.

(** [s.startswith(prefix)]. *)
Definition startswith (s prefix : string) : bool := String.prefix prefix s.

(** [s.replace(c, new)] for a one-character [c]. *)
Fixpoint replace_char (c : ascii) (new : string) (s : string) : string :=
  match s with
  | EmptyString => EmptyString
  | String a s' =>
      if Ascii.eqb a c then new +:+ replace_char c new s'
      else String a (replace_char c new s')
  end.

(** [s.strip(c)] for a one-character [c]: the leading and the trailing
    occurrences of [c] are removed. *)
Fixpoint lstrip_char (c : ascii) (s : string) : string :=
  match s with
  | EmptyString => EmptyString
  | String a s' => if Ascii.eqb a c then lstrip_char c s' else s
  end.

Fixpoint rstrip_char (c : ascii) (s : string) : string :=
  match s with
  | EmptyString => EmptyString
  | String a s' =>
      match rstrip_char c s' with
      | EmptyString => if Ascii.eqb a c then EmptyString else String a EmptyString
      | r => String a r
      end
  end.

Definition strip_char (c : ascii) (s : string) : string :=
  rstrip_char c (lstrip_char c s).

(** [l.remove(x)] on a list that has an [x]: the first item equal to [x]
    goes. *)
Fixpoint remove_first {A : Type} `{EqDecision A} (x : A) (l : list A) : list A :=
  match l with
  | [] => []
  | y :: l' => if decide (x = y) then l' else y :: remove_first x l'
  end.

End Py.

Export Py.

(** ** [namespacereveal.py] *)

Module NamespaceReveal.

(** Modelled from the spec: the [LENGTHS] table of [config.py] is not among
    the sources; the widths are those of the wire-format table (lifetime 4,
    cost 7, decay 4, version 2, namespace id at most 19 bytes). *)
Inductive lengths_key : Type :=
| blockchain_id_namespace_life
| blockchain_id_namespace_cost
| blockchain_id_namespace_price_decay
| blockchain_id_namespace_version
| blockchain_id_namespace_id.

Definition LENGTHS (key : lengths_key) : nat :=
  match key with
  | blockchain_id_namespace_life => 4
  | blockchain_id_namespace_cost => 7
  | blockchain_id_namespace_price_decay => 4
  | blockchain_id_namespace_version => 2
  | blockchain_id_namespace_id => 19
  end.

(** Modelled from the spec: [NAMESPACE_LIFE_INFINITE] of [config.py], the
    sentinel [0xFFFFFFFF] of the lifetime field. *)
Definition NAMESPACE_LIFE_INFINITE : Z := 0xffffffff.

(** Modelled from the spec: [is_b40] of [b40.py] is not among the sources;
    the codec takes it as a parameter, and this is the predicate the spec
    describes.  A string passes when it consists only of characters of the
    alphabet: digits, lower-case letters and [-_.+] (the last two are then
    excluded by [build] itself, which leaves the 38 characters of a
    namespace id). *)
Definition B40_CHARS : string := "0123456789abcdefghijklmnopqrstuvwxyz-_.+".

Definition b40_chars_only (s : string) : bool :=
  str_forall (fun c => contains c B40_CHARS) s.

Definition namespace_decay_to_float (namespace_decay_fixedpoint : Z) : Q :=
  let ipart := Z.shiftr namespace_decay_fixedpoint 24 in
  let fpart := Z.land namespace_decay_fixedpoint 0x00ffffff in
  (inject_Z ipart + inject_Z fpart / inject_Z (Z.shiftl 1 24))%Q.

Definition namespace_decay_to_fixpoint (namespace_decay_float : Q) : option Z :=
  if Qltb namespace_decay_float 0 then None
  else
    let ipart := int_of_float namespace_decay_float in
    if (ipart >? 255)%Z then None
    else
      let fpart := (namespace_decay_float - inject_Z ipart)%Q in
      let fixpoint :=
        Z.lor (Z.shiftl ipart 24)
              (int_of_float (fpart * inject_Z (Z.shiftl 1 24))%Q) in
      Some fixpoint.

(** [numbytes] is a non-negative [int]: every caller passes 4, 7 or 2. *)
Definition serialize_int (int_field numbytes : Z) : result string :=
  if ((2 ^ (numbytes * 8) <=? int_field) ||
      (int_field <? - 2 ^ (numbytes * 8)))%Z
  then Raise (Exception (IntegerOverflow numbytes))
  else
    let hex_str := format_hex (Z.to_nat (numbytes * 2)) int_field in
    if negb (Nat.even (String.length hex_str))
    then Ok (String "0" hex_str)
    else Ok hex_str.

(** The words of a readable script: an opcode name or a ["0x..."] literal. *)
Inductive script_part : Type :=
| OpName (opcode : ascii)
| HexLiteral (digits : string).

(** The record [parse] returns. *)
Record namespace_reveal_op (Hash : Type) : Type := {
  opcode : string;
  lifetime : Z;
  cost : Z;
  price_decay : Q;
  namespace_id : string;
  namespace_id_hash : Hash;
  version : Z
}.
Arguments opcode {Hash} _.
Arguments lifetime {Hash} _.
Arguments cost {Hash} _.
Arguments price_decay {Hash} _.
Arguments namespace_id {Hash} _.
Arguments namespace_id_hash {Hash} _.
Arguments version {Hash} _.

Section Codec.

Context {Sender Address Hash : Type}.

(** The collaborators of the codec that live outside the sources:
    [is_b40] of [b40.py], [hash_name] of [hashing.py], and the constants of
    [config.py] that make the 3-byte framing prefix: two magic bytes (one
    pair for the main set, one for the test set) and the opcode byte of
    NAMESPACE_REVEAL. *)
Variable is_b40 : string -> bool.
Variable hash_name : string -> Sender -> Address -> Hash.
Variable MAGIC_BYTES : bool -> ascii * ascii.
Variable NAMESPACE_REVEAL : ascii.

(** Modelled from the spec: [blockstore_script_to_hex] of [scripts.py] is
    not among the sources.  The framing collaborator turns the opcode name
    into its byte and appends the hex literals as they are; with the two
    magic bytes in front this makes a 3-byte prefix, then the operation's
    fields. *)
Fixpoint blockstore_script_to_hex (script : list script_part) : string :=
  match script with
  | [] => EmptyString
  | OpName op :: rest => hexlify (String op EmptyString) +:+ blockstore_script_to_hex rest
  | HexLiteral h :: rest => h +:+ blockstore_script_to_hex rest
  end.

(** Modelled from the spec: [add_magic_bytes] of [scripts.py] is not among
    the sources; it puts the two magic bytes, in hexadecimal, in front of
    the script. *)
Definition add_magic_bytes (hex_script : string) (testset : bool) : string :=
  let '(m0, m1) := MAGIC_BYTES testset in
  hexlify (String m0 (String m1 EmptyString)) +:+ hex_script.

Definition build (namespace_id : string) (version : Z) (reveal_addr : Address)
    (lifetime satoshi_cost : Z) (price_decay_rate : Q) (testset : bool)
  : result string :=
  if negb (is_b40 namespace_id) || contains "+" namespace_id
     || (count "." namespace_id >? 0)%Z
  then Raise (Exception (NonBase38 namespace_id))
  else if Nat.ltb (LENGTHS blockchain_id_namespace_id) (String.length namespace_id)
  then Raise (Exception (InvalidLength namespace_id (LENGTHS blockchain_id_namespace_id)))
  else
    match namespace_decay_to_fixpoint price_decay_rate with
    | None => Raise (Exception (InvalidPriceDecay price_decay_rate))
    | Some price_decay_rate_fixedpoint =>
        let lifetime :=
          if ((lifetime <? 0) || (lifetime >? 2 ^ 32 - 1))%Z
          then NAMESPACE_LIFE_INFINITE else lifetime in
        if ((satoshi_cost <? 0) || (satoshi_cost >? 2 ^ 64 - 1))%Z
        then Raise (Exception (CostOutOfRange satoshi_cost))
        else if ((price_decay_rate_fixedpoint <? 0) ||
                 (price_decay_rate_fixedpoint >? 2 ^ 32 - 1))%Z
        then Raise (Exception (DecayOutOfRange price_decay_rate_fixedpoint))
        else
          life_hex ← serialize_int lifetime 4;
          satoshi_cost_hex ← serialize_int satoshi_cost 7;
          price_decay_hex ← serialize_int price_decay_rate_fixedpoint 4;
          version_hex ← serialize_int version 2;
          let readable_script :=
            [OpName NAMESPACE_REVEAL; HexLiteral life_hex;
             HexLiteral satoshi_cost_hex; HexLiteral price_decay_hex;
             HexLiteral version_hex; HexLiteral (hexlify namespace_id)] in
          let hex_script := blockstore_script_to_hex readable_script in
          let packaged_script := add_magic_bytes hex_script testset in
          Ok packaged_script
    end.

Definition parse (bin_payload : string) (sender : Sender)
    (recipient_address : Address) : result (namespace_reveal_op Hash) :=
  let off := 0 in
  life ← int16 (hexlify (slice off (off + LENGTHS blockchain_id_namespace_life) bin_payload));
  let off := off + LENGTHS blockchain_id_namespace_life in
  cost ← int16 (hexlify (slice off (off + LENGTHS blockchain_id_namespace_cost) bin_payload));
  let off := off + LENGTHS blockchain_id_namespace_cost in
  decay_fixedpoint ← int16 (hexlify (slice off (off + LENGTHS blockchain_id_namespace_price_decay) bin_payload));
  let decay := namespace_decay_to_float decay_fixedpoint in
  let off := off + LENGTHS blockchain_id_namespace_price_decay in
  version ← int16 (hexlify (slice off (off + LENGTHS blockchain_id_namespace_version) bin_payload));
  let off := off + LENGTHS blockchain_id_namespace_version in
  let namespace_id := slice_from off bin_payload in
  let namespace_id_hash := hash_name namespace_id sender recipient_address in
  Ok {| opcode := "NAMESPACE_REVEAL";
        lifetime := life;
        cost := cost;
        price_decay := decay;
        namespace_id := namespace_id;
        namespace_id_hash := namespace_id_hash;
        version := version |}.

(** The payload [parse] is given: the bytes of the packaged script without
    the first three (the note in [parse]: "the first three bytes will be
    missing"). *)
Definition strip_framing (packaged_script : string) : result string :=
  bin ← unhexlify packaged_script;
  Ok (slice_from 3 bin).

(** What [build] is to write (the three framing bytes, the four fields on
    4, 7, 4 and 2 bytes, the namespace id), and the lifetime it writes. *)
Definition wire (testset : bool) (lifetime satoshi_cost fixedpoint version : Z)
    (namespace_id : string) : string :=
  String (MAGIC_BYTES testset).1 (String (MAGIC_BYTES testset).2
    (String NAMESPACE_REVEAL
      (be_bytes 4 lifetime +:+ be_bytes 7 satoshi_cost +:+
       be_bytes 4 fixedpoint +:+ be_bytes 2 version +:+ namespace_id))).

End Codec.

Definition coerce_lifetime (lifetime : Z) : Z :=
  if ((lifetime <? 0) || (lifetime >? 2 ^ 32 - 1))%Z
  then NAMESPACE_LIFE_INFINITE else lifetime.

(** A concrete instance of the collaborators, to run the codec: [is_b40]
    as the spec describes it, the hash kept as the triple it is computed
    from, the magic bytes ["id"] and ["eg"], the opcode byte ["&"]. *)
Definition sample_is_b40 : string -> bool := b40_chars_only.
Definition sample_hash_name (namespace_id sender recipient : string)
  : string * string * string := (namespace_id, sender, recipient).
Definition sample_magic (testset : bool) : ascii * ascii :=
  if testset then ("e", "g")%char else ("i", "d")%char.
Definition sample_opcode : ascii := "&"%char.

End NamespaceReveal.

(** ** [user.py]: the immutable and mutable data registries *)

Module User.

(** *** More Python primitives: [split], [join], [str] and [int] of an
    integer in decimal. *)

Fixpoint split (sep : ascii) (s : string) : list string :=
  match s with
  | EmptyString => [EmptyString]
  | String c s' =>
      if Ascii.eqb c sep then EmptyString :: split sep s'
      else match split sep s' with
           | x :: xs => String c x :: xs
           | [] => [String c EmptyString]
           end
  end.

Fixpoint join (sep : string) (l : list string) : string :=
  match l with
  | [] => EmptyString
  | [x] => x
  | x :: xs => x +:+ sep +:+ join sep xs
  end.

(** [l[i]], with its [IndexError]. *)
Definition index (l : list string) (i : nat) : result string :=
  match nth_error l i with
  | Some x => Ok x
  | None => Raise IndexError
  end.

(** ['{}'.format(v)] for an integer [v]. *)
Definition str_of_int (v : Z) : string :=
  DecimalString.NilZero.string_of_int (Z.to_int v).

(** [int(s)] on a decimal literal with an optional sign; [ValueError] on
    anything else. *)
Definition int_of_str (s : string) : result Z :=
  match DecimalString.NilZero.int_of_string s with
  | Some d => Ok (Z.of_int d)
  | None => Raise ValueError
  end.

(** The name of the file of a user: ["{}.user"] with the slashes of the
    user id replaced by the four characters [\x2f]. *)
Definition user_name (user_id : string) : string :=
  replace_char "/" "\x2f" user_id +:+ ".user".

(** *** The data model *)

(** An entry of a zonefile's ['txt'] list: [{'name': ..., 'txt': ...}]. *)
Record txtrec : Type := { name : string; txt : string }.

#[export] Instance txtrec_eq_dec : EqDecision txtrec.
Proof. solve_decision. Defined.

(** A user zonefile: its ['txt'] list, when the key is present, and the
    rest of the dict, which the registry does not look at. *)
Record user_zonefile (Other : Type) : Type := {
  zf_txt : option (list txtrec);
  zf_other : Other
}.
Arguments zf_txt {Other} _.
Arguments zf_other {Other} _.

(** What [get_immutable_data_hash] returns: [None], a hash, or a list of
    hashes. *)
Inductive hashes : Type :=
| NoHash
| OneHash (h : string)
| ManyHashes (hs : list string).

(** A user data info dict: its ['data'] mapping from packed keys to link
    records, when the key is present, and the rest of the dict. *)
Record user_data_info (Info Other : Type) : Type := {
  data : option (gmap string Info);
  udi_other : Other
}.
Arguments data {Info Other} _.
Arguments udi_other {Info Other} _.

Section Registry.

Context {Info Other : Type}.

(** What is outside the sources and is taken as a parameter:
    - [scripts.is_valid_hash], the hash-format validator ([False] on [None]);
    - [USER_ZONEFILE_SCHEMA], [PROFILE_MUTABLE_DATA_SCHEMA] and
      [OP_MUTABLE_DATA_MD_PATTERN] of [schemas.py], each as the predicate
      [jsonschema.validate] decides with it;
    - [base64.b64encode] and [base64.b64decode] ([TypeError] on a bad input);
    - the order in which a dict is iterated, which Python does not specify. *)
Variable is_valid_hash : string -> bool.
Variable USER_ZONEFILE_SCHEMA : user_zonefile Other -> bool.
Variable PROFILE_MUTABLE_DATA_SCHEMA : user_data_info Info Other -> bool.
Variable OP_MUTABLE_DATA_MD_PATTERN : string -> bool.
Variable b64encode : string -> string.
Variable b64decode : string -> result string.
Variable dict_keys : gmap string Info -> list string.

Definition is_user_zonefile (d : user_zonefile Other) : bool :=
  USER_ZONEFILE_SCHEMA d.

Definition has_mutable_data_section (d : user_data_info Info Other) : bool :=
  match data d with
  | None => false
  | Some _ => PROFILE_MUTABLE_DATA_SCHEMA d
  end.

(** **** Immutable data *)

Definition get_immutable_hash_from_txt (txtrec : string) : option string :=
  if negb (contains "#" txtrec) then None
  else
    let h := List.last (split "#" txtrec) EmptyString in
    if negb (is_valid_hash h) then None else Some h.

Definition get_immutable_url_from_txt (txtrec : string) : option string :=
  if negb (contains "#" txtrec) then None
  else
    let url := join "#" (removelast (split "#" txtrec)) in
    (* [url or None] *)
    match url with
    | EmptyString => None
    | _ => Some url
    end.

(** One iteration of the loop of [get_immutable_data_hash]; [ret] is the
    accumulator.  The [assert] on the hash fails, and the record is skipped,
    exactly when [get_immutable_hash_from_txt] gave [None]. *)
Definition get_immutable_data_hash_step (data_id : string) (ret : hashes)
    (rec : txtrec) : hashes :=
  let d_id := name rec in
  if negb (String.eqb data_id d_id) then ret
  else
    match get_immutable_hash_from_txt (txt rec) with
    | None => ret
    | Some h =>
        if negb (is_valid_hash h) then ret
        else match ret with
             | NoHash => OneHash h
             | OneHash r => ManyHashes [r; h]
             | ManyHashes hs => ManyHashes (hs ++ [h])
             end
    end.

Definition get_immutable_data_hash (user_zonefile : user_zonefile Other)
    (data_id : string) : result hashes :=
  if negb (is_user_zonefile user_zonefile) then Raise AssertionError
  else
    match zf_txt user_zonefile with
    | None => Ok NoHash
    | Some recs => Ok (fold_left (get_immutable_data_hash_step data_id) recs NoHash)
    end.

(** Returns the boolean and the zonefile as the call leaves it. *)
Definition put_immutable_data_zonefile (user_zonefile : user_zonefile Other)
    (data_id data_hash : string) (data_url : option string)
  : result (bool * User.user_zonefile Other) :=
  if negb (is_user_zonefile user_zonefile) then Raise AssertionError
  else if negb (is_valid_hash data_hash) then Raise AssertionError
  else
    k ← get_immutable_data_hash user_zonefile data_id;
    match k with
    | OneHash h => Ok (String.eqb h data_hash, user_zonefile)
    | ManyHashes _ => Ok (false, user_zonefile)
    | NoHash =>
        let txtrec := String "#" data_hash in
        let txtrec :=
          match data_url with
          | Some url => url +:+ txtrec
          | None => txtrec
          end in
        let recs := default [] (zf_txt user_zonefile) in
        let name_txt := {| name := data_id; txt := txtrec |} in
        Ok (true, {| zf_txt := Some (recs ++ [name_txt]);
                     zf_other := zf_other user_zonefile |})
    end.

(** **** Mutable data *)

Definition is_mutable_data_md (rec : string) : bool :=
  OP_MUTABLE_DATA_MD_PATTERN rec.

(** A data id is an ASCII [str]: [data_id.encode('utf-8')] gives it back. *)
Definition pack_mutable_data_md (data_id : string) (version : Z) : string :=
  "mutable:" +:+ b64encode data_id +:+ ":" +:+ str_of_int version.

Definition unpack_mutable_data_md (rec : string) : result (string * Z) :=
  if negb (is_mutable_data_md rec) then Raise AssertionError
  else
    let parts := split ":" rec in
    p1 ← index parts 1;
    data_id ← b64decode p1;
    p2 ← index parts 2;
    version ← int_of_str p2;
    Ok (data_id, version).

(** The loop of [get_mutable_data_info_ex] over the keys still to visit. *)
Fixpoint get_mutable_data_info_ex_loop (d : gmap string Info) (data_id : string)
    (keys : list string) : result (option (Info * Z * string)) :=
  match keys with
  | [] => Ok None
  | packed_data_txt :: keys' =>
      if negb (is_mutable_data_md packed_data_txt)
      then get_mutable_data_info_ex_loop d data_id keys'
      else
        '(unpacked_data_id, version) ← unpack_mutable_data_md packed_data_txt;
        if String.eqb data_id unpacked_data_id
        then match d !! packed_data_txt with
             | Some info => Ok (Some (info, version, packed_data_txt))
             | None => Raise KeyError
             end
        else get_mutable_data_info_ex_loop d data_id keys'
  end.

(** [None] stands for the triple [(None, None, None)]. *)
Definition get_mutable_data_info_ex (user_data_info : user_data_info Info Other)
    (data_id : string) : result (option (Info * Z * string)) :=
  if negb (has_mutable_data_section user_data_info) then Ok None
  else
    match data user_data_info with
    | None => Ok None
    | Some d => get_mutable_data_info_ex_loop d data_id (dict_keys d)
    end.

(** Returns the boolean and the data info as the call leaves it.
    [d.update(links)] is the union that prefers [links]. *)
Definition put_mutable_data_info (user_data_info : user_data_info Info Other)
    (data_id : string) (version : Z) (mutable_data_links : gmap string Info)
  : result (bool * User.user_data_info Info Other) :=
  let d := default ∅ (data user_data_info) in
  let user_data_info := {| data := Some d; udi_other := udi_other user_data_info |} in
  if Nat.eqb (size d) 0
  then Ok (true, {| data := Some (mutable_data_links ∪ d);
                    udi_other := udi_other user_data_info |})
  else
    existing ← get_mutable_data_info_ex user_data_info data_id;
    match existing with
    | None =>
        Ok (true, {| data := Some (mutable_data_links ∪ d);
                     udi_other := udi_other user_data_info |})
    | Some (existing_info, existing_version, existing_md) =>
        if (existing_version >=? version)%Z
        then Ok (false, user_data_info)
        else Ok (true, {| data := Some (mutable_data_links ∪ delete existing_md d);
                          udi_other := udi_other user_data_info |})
    end.

(** **** The data public key *)

(** The loop of [user_zonefile_data_pubkey]; [data_pubkey] is the key found
    so far. *)
Fixpoint user_zonefile_data_pubkey_loop (key_prefix : string)
    (data_pubkey : option string) (recs : list txtrec) : result (option string) :=
  match recs with
  | [] => Ok data_pubkey
  | txtrec :: recs' =>
      if negb (startswith (txt txtrec) key_prefix)
      then user_zonefile_data_pubkey_loop key_prefix data_pubkey recs'
      else
        match data_pubkey with
        | Some _ => Raise ValueError
        | None =>
            user_zonefile_data_pubkey_loop key_prefix
              (Some (slice_from (String.length key_prefix) (txt txtrec))) recs'
        end
  end.

Definition user_zonefile_data_pubkey (user_zonefile : user_zonefile Other)
    (key_prefix : string) : result (option string) :=
  if negb (is_user_zonefile user_zonefile) then Raise AssertionError
  else
    match zf_txt user_zonefile with
    | None => Ok None
    | Some recs => user_zonefile_data_pubkey_loop key_prefix None recs
    end.

(** The loop of [user_zonefile_set_data_pubkey]: the list with the first
    record of the prefix overwritten, or [None] when there is no such
    record. *)
Fixpoint user_zonefile_set_data_pubkey_loop (key_prefix new_txt : string)
    (recs : list txtrec) : option (list txtrec) :=
  match recs with
  | [] => None
  | txtrec :: recs' =>
      if startswith (txt txtrec) key_prefix
      then Some ({| name := name txtrec; txt := new_txt |} :: recs')
      else (txtrec ::.) <$> user_zonefile_set_data_pubkey_loop key_prefix new_txt recs'
  end.

Definition user_zonefile_set_data_pubkey (user_zonefile : user_zonefile Other)
    (pubkey_hex key_prefix : string) : result (bool * User.user_zonefile Other) :=
  if negb (is_user_zonefile user_zonefile) then Raise AssertionError
  else
    let recs := default [] (zf_txt user_zonefile) in
    let new_txt := key_prefix +:+ pubkey_hex in
    match user_zonefile_set_data_pubkey_loop key_prefix new_txt recs with
    | Some recs' =>
        Ok (true, {| zf_txt := Some recs'; zf_other := zf_other user_zonefile |})
    | None =>
        let name_txt := {| name := "pubkey"; txt := new_txt |} in
        Ok (true, {| zf_txt := Some (recs ++ [name_txt]);
                     zf_other := zf_other user_zonefile |})
    end.

(** **** Immutable data: removal and the other lookups *)

(** The hash of a record as the loops use it: the [assert] that follows
    [get_immutable_hash_from_txt] skips the record when there is no
    well-formed hash. *)
Definition checked_hash (rec : txtrec) : option string :=
  match get_immutable_hash_from_txt (txt rec) with
  | Some h => if is_valid_hash h then Some h else None
  | None => None
  end.

(** The record at which the loop of [remove_immutable_data_zonefile]
    stops. *)
Fixpoint remove_immutable_data_zonefile_loop (data_hash : string)
    (recs : list txtrec) : option txtrec :=
  match recs with
  | [] => None
  | txtrec :: recs' =>
      match checked_hash txtrec with
      | None => remove_immutable_data_zonefile_loop data_hash recs'
      | Some h =>
          if String.eqb data_hash h then Some txtrec
          else remove_immutable_data_zonefile_loop data_hash recs'
      end
  end.

Definition remove_immutable_data_zonefile (user_zonefile : user_zonefile Other)
    (data_hash : string) : result (bool * User.user_zonefile Other) :=
  if negb (is_user_zonefile user_zonefile) then Raise AssertionError
  else if negb (is_valid_hash data_hash) then Raise AssertionError
  else
    match zf_txt user_zonefile with
    | None => Ok (false, user_zonefile)
    | Some recs =>
        match remove_immutable_data_zonefile_loop data_hash recs with
        | Some txtrec =>
            Ok (true, {| zf_txt := Some (remove_first txtrec recs);
                         zf_other := zf_other user_zonefile |})
        | None => Ok (false, user_zonefile)
        end
    end.

Fixpoint has_immutable_data_loop (data_hash : string) (recs : list txtrec) : bool :=
  match recs with
  | [] => false
  | txtrec :: recs' =>
      match checked_hash txtrec with
      | None => has_immutable_data_loop data_hash recs'
      | Some h =>
          if String.eqb data_hash h then true
          else has_immutable_data_loop data_hash recs'
      end
  end.

Definition has_immutable_data (user_zonefile : user_zonefile Other)
    (data_hash : string) : result bool :=
  if negb (is_user_zonefile user_zonefile) then Raise AssertionError
  else if negb (is_valid_hash data_hash) then Raise AssertionError
  else
    match zf_txt user_zonefile with
    | None => Ok false
    | Some recs => Ok (has_immutable_data_loop data_hash recs)
    end.

Fixpoint has_immutable_data_id_loop (data_id : string) (recs : list txtrec) : bool :=
  match recs with
  | [] => false
  | txtrec :: recs' =>
      let d_id := name txtrec in
      match checked_hash txtrec with
      | None => has_immutable_data_id_loop data_id recs'
      | Some _ =>
          if String.eqb data_id d_id then true
          else has_immutable_data_id_loop data_id recs'
      end
  end.

Definition has_immutable_data_id (user_zonefile : user_zonefile Other)
    (data_id : string) : result bool :=
  if negb (is_user_zonefile user_zonefile) then Raise AssertionError
  else
    match zf_txt user_zonefile with
    | None => Ok false
    | Some recs => Ok (has_immutable_data_id_loop data_id recs)
    end.

(** [get_immutable_data_url] does not check the hash it is given. *)
Fixpoint get_immutable_data_url_loop (data_hash : string) (recs : list txtrec)
  : option string :=
  match recs with
  | [] => None
  | txtrec :: recs' =>
      match checked_hash txtrec with
      | None => get_immutable_data_url_loop data_hash recs'
      | Some h =>
          if negb (String.eqb data_hash h)
          then get_immutable_data_url_loop data_hash recs'
          else get_immutable_url_from_txt (txt txtrec)
      end
  end.

Definition get_immutable_data_url (user_zonefile : user_zonefile Other)
    (data_hash : string) : result (option string) :=
  if negb (is_user_zonefile user_zonefile) then Raise AssertionError
  else
    match zf_txt user_zonefile with
    | None => Ok None
    | Some recs => Ok (get_immutable_data_url_loop data_hash recs)
    end.

Fixpoint list_immutable_data_loop (recs : list txtrec) : list (string * string) :=
  match recs with
  | [] => []
  | txtrec :: recs' =>
      let d_id := name txtrec in
      match checked_hash txtrec with
      | None => list_immutable_data_loop recs'
      | Some h => (d_id, h) :: list_immutable_data_loop recs'
      end
  end.

Definition list_immutable_data (user_zonefile : user_zonefile Other)
  : result (list (string * string)) :=
  if negb (is_user_zonefile user_zonefile) then Raise AssertionError
  else
    match zf_txt user_zonefile with
    | None => Ok []
    | Some recs => Ok (list_immutable_data_loop recs)
    end.

(** **** Mutable data: removal and the other lookups *)

Definition pack_mutable_data_md_prefix (data_id : string) : string :=
  "mutable:" +:+ b64encode data_id +:+ ":".

(** [has_mutable_data_info] unpacks every key it visits: a key that is not
    a metadata key makes [unpack_mutable_data_md] raise. *)
Fixpoint has_mutable_data_info_loop (data_id : string) (keys : list string)
  : result bool :=
  match keys with
  | [] => Ok false
  | packed_data_txt :: keys' =>
      '(unpacked_data_id, version) ← unpack_mutable_data_md packed_data_txt;
      if String.eqb data_id unpacked_data_id then Ok true
      else has_mutable_data_info_loop data_id keys'
  end.

Definition has_mutable_data_info (user_data_info : user_data_info Info Other)
    (data_id : string) : result bool :=
  if negb (has_mutable_data_section user_data_info) then Ok false
  else
    match data user_data_info with
    | None => Ok false
    | Some d => has_mutable_data_info_loop data_id (dict_keys d)
    end.

Fixpoint get_mutable_data_info_loop (d : gmap string Info) (data_id : string)
    (keys : list string) : result (option Info) :=
  match keys with
  | [] => Ok None
  | packed_data_txt :: keys' =>
      if negb (startswith packed_data_txt (pack_mutable_data_md_prefix data_id))
      then get_mutable_data_info_loop d data_id keys'
      else
        '(unpacked_data_id, version) ← unpack_mutable_data_md packed_data_txt;
        if String.eqb data_id unpacked_data_id
        then match d !! packed_data_txt with
             | Some info => Ok (Some info)
             | None => Raise KeyError
             end
        else get_mutable_data_info_loop d data_id keys'
  end.

Definition get_mutable_data_info (user_data_info : user_data_info Info Other)
    (data_id : string) : result (option Info) :=
  if negb (has_mutable_data_section user_data_info) then Ok None
  else
    match data user_data_info with
    | None => Ok None
    | Some d => get_mutable_data_info_loop d data_id (dict_keys d)
    end.

(** In [get_mutable_data_info_md] and [list_mutable_data] an exception of
    [unpack_mutable_data_md] is caught and the key is skipped. *)
Fixpoint get_mutable_data_info_md_loop (data_id : string) (keys : list string)
  : option string :=
  match keys with
  | [] => None
  | packed_data_txt :: keys' =>
      if negb (is_mutable_data_md packed_data_txt)
      then get_mutable_data_info_md_loop data_id keys'
      else
        match unpack_mutable_data_md packed_data_txt with
        | Raise _ => get_mutable_data_info_md_loop data_id keys'
        | Ok (unpacked_data_id, version) =>
            if String.eqb data_id unpacked_data_id then Some packed_data_txt
            else get_mutable_data_info_md_loop data_id keys'
        end
  end.

Definition get_mutable_data_info_md (user_data_info : user_data_info Info Other)
    (data_id : string) : option string :=
  if negb (has_mutable_data_section user_data_info) then None
  else
    match data user_data_info with
    | None => None
    | Some d => get_mutable_data_info_md_loop data_id (dict_keys d)
    end.

Fixpoint list_mutable_data_loop (keys : list string) : list (string * Z) :=
  match keys with
  | [] => []
  | packed_data_txt :: keys' =>
      if negb (is_mutable_data_md packed_data_txt)
      then list_mutable_data_loop keys'
      else
        match unpack_mutable_data_md packed_data_txt with
        | Raise _ => list_mutable_data_loop keys'
        | Ok (unpacked_data_id, version) =>
            (unpacked_data_id, version) :: list_mutable_data_loop keys'
        end
  end.

Definition list_mutable_data (user_data_info : user_data_info Info Other)
  : list (string * Z) :=
  if negb (has_mutable_data_section user_data_info) then []
  else
    match data user_data_info with
    | None => []
    | Some d => list_mutable_data_loop (dict_keys d)
    end.

(** The key at which the loop of [remove_mutable_data_info] stops. *)
Fixpoint remove_mutable_data_info_loop (data_id : string) (keys : list string)
  : result (option string) :=
  match keys with
  | [] => Ok None
  | packed_data_txt :: keys' =>
      if negb (is_mutable_data_md packed_data_txt)
      then remove_mutable_data_info_loop data_id keys'
      else
        '(unpacked_data_id, version) ← unpack_mutable_data_md packed_data_txt;
        if String.eqb data_id unpacked_data_id then Ok (Some packed_data_txt)
        else remove_mutable_data_info_loop data_id keys'
  end.

Definition remove_mutable_data_info (user_data_info : user_data_info Info Other)
    (data_id : string) : result (bool * User.user_data_info Info Other) :=
  if negb (has_mutable_data_section user_data_info) then Ok (false, user_data_info)
  else
    match data user_data_info with
    | None => Ok (false, user_data_info)
    | Some d =>
        found ← remove_mutable_data_info_loop data_id (dict_keys d);
        match found with
        | Some packed_data_txt =>
            Ok (true, {| data := Some (delete packed_data_txt d);
                         udi_other := udi_other user_data_info |})
        | None => Ok (false, user_data_info)
        end
    end.

Definition mutable_data_version (user_data_info : user_data_info Info Other)
    (data_id : string) : result Z :=
  match get_mutable_data_info_md user_data_info data_id with
  | None => Ok 0%Z
  | Some key =>
      '(data_id, version) ← unpack_mutable_data_md key;
      Ok version
  end.

End Registry.

(** *** The profile URLs of a zonefile

    The ['uri'] list is one of the keys that [zf_other] stands for.  A URI
    record is a dict whose ['target'] may be missing. *)

Record urirec (UriRest : Type) : Type := {
  target : option string;
  uri_rest : UriRest
}.
Arguments target {UriRest} _.
Arguments uri_rest {UriRest} _.

Record zonefile_other (UriRest Rest : Type) : Type := {
  uri : option (list (urirec UriRest));
  zf_rest : Rest
}.
Arguments uri {UriRest Rest} _.
Arguments zf_rest {UriRest Rest} _.

#[export] Instance urirec_eq_dec {UriRest : Type} `{EqDecision UriRest} :
  EqDecision (urirec UriRest).
Proof. solve_decision. Defined.

(** The double quote, the character [strip] removes from a target. *)
Definition QUOTE : ascii := ascii_of_nat 34.

Section ZonefileUrls.

Context {UriRest Rest : Type} `{EqDecision UriRest}.

(** Outside the sources: the zonefile schema and [url_to_uri_record]. *)
Local Abbreviation zonefile := (user_zonefile (zonefile_other UriRest Rest)).

Variable USER_ZONEFILE_SCHEMA : zonefile -> bool.
Variable url_to_uri_record : string -> urirec UriRest.

Definition with_uri (user_zonefile : zonefile)
    (recs : list (urirec UriRest)) : zonefile :=
  {| zf_txt := zf_txt user_zonefile;
     zf_other := {| uri := Some recs; zf_rest := zf_rest (zf_other user_zonefile) |} |}.

Fixpoint user_zonefile_urls_loop (recs : list (urirec UriRest)) : list string :=
  match recs with
  | [] => []
  | urirec :: recs' =>
      match target urirec with
      | Some t => strip_char QUOTE t :: user_zonefile_urls_loop recs'
      | None => user_zonefile_urls_loop recs'
      end
  end.

Definition user_zonefile_urls (user_zonefile : zonefile)
  : result (option (list string)) :=
  if negb (is_user_zonefile USER_ZONEFILE_SCHEMA user_zonefile) then Raise AssertionError
  else
    match uri (zf_other user_zonefile) with
    | None => Ok None
    | Some recs => Ok (Some (user_zonefile_urls_loop recs))
    end.

(** The test of both loops: the target of the record (the empty string
    when there is none), stripped of its quotes, is [url]. *)
Definition targets (url : string) (urirec : urirec UriRest) : bool :=
  String.eqb (strip_char QUOTE (default EmptyString (target urirec))) url.

(** Returns whether the zonefile is returned ([false] for [None]), and the
    zonefile as the call leaves it. *)
Definition add_user_zonefile_url (user_zonefile : zonefile)
    (url : string) : result (bool * zonefile) :=
  if negb (is_user_zonefile USER_ZONEFILE_SCHEMA user_zonefile) then Raise AssertionError
  else
    let recs := default [] (uri (zf_other user_zonefile)) in
    if existsb (targets url) recs then Ok (false, with_uri user_zonefile recs)
    else
      let new_urirec := url_to_uri_record url in
      Ok (true, with_uri user_zonefile (recs ++ [new_urirec])).

(** The loop of [remove_user_zonefile_url] removes from the list it iterates
    over: the iterator is at index [i] of the list as it is now, and a
    removal moves the records behind the removed one down by one.  The loop
    ends when [i] is past the end; it makes at most as many steps as the
    list is long, which [fuel] counts. *)
Fixpoint remove_user_zonefile_url_loop (fuel : nat) (url : string) (i : nat)
    (recs : list (urirec UriRest)) : list (urirec UriRest) :=
  match fuel with
  | O => recs
  | S fuel' =>
      match recs !! i with
      | None => recs
      | Some urirec =>
          if targets url urirec
          then remove_user_zonefile_url_loop fuel' url (S i) (remove_first urirec recs)
          else remove_user_zonefile_url_loop fuel' url (S i) recs
      end
  end.

Definition remove_user_zonefile_url (user_zonefile : zonefile)
    (url : string) : result (bool * zonefile) :=
  if negb (is_user_zonefile USER_ZONEFILE_SCHEMA user_zonefile) then Raise AssertionError
  else
    match uri (zf_other user_zonefile) with
    | None => Ok (false, user_zonefile)
    | Some recs =>
        Ok (true, with_uri user_zonefile
                    (remove_user_zonefile_url_loop (length recs) url 0 recs))
    end.

End ZonefileUrls.

End User.

(** ** A concrete instance of the registry's parameters

    The registry is run below on this instance: base64 as RFC 4648 defines it
    (the decoder accepts canonical input only), a key pattern for
    ["mutable:<base64>:<digits>"], hashes of 64 hexadecimal digits, schemas
    that accept everything, and the keys of a dict in the order of
    [map_to_list]. *)

Module Sample.

Definition alphabet : string :=
  "ABCDEFGHIJKLMNOPQRSTUVWXYZabcdefghijklmnopqrstuvwxyz0123456789+/".

Definition char_of (n : Z) : ascii :=
  match String.get (Z.to_nat n) alphabet with
  | Some c => c
  | None => "="%char
  end.

Definition value_of (c : ascii) : option Z := index_of c alphabet.

Definition byte_of (n : Z) : ascii := ascii_of_N (Z.to_N n).

Fixpoint b64encode (s : string) : string :=
  match s with
  | EmptyString => EmptyString
  | String a EmptyString =>
      let x := byte_value a in
      String (char_of (x / 4)) (String (char_of (x mod 4 * 16)) "==")
  | String a (String b EmptyString) =>
      let x := byte_value a in
      let y := byte_value b in
      String (char_of (x / 4)) (String (char_of (x mod 4 * 16 + y / 16))
        (String (char_of (y mod 16 * 4)) "="))
  | String a (String b (String c rest)) =>
      let x := byte_value a in
      let y := byte_value b in
      let z := byte_value c in
      String (char_of (x / 4)) (String (char_of (x mod 4 * 16 + y / 16))
        (String (char_of (y mod 16 * 4 + z / 64)) (String (char_of (z mod 64))
          (b64encode rest))))
  end%Z.

Definition is_empty (s : string) : bool :=
  match s with
  | EmptyString => true
  | _ => false
  end.

Fixpoint b64decode (s : string) : result string :=
  match s with
  | EmptyString => Ok EmptyString
  | String c1 (String c2 (String c3 (String c4 rest))) =>
      match value_of c1, value_of c2 with
      | Some v1, Some v2 =>
          let b1 := byte_of (v1 * 4 + v2 / 16) in
          if Ascii.eqb c3 "=" then
            if Ascii.eqb c4 "=" && is_empty rest
            then Ok (String b1 EmptyString) else Raise TypeError
          else
            match value_of c3 with
            | Some v3 =>
                let b2 := byte_of (v2 mod 16 * 16 + v3 / 4) in
                if Ascii.eqb c4 "=" then
                  if is_empty rest
                  then Ok (String b1 (String b2 EmptyString)) else Raise TypeError
                else
                  match value_of c4 with
                  | Some v4 =>
                      let b3 := byte_of (v3 mod 4 * 64 + v4) in
                      rest' ← b64decode rest;
                      Ok (String b1 (String b2 (String b3 rest')))
                  | None => Raise TypeError
                  end
            | None => Raise TypeError
            end
      | _, _ => Raise TypeError
      end
  | _ => Raise TypeError
  end%Z.

Definition is_b64_char (c : ascii) : bool :=
  Ascii.eqb c "=" || contains c alphabet.

Definition is_digit (c : ascii) : bool := contains c "0123456789".

Definition mutable_data_md_pattern (rec : string) : bool :=
  match User.split ":" rec with
  | [p0; p1; p2] =>
      String.eqb p0 "mutable" && str_forall is_b64_char p1
      && negb (is_empty p2) && str_forall is_digit p2
  | _ => false
  end.

Definition is_valid_hash (s : string) : bool :=
  Nat.eqb (String.length s) 64 && str_forall (fun c => bool_decide (is_Some (hex_value c))) s.

Definition any_zonefile (d : User.user_zonefile unit) : bool := true.
Definition any_data_info (d : User.user_data_info (list string) unit) : bool := true.

Definition dict_keys (d : gmap string (list string)) : list string :=
  (map_to_list d).*1.

(** The registry functions at this instance; a link record is the list of
    its URLs. *)
Definition pack_mutable_data_md := User.pack_mutable_data_md b64encode.
Definition unpack_mutable_data_md :=
  User.unpack_mutable_data_md mutable_data_md_pattern b64decode.
Definition get_mutable_data_info_ex :=
  User.get_mutable_data_info_ex (Info := list string) (Other := unit)
    any_data_info mutable_data_md_pattern b64decode dict_keys.
Definition put_mutable_data_info :=
  User.put_mutable_data_info (Info := list string) (Other := unit)
    any_data_info mutable_data_md_pattern b64decode dict_keys.
Definition put_immutable_data_zonefile :=
  User.put_immutable_data_zonefile (Other := unit) is_valid_hash any_zonefile.

(** A data info with version 1 of the mutable datum ["photo"], and a
    zonefile with the immutable datum ["avatar"]. *)
Definition photo_v1 : string := pack_mutable_data_md "photo" 1.
Definition photo_v2 : string := pack_mutable_data_md "photo" 2.

Definition data_info_photo_v1 : User.user_data_info (list string) unit :=
  {| User.data := Some {[ photo_v1 := ["https://a.example/photo"] ]};
     User.udi_other := tt |}.

Definition hash1 : string :=
  "a3f1c2d4e5b60718293a4b5c6d7e8f90a3f1c2d4e5b60718293a4b5c6d7e8f90".
Definition hash2 : string :=
  "0000000000000000000000000000000000000000000000000000000000000001".

Definition zonefile_avatar : User.user_zonefile unit :=
  {| User.zf_txt := Some [ {| User.name := "avatar"; User.txt := String "#" hash1 |} ];
     User.zf_other := tt |}.

End Sample.

(** ** A concrete instance for the profile URLs

    A schema that accepts everything, and URI records that hold their
    target only. *)

Module SampleUrls.

Definition any_zonefile (d : User.user_zonefile (User.zonefile_other unit unit))
  : bool := true.

Definition url_to_uri_record (url : string) : User.urirec unit :=
  {| User.target := Some url; User.uri_rest := tt |}.

Definition zonefile_of (urls : list string)
  : User.user_zonefile (User.zonefile_other unit unit) :=
  {| User.zf_txt := None;
     User.zf_other := {| User.uri := Some (url_to_uri_record <$> urls);
                         User.zf_rest := tt |} |}.

End SampleUrls.

(** * Properties *)

(** ** Facts about the Python primitives *)

Module PyFacts.

Lemma str_app_nil_l (s : string) : "" +:+ s = s.
Proof. reflexivity. Qed.

Lemma str_app_cons (c : ascii) (a b : string) :
  String c a +:+ b = String c (a +:+ b).
Proof. reflexivity. Qed.

Lemma str_app_nil_r (s : string) : s +:+ "" = s.
Proof. induction s as [|c s IH]; [reflexivity|]. by rewrite str_app_cons, IH. Qed.

Lemma str_app_assoc (a b c : string) : (a +:+ b) +:+ c = a +:+ (b +:+ c).
Proof.
  induction a as [|x a IH]; [reflexivity|].
  by rewrite !str_app_cons, IH.
Qed.

Lemma str_length_app (a b : string) :
  String.length (a +:+ b) = String.length a + String.length b.
Proof.
  induction a as [|x a IH]; [reflexivity|].
  rewrite str_app_cons. simpl. by rewrite IH.
Qed.

Lemma str_take_app (a b : string) : str_take (String.length a) (a +:+ b) = a.
Proof.
  induction a as [|x a IH]; simpl.
  - by destruct b.
  - f_equal. exact IH.
Qed.

Lemma str_drop_app (a b : string) : str_drop (String.length a) (a +:+ b) = b.
Proof. induction a as [|x a IH]; [reflexivity|]. exact IH. Qed.

Lemma str_drop_all (n : nat) (s : string) :
  String.length s <= n -> str_drop n s = "".
Proof.
  revert n. induction s as [|c s IH]; intros [|n] H; simpl in *; try reflexivity; try lia.
  apply IH. lia.
Qed.

Lemma str_length_take (n : nat) (s : string) :
  String.length (str_take n s) = Nat.min n (String.length s).
Proof.
  revert n. induction s as [|c s IH]; intros [|n]; simpl; try reflexivity.
  by rewrite IH.
Qed.

(** [s[lo:hi]] of [a + b + c] is [b] when [a] ends at [lo] and [b] at [hi]. *)
Lemma slice_app (lo hi : nat) (a b c : string) :
  String.length a = lo -> lo + String.length b = hi ->
  slice lo hi (a +:+ b +:+ c) = b.
Proof.
  intros <- <-. unfold slice.
  rewrite str_drop_app.
  replace (String.length a + String.length b - String.length a)
    with (String.length b) by lia.
  apply str_take_app.
Qed.

Lemma slice_from_app (lo : nat) (a b : string) :
  String.length a = lo -> slice_from lo (a +:+ b) = b.
Proof. intros <-. apply str_drop_app. Qed.

(** Digits. *)
Lemma hex_value_digit (d : Z) :
  (0 <= d < 16)%Z -> hex_value (hex_digit d) = Some d.
Proof.
  intros H.
  assert (Hd : In d [0;1;2;3;4;5;6;7;8;9;10;11;12;13;14;15]%Z).
  { simpl. lia. }
  simpl in Hd.
  repeat (destruct Hd as [<- | Hd]; [reflexivity|]). destruct Hd.
Qed.

Lemma length_hex_fixed (n : nat) (v : Z) : String.length (hex_fixed n v) = n.
Proof.
  revert v. induction n as [|n IH]; intros v; [reflexivity|].
  simpl. rewrite str_length_app, IH. simpl. lia.
Qed.

Lemma int16_acc_app (a b : string) (acc : Z) :
  int16_acc acc (a +:+ b) = (x ← int16_acc acc a; int16_acc x b).
Proof.
  revert acc. induction a as [|c a IH]; intros acc; [reflexivity|].
  rewrite str_app_cons. simpl. destruct (hex_value c); [apply IH|reflexivity].
Qed.

Lemma int16_acc_hex_fixed (n : nat) (v acc : Z) :
  (0 <= v)%Z ->
  int16_acc acc (hex_fixed n v) = Ok (acc * 16 ^ Z.of_nat n + v mod 16 ^ Z.of_nat n)%Z.
Proof.
  revert v acc. induction n as [|n IH]; intros v acc Hv.
  - simpl. f_equal. rewrite Z.mod_1_r. lia.
  - cbn [hex_fixed]. rewrite int16_acc_app, IH by (apply Z.div_pos; lia).
    cbn. rewrite hex_value_digit by (apply Z.mod_pos_bound; lia).
    f_equal. rewrite Nat2Z.inj_succ, Z.pow_succ_r by lia.
    assert (H16 : (0 < 16 ^ Z.of_nat n)%Z) by (apply Z.pow_pos_nonneg; lia).
    rewrite (Z.rem_mul_r v 16 (16 ^ Z.of_nat n)) by lia.
    lia.
Qed.

Lemma int16_hex_fixed (n : nat) (v : Z) :
  n <> 0 -> (0 <= v < 16 ^ Z.of_nat n)%Z -> int16 (hex_fixed n v) = Ok v.
Proof.
  intros Hn Hv.
  assert (Hlen := length_hex_fixed n v).
  unfold int16. destruct (hex_fixed n v) eqn:E.
  - simpl in Hlen. congruence.
  - rewrite <- E, int16_acc_hex_fixed by lia. f_equal.
    rewrite Z.mod_small by lia. lia.
Qed.


Lemma zeros_snoc (d : nat) : zeros d +:+ "0" = String "0" (zeros d).
Proof.
  induction d as [|d IH]; [reflexivity|].
  simpl. rewrite str_app_cons. by rewrite IH.
Qed.

Lemma hex_fixed_0 (d : nat) : hex_fixed d 0 = zeros d.
Proof.
  induction d as [|d IH]; [reflexivity|].
  cbn [hex_fixed]. rewrite Z.div_0_l, Z.mod_0_l, IH by lia.
  apply zeros_snoc.
Qed.

Lemma zeros_app_hex_fixed (d k : nat) (v : Z) :
  (0 <= v < 16 ^ Z.of_nat k)%Z ->
  zeros d +:+ hex_fixed k v = hex_fixed (d + k) v.
Proof.
  revert v. induction k as [|k IH]; intros v Hv.
  - simpl in Hv. assert (v = 0%Z) as -> by lia.
    rewrite Nat.add_0_r, !hex_fixed_0. apply str_app_nil_r.
  - rewrite Nat.add_succ_r. cbn [hex_fixed].
    rewrite <- str_app_assoc, IH; [reflexivity|].
    rewrite Nat2Z.inj_succ, Z.pow_succ_r in Hv by lia.
    split; [apply Z.div_pos; lia|].
    apply Z.div_lt_upper_bound; lia.
Qed.

Lemma to_hex_fuel_fixed (fuel : nat) (n : Z) (acc : string) :
  (0 <= n < 16 ^ Z.of_nat fuel)%Z -> fuel <> 0 ->
  exists k, 1 <= k <= fuel /\ (n < 16 ^ Z.of_nat k)%Z /\
            (k = 1 \/ (16 ^ Z.of_nat (k - 1) <= n)%Z) /\
            to_hex_fuel fuel n acc = hex_fixed k n +:+ acc.
Proof.
  revert n acc. induction fuel as [|fuel IH]; intros n acc Hn Hf; [done|].
  cbn [to_hex_fuel]. destruct (Z.eqb_spec (n / 16)%Z 0%Z) as [Hq|Hq].
  - exists 1. split; [lia|]. split.
    + change (16 ^ Z.of_nat 1)%Z with 16%Z.
      destruct (Z.lt_ge_cases n 16%Z) as [|Hge]; [done|].
      assert (1 <= n / 16)%Z by (apply Z.div_le_lower_bound; lia). lia.
    + split; [by left|reflexivity].
  - rewrite Nat2Z.inj_succ, Z.pow_succ_r in Hn by lia.
    assert (Hq' : (0 <= n / 16 < 16 ^ Z.of_nat fuel)%Z).
    { split; [apply Z.div_pos; lia|]. apply Z.div_lt_upper_bound; lia. }
    assert (Hfuel : fuel <> 0).
    { intros ->. change (16 ^ Z.of_nat 0)%Z with 1%Z in Hq'. lia. }
    destruct (IH (n / 16)%Z (String (hex_digit (n mod 16)) acc) Hq' Hfuel)
      as (k & Hk & Hlt & Hmin & ->).
    exists (S k). split; [lia|]. split; [|split].
    + rewrite Nat2Z.inj_succ, Z.pow_succ_r by lia.
      pose proof (Z.mul_succ_div_gt n 16%Z). lia.
    + right. replace (S k - 1) with (S (k - 1)) by lia.
      rewrite Nat2Z.inj_succ, Z.pow_succ_r by lia.
      pose proof (Z.mul_div_le n 16%Z).
      destruct Hmin as [->|Hmin]; [change (16 ^ Z.of_nat (1 - 1))%Z with 1%Z|]; lia.
    + cbn [hex_fixed]. by rewrite str_app_assoc.
Qed.

Lemma to_hex_fixed (n : Z) :
  (0 <= n)%Z ->
  exists k, k <> 0 /\ (n < 16 ^ Z.of_nat k)%Z /\
            (k = 1 \/ (16 ^ Z.of_nat (k - 1) <= n)%Z) /\ to_hex n = hex_fixed k n.
Proof.
  intros Hn. unfold to_hex.
  destruct (to_hex_fuel_fixed (S (Z.to_nat (Z.log2 n))) n "") as (k & Hk & Hlt & Hmin & E).
  - split; [done|].
    rewrite Nat2Z.inj_succ, Z2Nat.id by apply Z.log2_nonneg.
    destruct (Z.eq_dec n 0%Z) as [->|Hne].
    + apply Z.pow_pos_nonneg; [lia|]. cbn. lia.
    + assert (H2 : (n < 2 ^ Z.succ (Z.log2 n))%Z) by (apply Z.log2_spec; lia).
      eapply Z.lt_le_trans; [exact H2|].
      apply Z.pow_le_mono_l. pose proof (Z.log2_nonneg n). lia.
  - lia.
  - exists k. rewrite E, str_app_nil_r. repeat split; try done; lia.
Qed.

(** On a non-negative [v] that fits [prec] digits, ["%0.<prec>x"] prints
    exactly [prec] digits. *)
Lemma format_hex_fixed (prec : nat) (v : Z) :
  prec <> 0 -> (0 <= v < 16 ^ Z.of_nat prec)%Z ->
  format_hex prec v = hex_fixed prec v.
Proof.
  intros Hp [Hv0 Hv]. unfold format_hex.
  destruct (Z.ltb_spec v 0%Z) as [|_]; [lia|].
  destruct (to_hex_fixed v Hv0) as (k & Hk & Hlt & Hmin & ->).
  unfold zfill. rewrite length_hex_fixed.
  destruct (Nat.le_gt_cases k prec) as [Hle|Hgt].
  - rewrite zeros_app_hex_fixed by lia. f_equal. lia.
  - (* the minimal numeral is not longer than [prec] digits *)
    exfalso. destruct Hmin as [->|Hmin]; [lia|].
    assert (16 ^ Z.of_nat prec <= 16 ^ Z.of_nat (k - 1))%Z
      by (apply Z.pow_le_mono_r; lia).
    lia.
Qed.


(** Bytes. *)
Lemma byte_value_bound (c : ascii) : (0 <= byte_value c < 256)%Z.
Proof. unfold byte_value. pose proof (N_ascii_bounded c). lia. Qed.

Lemma byte_value_of (x : Z) :
  (0 <= x < 256)%Z -> byte_value (ascii_of_N (Z.to_N x)) = x.
Proof. intros H. unfold byte_value. rewrite N_ascii_embedding; lia. Qed.

Lemma of_byte_value (c : ascii) : ascii_of_N (Z.to_N (byte_value c)) = c.
Proof. unfold byte_value. by rewrite N2Z.id, ascii_N_embedding. Qed.

Lemma hexlify_app (a b : string) : hexlify (a +:+ b) = hexlify a +:+ hexlify b.
Proof.
  induction a as [|c a IH]; [reflexivity|].
  rewrite str_app_cons. cbn [hexlify]. by rewrite IH, str_app_assoc.
Qed.

Lemma length_hexlify (s : string) : String.length (hexlify s) = 2 * String.length s.
Proof.
  induction s as [|c s IH]; [reflexivity|].
  cbn [hexlify]. rewrite str_length_app, IH. simpl. lia.
Qed.

Lemma unhexlify_hexlify (s : string) : unhexlify (hexlify s) = Ok s.
Proof.
  induction s as [|c s IH]; [reflexivity|].
  cbn [hexlify]. unfold hexlify_byte. rewrite !str_app_cons, str_app_nil_l.
  cbn [unhexlify].
  pose proof (byte_value_bound c) as Hc.
  rewrite !hex_value_digit, IH.
  - cbn. do 2 f_equal. rewrite <- (of_byte_value c) at 3. do 2 f_equal.
    pose proof (Z.div_mod (byte_value c) 16). lia.
  - apply Z.mod_pos_bound. lia.
  - split; [apply Z.div_pos; lia|apply Z.div_lt_upper_bound; lia].
Qed.

Lemma length_be_bytes (w : nat) (v : Z) : String.length (be_bytes w v) = w.
Proof.
  revert v. induction w as [|w IH]; intros v; [reflexivity|].
  cbn [be_bytes]. rewrite str_length_app, IH. simpl. lia.
Qed.

(** The numeral on [2 w] digits is the [hexlify] of the [w] bytes. *)
Lemma hex_fixed_be_bytes (w : nat) (v : Z) :
  hex_fixed (2 * w) v = hexlify (be_bytes w v).
Proof.
  revert v. induction w as [|w IH]; intros v; [reflexivity|].
  replace (2 * S w) with (S (S (2 * w))) by lia.
  cbn [hex_fixed be_bytes].
  rewrite hexlify_app, <- IH. cbn [hexlify]. unfold hexlify_byte.
  rewrite byte_value_of by (apply Z.mod_pos_bound; lia).
  assert (H1 : ((v mod 256) / 16 = (v / 16) mod 16)%Z).
  { change 256%Z with (16 * 16)%Z. rewrite (Z.rem_mul_r v 16 16) by lia.
    rewrite (Z.mul_comm 16 ((v / 16) mod 16)), Z.div_add by lia.
    rewrite (Z.div_small (v mod 16) 16) by (apply Z.mod_pos_bound; lia).
    reflexivity. }
  assert (H2 : ((v mod 256) mod 16 = v mod 16)%Z).
  { change 256%Z with (16 * 16)%Z. rewrite (Z.rem_mul_r v 16 16) by lia.
    rewrite (Z.mul_comm 16 ((v / 16) mod 16)), Z.mod_add by lia.
    by rewrite Z.mod_mod by lia. }
  rewrite H1, H2, str_app_nil_r, str_app_assoc, Z.div_div by lia.
  reflexivity.
Qed.

Lemma int16_hexlify_be_bytes (w : nat) (v : Z) :
  w <> 0 -> (0 <= v < 256 ^ Z.of_nat w)%Z ->
  int16 (hexlify (be_bytes w v)) = Ok v.
Proof.
  intros Hw Hv. rewrite <- hex_fixed_be_bytes. apply int16_hex_fixed; [lia|].
  rewrite Nat2Z.inj_mul, Z.pow_mul_r by lia. exact Hv.
Qed.

End PyFacts.

(** ** Facts about [namespacereveal.py] *)

Module NamespaceRevealFacts.
Import PyFacts NamespaceReveal.

(** *** [serialize_int] *)

Lemma pow16_pow2 (w : Z) :
  (0 <= w)%Z -> (16 ^ Z.of_nat (Z.to_nat (w * 2)) = 2 ^ (w * 8))%Z.
Proof.
  intros Hw. rewrite Z2Nat.id by lia.
  change 16%Z with (2 ^ 4)%Z. rewrite <- Z.pow_mul_r by lia. f_equal. lia.
Qed.

Lemma serialize_int_overflow (v w : Z) :
  (2 ^ (w * 8) <= v \/ v < - 2 ^ (w * 8))%Z ->
  serialize_int v w = Raise (Exception (IntegerOverflow w)).
Proof.
  intros H. unfold serialize_int.
  destruct (Z.leb_spec (2 ^ (w * 8)) v), (Z.ltb_spec v (- 2 ^ (w * 8)));
    try reflexivity; lia.
Qed.

Lemma serialize_int_returns (v w : Z) :
  (- 2 ^ (w * 8) <= v < 2 ^ (w * 8))%Z ->
  exists hex_str, serialize_int v w = Ok hex_str.
Proof.
  intros H. unfold serialize_int.
  destruct (Z.leb_spec (2 ^ (w * 8)) v), (Z.ltb_spec v (- 2 ^ (w * 8)));
    try lia.
  cbn [orb]. destruct (negb _); eauto.
Qed.

(** [serialize_int] raises exactly above [2^(8 w) - 1] and below
    [-2^(8 w)]. *)
Lemma serialize_int_raises_iff (v w : Z) :
  raises (serialize_int v w) <-> (2 ^ (w * 8) <= v \/ v < - 2 ^ (w * 8))%Z.
Proof.
  split.
  - intros [e He].
    destruct (Z.le_gt_cases (2 ^ (w * 8)) v); [by left|].
    destruct (Z.lt_ge_cases v (- 2 ^ (w * 8))); [by right|].
    destruct (serialize_int_returns v w) as [h Hh]; [lia|congruence].
  - intros H. eexists. by apply serialize_int_overflow.
Qed.

Lemma serialize_int_raise (v w : Z) (e : exn) :
  serialize_int v w = Raise e -> e = Exception (IntegerOverflow w).
Proof.
  unfold serialize_int. destruct (_ || _); [congruence|].
  by destruct (negb _).
Qed.

(** A non-negative value that fits the field is written as the field's
    bytes, most significant first, two digits each. *)
Lemma serialize_int_ok (v w : Z) :
  (1 <= w)%Z -> (0 <= v < 2 ^ (w * 8))%Z ->
  serialize_int v w = Ok (hexlify (be_bytes (Z.to_nat w) v)).
Proof.
  intros Hw Hv. unfold serialize_int.
  destruct (Z.leb_spec (2 ^ (w * 8)) v), (Z.ltb_spec v (- 2 ^ (w * 8)));
    try lia.
  cbn [orb]. rewrite format_hex_fixed.
  - rewrite length_hex_fixed.
    replace (Z.to_nat (w * 2)) with (2 * Z.to_nat w) by lia.
    assert (Nat.even (2 * Z.to_nat w) = true) as ->.
    { apply Nat.even_spec. by exists (Z.to_nat w). }
    cbn [negb]. by rewrite hex_fixed_be_bytes.
  - lia.
  - rewrite pow16_pow2 by lia. exact Hv.
Qed.

(** *** The fixed-point codec *)

Lemma Qltb_false (x y : Q) : Qltb x y = false <-> (y <= x)%Q.
Proof.
  unfold Qltb. rewrite negb_false_iff. apply Qle_bool_iff.
Qed.

Lemma int_of_float_floor (x : Q) : (0 <= x)%Q -> int_of_float x = Qfloor x.
Proof.
  destruct x as [n d]. unfold Qle, int_of_float. simpl. intros H.
  apply Z.quot_div_nonneg; lia.
Qed.

Lemma Qfloor_unique (z : Z) (x : Q) :
  (inject_Z z <= x)%Q -> (x < inject_Z (z + 1))%Q -> Qfloor x = z.
Proof.
  intros Hle Hlt.
  assert (H1 : (z <= Qfloor x)%Z).
  { rewrite <- (Qfloor_Z z). by apply Qfloor_resp_le. }
  assert (H2 : (Qfloor x < z + 1)%Z).
  { rewrite Zlt_Qlt. eapply Qle_lt_trans; [apply Qfloor_le|exact Hlt]. }
  lia.
Qed.

Lemma Qfloor_nonneg (x : Q) : (0 <= x)%Q -> (0 <= Qfloor x)%Z.
Proof. intros H. change 0%Z with (Qfloor 0). by apply Qfloor_resp_le. Qed.

Lemma lor_shiftl_low (a f n : Z) :
  (0 <= n)%Z -> (0 <= f < 2 ^ n)%Z ->
  Z.lor (Z.shiftl a n) f = (a * 2 ^ n + f)%Z.
Proof.
  intros Hn Hf. rewrite Z.shiftl_mul_pow2 by lia.
  symmetry. apply Z.add_nocarry_lor.
  apply Z.bits_inj'. intros i Hi. rewrite Z.land_spec, Z.bits_0.
  destruct (Z.lt_ge_cases i n) as [Hlt|Hge].
  - by rewrite Z.mul_pow2_bits_low.
  - rewrite <- (Z.mod_small f (2 ^ n)) by lia.
    rewrite Z.mod_pow2_bits_high by lia. apply andb_false_r.
Qed.

(** The fixed-point value of a valid rate is the rate scaled by [2^24] and
    truncated. *)
Lemma namespace_decay_to_fixpoint_floor (x : Q) :
  (0 <= x)%Q -> (Qfloor x <= 255)%Z ->
  namespace_decay_to_fixpoint x = Some (Qfloor (x * inject_Z 16777216)).
Proof.
  intros H0 H255. unfold namespace_decay_to_fixpoint.
  assert (Qltb x 0 = false) as -> by by apply Qltb_false.
  rewrite int_of_float_floor by done.
  destruct (Z.gtb_spec (Qfloor x) 255) as [|_]; [lia|].
  change (Z.shiftl 1 24) with 16777216%Z.
  pose proof (Qfloor_le x) as Hlo. pose proof (Qlt_floor x) as Hhi.
  pose proof (Qfloor_nonneg x H0) as Hi0.
  set (ipart := Qfloor x) in *.
  rewrite inject_Z_plus in Hhi. change (inject_Z 1) with 1%Q in Hhi.
  assert (Hf0 : (0 <= (x - inject_Z ipart) * inject_Z 16777216)%Q).
  { change (inject_Z 16777216) with (16777216 # 1)%Q. lra. }
  assert (Hf1 : ((x - inject_Z ipart) * inject_Z 16777216 < inject_Z 16777216)%Q).
  { change (inject_Z 16777216) with (16777216 # 1)%Q. lra. }
  rewrite (int_of_float_floor _ Hf0).
  set (f := Qfloor ((x - inject_Z ipart) * inject_Z 16777216)).
  assert (Hf : (0 <= f < 2 ^ 24)%Z).
  { split; [by apply Qfloor_nonneg|].
    change (2 ^ 24)%Z with 16777216%Z. rewrite Zlt_Qlt.
    eapply Qle_lt_trans; [apply Qfloor_le|exact Hf1]. }
  rewrite lor_shiftl_low by lia. f_equal. symmetry.
  apply Qfloor_unique.
  - rewrite inject_Z_plus, inject_Z_mult.
    pose proof (Qfloor_le ((x - inject_Z ipart) * inject_Z 16777216)) as Hfl.
    fold f in Hfl. change (inject_Z (2 ^ 24)) with (16777216 # 1)%Q.
    change (inject_Z 16777216) with (16777216 # 1)%Q in *. lra.
  - rewrite !inject_Z_plus, inject_Z_mult.
    pose proof (Qlt_floor ((x - inject_Z ipart) * inject_Z 16777216)) as Hfl.
    fold f in Hfl. rewrite inject_Z_plus in Hfl.
    change (inject_Z (2 ^ 24)) with (16777216 # 1)%Q.
    change (inject_Z 16777216) with (16777216 # 1)%Q in *.
    change (inject_Z 1) with 1%Q in *. lra.
Qed.

Lemma namespace_decay_to_fixpoint_None (x : Q) :
  namespace_decay_to_fixpoint x = None <-> (x < 0)%Q \/ (255 < int_of_float x)%Z.
Proof.
  unfold namespace_decay_to_fixpoint.
  destruct (Qltb x 0) eqn:E.
  - split; [intros _|done]. left.
    unfold Qltb in E. apply negb_true_iff in E.
    apply Qnot_le_lt. intros Hle. apply Qle_bool_iff in Hle. congruence.
  - apply Qltb_false in E.
    destruct (Z.gtb_spec (int_of_float x) 255).
    + split; [intros _; by right|done].
    + split; [done|]. intros [Hneg|Hbig]; [|lia].
      exfalso. eapply Qlt_not_le; eauto.
Qed.

Lemma fixpoint_floor_range (x : Q) :
  (0 <= x)%Q -> (Qfloor x <= 255)%Z ->
  (0 <= Qfloor (x * inject_Z 16777216) < 2 ^ 32)%Z.
Proof.
  intros H0 H255. split.
  - apply Qfloor_nonneg. change (inject_Z 16777216) with (16777216 # 1)%Q. lra.
  - change (2 ^ 32)%Z with (256 * 16777216)%Z.
    assert (Hx : (x < inject_Z 256)%Q).
    { eapply Qlt_le_trans; [apply Qlt_floor|]. rewrite <- Zle_Qle. lia. }
    rewrite Zlt_Qlt. eapply Qle_lt_trans; [apply Qfloor_le|].
    rewrite inject_Z_mult.
    change (inject_Z 16777216) with (16777216 # 1)%Q.
    change (inject_Z 256) with (256 # 1)%Q in *. lra.
Qed.

(** The float of a non-negative fixed-point value is the value over [2^24]. *)
Lemma namespace_decay_to_float_div (fp : Z) :
  (0 <= fp)%Z ->
  (namespace_decay_to_float fp == inject_Z fp / inject_Z 16777216)%Q.
Proof.
  intros Hfp. unfold namespace_decay_to_float.
  change 0x00ffffff%Z with (Z.ones 24). change (Z.shiftl 1 24) with 16777216%Z.
  rewrite Z.shiftr_div_pow2, Z.land_ones by lia.
  change (2 ^ 24)%Z with 16777216%Z.
  rewrite (Z.div_mod fp 16777216) at 3 by lia.
  rewrite inject_Z_plus, inject_Z_mult.
  change (inject_Z 16777216) with (16777216 # 1)%Q. field.
Qed.


(** *** Exactness of the float operations *)

Lemma inject_Z_pos_nonzero (d : Z) : (0 < d)%Z -> ~ (inject_Z d == 0)%Q.
Proof. intros Hd E. apply (inject_Z_injective d 0) in E. lia. Qed.

Lemma inject_Z_pos (d : Z) : (0 < d)%Z -> (0 < inject_Z d)%Q.
Proof. intros Hd. change (inject_Z 0 < inject_Z d)%Q. by rewrite <- Zlt_Qlt. Qed.

Lemma Qfloor_div (m d : Z) :
  (0 < d)%Z -> Qfloor (inject_Z m / inject_Z d) = (m / d)%Z.
Proof.
  intros Hd.
  pose proof (inject_Z_pos d Hd) as HdQ.
  pose proof (Z.mul_div_le m d Hd) as Hlo.
  pose proof (Z.mul_succ_div_gt m d Hd) as Hhi.
  apply Qfloor_unique.
  - apply Qle_shift_div_l; [done|].
    rewrite <- inject_Z_mult, <- Zle_Qle. lia.
  - apply Qlt_shift_div_r; [done|].
    rewrite <- inject_Z_mult, <- Zlt_Qlt. lia.
Qed.

Lemma binary64_small_int (n : Z) : (0 <= n <= 255)%Z -> binary64 (inject_Z n).
Proof.
  intros Hn. exists n, 0%Z. split; [lia|]. split; [lia|].
  unfold dyadic. cbn [Z.leb Z.compare]. by rewrite Z.pow_0_r, Z.mul_1_r.
Qed.

Lemma binary64_0 (x : Q) : (x == 0)%Q -> binary64 x.
Proof.
  intros E. exists 0%Z, 0%Z. split; [done|]. split; [lia|]. by rewrite E.
Qed.

(** The float operations of [namespace_decay_to_fixpoint] are exact: on a
    binary64 rate that passes the two checks, the integer part, the
    difference [rate - ipart] and the product [fpart * 2^24] are binary64
    numbers, so no rounding takes place. *)
Lemma decay_to_fixpoint_exact (x : Q) :
  binary64 x -> (0 <= x)%Q -> (Qfloor x <= 255)%Z ->
  binary64 (inject_Z (Qfloor x)) /\
  binary64 (x - inject_Z (Qfloor x)) /\
  binary64 ((x - inject_Z (Qfloor x)) * inject_Z (Z.shiftl 1 24)).
Proof.
  intros (m & e & Hm & He & Hx) H0 H255.
  pose proof (Qfloor_nonneg x H0) as Hfl0.
  split; [apply binary64_small_int; lia|].
  unfold dyadic in Hx. destruct (Z.leb_spec 0 e) as [He0|He0].
  - (* an integer: the fractional part is 0 *)
    assert (Hfrac : (x - inject_Z (Qfloor x) == 0)%Q).
    { assert (Hfl : Qfloor x = (m * 2 ^ e)%Z) by (rewrite Hx; apply Qfloor_Z).
      rewrite Hfl, Hx. ring. }
    split; apply binary64_0; [exact Hfrac|rewrite Hfrac; ring].
  - set (d := (2 ^ (- e))%Z) in *.
    assert (Hd : (0 < d)%Z) by (apply Z.pow_pos_nonneg; lia).
    pose proof (inject_Z_pos_nonzero d Hd) as HdQ.
    assert (Hm0 : (0 <= m)%Z).
    { destruct (Z.lt_ge_cases m 0) as [Hneg|]; [|done]. exfalso.
      assert (x < 0)%Q; [|by apply (Qlt_not_le x 0)].
      rewrite Hx. apply Qlt_shift_div_r; [by apply inject_Z_pos|].
      rewrite Qmult_0_l. change (inject_Z m < inject_Z 0)%Q. by rewrite <- Zlt_Qlt. }
    assert (Hfl : Qfloor x = (m / d)%Z) by (rewrite Hx; by apply Qfloor_div).
    set (r := (m mod d)%Z).
    assert (Hr : (0 <= r < d)%Z) by (apply Z.mod_pos_bound; lia).
    assert (Hrm : (r <= m)%Z) by (apply Z.mod_le; lia).
    assert (Hfrac : (x - inject_Z (Qfloor x) == inject_Z r / inject_Z d)%Q).
    { rewrite Hfl, Hx. rewrite (Z.div_mod m d) at 1 by lia. fold r.
      rewrite inject_Z_plus, inject_Z_mult. by field. }
    split.
    + exists r, e. split; [lia|]. split; [done|].
      unfold dyadic. destruct (Z.leb_spec 0 e); [lia|]. exact Hfrac.
    + exists r, (e + 24)%Z. split; [lia|]. split; [lia|].
      rewrite Hfrac. change (Z.shiftl 1 24) with (2 ^ 24)%Z.
      unfold dyadic. destruct (Z.leb_spec 0 (e + 24)) as [He24|He24].
      * assert (E : (2 ^ 24 = 2 ^ (e + 24) * d)%Z).
        { unfold d. rewrite <- Z.pow_add_r by lia. f_equal. lia. }
        rewrite E, !inject_Z_mult. by field.
      * assert (E : (d = 2 ^ (- (e + 24)) * 2 ^ 24)%Z).
        { unfold d. rewrite <- Z.pow_add_r by lia. f_equal. lia. }
        assert (H1 : (0 < 2 ^ (- (e + 24)))%Z) by (apply Z.pow_pos_nonneg; lia).
        pose proof (inject_Z_pos_nonzero _ H1).
        rewrite E, !inject_Z_mult. field. split; [done|].
        by apply inject_Z_pos_nonzero.
Qed.

(** The float operations of [namespace_decay_to_float] are exact on a
    fixed-point value of 32 bits: the quotient [fpart / 2^24] and the sum
    are binary64 numbers. *)
Lemma decay_to_float_exact (fp : Z) :
  (0 <= fp < 2 ^ 32)%Z ->
  binary64 (inject_Z (Z.land fp 0x00ffffff) / inject_Z (Z.shiftl 1 24)) /\
  binary64 (namespace_decay_to_float fp).
Proof.
  intros Hfp. split.
  - exists (Z.land fp 0x00ffffff), (-24)%Z.
    change 0x00ffffff%Z with (Z.ones 24). rewrite Z.land_ones by lia.
    pose proof (Z.mod_pos_bound fp (2 ^ 24)). split; [lia|]. split; [lia|].
    reflexivity.
  - exists fp, (-24)%Z. split; [lia|]. split; [lia|].
    rewrite namespace_decay_to_float_div by lia. reflexivity.
Qed.

(** *** [build] and [parse] *)

Lemma count_pos_contains (c : ascii) (s : string) :
  (count c s >? 0)%Z = contains c s /\ (0 <= count c s)%Z.
Proof.
  induction s as [|c' s [IH1 IH2]]; [done|].
  cbn [count contains]. destruct (Ascii.eqb c c'); cbn [orb].
  - split; [|lia]. destruct (Z.gtb_spec (1 + count c s) 0); [done|lia].
  - rewrite Z.add_0_l. done.
Qed.

Section CodecFacts.

Context {Sender Address Hash : Type}.
Variable is_b40 : string -> bool.
Variable hash_name : string -> Sender -> Address -> Hash.
Variable MAGIC_BYTES : bool -> ascii * ascii.
Variable NAMESPACE_REVEAL : ascii.

Lemma coerce_lifetime_range (lifetime : Z) :
  (0 <= coerce_lifetime lifetime < 2 ^ 32)%Z.
Proof.
  unfold coerce_lifetime, NAMESPACE_LIFE_INFINITE.
  destruct (Z.ltb_spec lifetime 0), (Z.gtb_spec lifetime (2 ^ 32 - 1));
    cbn [orb]; lia.
Qed.

Lemma build_ok (namespace_id : string) (version : Z) (reveal_addr : Address)
    (lifetime satoshi_cost : Z) (price_decay_rate : Q) (testset : bool) :
  is_b40 namespace_id = true ->
  contains "+" namespace_id = false ->
  contains "." namespace_id = false ->
  String.length namespace_id <= 19 ->
  (0 <= price_decay_rate)%Q -> (Qfloor price_decay_rate <= 255)%Z ->
  (0 <= satoshi_cost < 2 ^ 56)%Z ->
  (0 <= version < 2 ^ 16)%Z ->
  build is_b40 MAGIC_BYTES NAMESPACE_REVEAL namespace_id version reveal_addr lifetime
        satoshi_cost price_decay_rate testset
  = Ok (hexlify (wire MAGIC_BYTES NAMESPACE_REVEAL testset (coerce_lifetime lifetime) satoshi_cost
                   (Qfloor (price_decay_rate * inject_Z 16777216)) version
                   namespace_id)).
Proof.
  intros Hb40 Hplus Hdot Hlen Hr0 Hr255 Hcost Hver. unfold build.
  rewrite Hb40, Hplus, (proj1 (count_pos_contains "." namespace_id)), Hdot.
  cbn [negb orb LENGTHS].
  destruct (Nat.ltb_spec 19 (String.length namespace_id)) as [|_]; [lia|].
  rewrite namespace_decay_to_fixpoint_floor by done.
  fold (coerce_lifetime lifetime).
  pose proof (coerce_lifetime_range lifetime) as Hlife.
  destruct (Z.ltb_spec satoshi_cost 0), (Z.gtb_spec satoshi_cost (2 ^ 64 - 1));
    try lia.
  cbn [orb].
  set (fp := Qfloor (price_decay_rate * inject_Z 16777216)).
  pose proof (fixpoint_floor_range _ Hr0 Hr255) as Hfp. fold fp in Hfp.
  destruct (Z.ltb_spec fp 0), (Z.gtb_spec fp (2 ^ 32 - 1)); try lia.
  cbn [orb].
  rewrite !serialize_int_ok by lia.
  cbn [mbind result_bind].
  f_equal. unfold add_magic_bytes, wire.
  destruct (MAGIC_BYTES testset) as [m0 m1]. cbn [fst snd blockstore_script_to_hex].
  change (Z.to_nat 4) with 4. change (Z.to_nat 7) with 7. change (Z.to_nat 2) with 2.
  rewrite str_app_nil_r.
  change (String m0 (String m1 (String NAMESPACE_REVEAL ?x)))
    with (String m0 (String m1 "") +:+ String NAMESPACE_REVEAL "" +:+ x).
  rewrite !hexlify_app. reflexivity.
Qed.

(** The identifiers [build] refuses: a character outside the alphabet, a
    ["+"], a ["."], or more than 19 characters. *)
Lemma build_rejects_charset (namespace_id : string) (version : Z)
    (reveal_addr : Address) (lifetime satoshi_cost : Z) (price_decay_rate : Q)
    (testset : bool) :
  is_b40 namespace_id = false \/ contains "+" namespace_id = true \/
  contains "." namespace_id = true ->
  build is_b40 MAGIC_BYTES NAMESPACE_REVEAL namespace_id version reveal_addr lifetime
        satoshi_cost price_decay_rate testset
  = Raise (Exception (NonBase38 namespace_id)).
Proof.
  intros H. unfold build.
  rewrite (proj1 (count_pos_contains "." namespace_id)).
  destruct H as [-> | [-> | ->]]; cbn [negb orb]; by rewrite ?orb_true_r.
Qed.

Lemma build_rejects_long (namespace_id : string) (version : Z)
    (reveal_addr : Address) (lifetime satoshi_cost : Z) (price_decay_rate : Q)
    (testset : bool) :
  is_b40 namespace_id = true -> contains "+" namespace_id = false ->
  contains "." namespace_id = false -> 19 < String.length namespace_id ->
  build is_b40 MAGIC_BYTES NAMESPACE_REVEAL namespace_id version reveal_addr lifetime
        satoshi_cost price_decay_rate testset
  = Raise (Exception (InvalidLength namespace_id 19)).
Proof.
  intros Hb40 Hplus Hdot Hlen. unfold build.
  rewrite Hb40, Hplus, (proj1 (count_pos_contains "." namespace_id)), Hdot.
  cbn [negb orb LENGTHS].
  by destruct (Nat.ltb_spec 19 (String.length namespace_id)) as [_|]; [|lia].
Qed.

Lemma strip_framing_wire (testset : bool) (l c d v : Z) (ns : string) :
  strip_framing (hexlify (wire MAGIC_BYTES NAMESPACE_REVEAL testset l c d v ns))
  = Ok (be_bytes 4 l +:+ be_bytes 7 c +:+ be_bytes 4 d +:+ be_bytes 2 v +:+ ns).
Proof.
  unfold strip_framing. rewrite unhexlify_hexlify. reflexivity.
Qed.

(** What [parse] reads back from a payload laid out as [build] writes it. *)
Lemma parse_layout (l c d v : Z) (ns : string) (sender : Sender)
    (recipient_address : Address) :
  (0 <= l < 2 ^ 32)%Z -> (0 <= c < 2 ^ 56)%Z -> (0 <= d < 2 ^ 32)%Z ->
  (0 <= v < 2 ^ 16)%Z ->
  parse hash_name
    (be_bytes 4 l +:+ be_bytes 7 c +:+ be_bytes 4 d +:+ be_bytes 2 v +:+ ns)
    sender recipient_address
  = Ok {| opcode := "NAMESPACE_REVEAL";
          lifetime := l;
          cost := c;
          price_decay := namespace_decay_to_float d;
          namespace_id := ns;
          namespace_id_hash := hash_name ns sender recipient_address;
          version := v |}.
Proof.
  intros Hl Hc Hd Hv. unfold parse.
  cbv zeta. cbn [LENGTHS Nat.add].
  set (L := be_bytes 4 l). set (C := be_bytes 7 c).
  set (D := be_bytes 4 d). set (V := be_bytes 2 v).
  assert (HL : String.length L = 4) by apply length_be_bytes.
  assert (HC : String.length C = 7) by apply length_be_bytes.
  assert (HD : String.length D = 4) by apply length_be_bytes.
  assert (HV : String.length V = 2) by apply length_be_bytes.
  assert (E1 : slice 0 4 (L +:+ C +:+ D +:+ V +:+ ns) = L).
  { apply (slice_app 0 4 "" L); [done|lia]. }
  assert (E2 : slice 4 11 (L +:+ C +:+ D +:+ V +:+ ns) = C).
  { apply (slice_app 4 11 L C); lia. }
  assert (E3 : slice 11 15 (L +:+ C +:+ D +:+ V +:+ ns) = D).
  { rewrite <- (str_app_assoc L C). apply slice_app; rewrite ?str_length_app; lia. }
  assert (E4 : slice 15 17 (L +:+ C +:+ D +:+ V +:+ ns) = V).
  { rewrite <- (str_app_assoc L C), <- (str_app_assoc (L +:+ C) D).
    apply slice_app; rewrite ?str_length_app; lia. }
  assert (E5 : slice_from 17 (L +:+ C +:+ D +:+ V +:+ ns) = ns).
  { rewrite <- (str_app_assoc L C), <- (str_app_assoc (L +:+ C) D),
      <- (str_app_assoc ((L +:+ C) +:+ D) V).
    apply slice_from_app; rewrite ?str_length_app; lia. }
  rewrite E1, E2, E3, E4, E5. subst L C D V.
  rewrite !int16_hexlify_be_bytes by (try done; lia).
  reflexivity.
Qed.


Lemma int16_acc_hexlify (s : string) (acc : Z) :
  exists v, int16_acc acc (hexlify s) = Ok v.
Proof.
  revert acc. induction s as [|c s IH]; intros acc; [by exists acc|].
  cbn [hexlify]. unfold hexlify_byte. rewrite !str_app_cons, str_app_nil_l.
  pose proof (byte_value_bound c) as Hc.
  cbn [int16_acc]. rewrite !hex_value_digit.
  - apply IH.
  - apply Z.mod_pos_bound. lia.
  - split; [apply Z.div_pos; lia|apply Z.div_lt_upper_bound; lia].
Qed.

Lemma int16_hexlify_nonempty (s : string) :
  s <> "" -> exists v, int16 (hexlify s) = Ok v.
Proof.
  destruct s as [|c s]; [done|]. intros _.
  destruct (int16_acc_hexlify (String c s) 0) as [v Hv]. exists v.
  rewrite <- Hv. reflexivity.
Qed.

Lemma length_str_drop (n : nat) (s : string) :
  String.length (str_drop n s) = String.length s - n.
Proof.
  revert n. induction s as [|c s IH]; intros [|n]; simpl; try reflexivity.
  apply IH.
Qed.

Lemma slice_empty (lo hi : nat) (s : string) :
  String.length s <= lo -> slice lo hi s = "".
Proof.
  intros H. unfold slice. rewrite str_drop_all by done. by destruct (hi - lo).
Qed.

Lemma slice_nonempty (lo hi : nat) (s : string) :
  lo < String.length s -> lo < hi -> slice lo hi s <> "".
Proof.
  intros H1 H2 E. apply (f_equal String.length) in E.
  unfold slice in E. rewrite str_length_take, length_str_drop in E.
  simpl in E. lia.
Qed.

(** A field that starts inside the payload is read as a number, however
    few of its bytes are there; a field that starts at or after the end is
    the empty string, on which [int] raises. *)
Lemma read_field_inside (lo hi : nat) (s : string) :
  lo < String.length s -> lo < hi ->
  exists v, int16 (hexlify (slice lo hi s)) = Ok v.
Proof. intros. by apply int16_hexlify_nonempty, slice_nonempty. Qed.

Lemma read_field_outside (lo hi : nat) (s : string) :
  String.length s <= lo -> int16 (hexlify (slice lo hi s)) = Raise ValueError.
Proof. intros. by rewrite slice_empty. Qed.

End CodecFacts.

End NamespaceRevealFacts.

(** ** The claims about [namespacereveal.py] *)

Module NamespaceRevealSpec.
Import PyFacts NamespaceReveal NamespaceRevealFacts.

(** C1, as amended.  For a namespace id that [build] accepts, of 1 to 19
    characters, a version on 16 bits, a lifetime on 32 bits, a cost on 56
    bits and a rate that is not negative with an integer part of at most
    255: [build] returns a script, and [parse], given the script's bytes
    without the three framing bytes, returns a record with the lifetime, the
    cost, the version and the namespace id that were given to [build], with
    [hash_name namespace_id sender recipient] as its hash, and with the rate
    truncated to a multiple of [2^-24] as its price decay: it is at most the
    rate, less than [2^-24] below it, and it is the rate when the rate is a
    multiple of [2^-24]. *)
Theorem parse_build_roundtrip {Sender Address Hash : Type}
    (hash_name : string -> Sender -> Address -> Hash)
    (is_b40 : string -> bool) (MAGIC_BYTES : bool -> ascii * ascii)
    (NAMESPACE_REVEAL : ascii)
    (namespace_id : string) (version : Z) (reveal_addr : Address)
    (lifetime satoshi_cost : Z) (price_decay_rate : Q) (testset : bool)
    (sender : Sender) (recipient : Address) :
  is_b40 namespace_id = true ->
  contains "+" namespace_id = false ->
  contains "." namespace_id = false ->
  1 <= String.length namespace_id <= 19 ->
  (0 <= version < 2 ^ 16)%Z ->
  (0 <= lifetime <= 2 ^ 32 - 1)%Z ->
  (0 <= satoshi_cost < 2 ^ 56)%Z ->
  (0 <= price_decay_rate)%Q ->
  (int_of_float price_decay_rate <= 255)%Z ->
  exists packaged_script bin_payload op,
    build is_b40 MAGIC_BYTES NAMESPACE_REVEAL namespace_id version reveal_addr
          lifetime satoshi_cost price_decay_rate testset = Ok packaged_script /\
    strip_framing packaged_script = Ok bin_payload /\
    parse hash_name bin_payload sender recipient = Ok op /\
    NamespaceReveal.lifetime op = lifetime /\
    NamespaceReveal.cost op = satoshi_cost /\
    NamespaceReveal.version op = version /\
    NamespaceReveal.namespace_id op = namespace_id /\
    NamespaceReveal.namespace_id_hash op = hash_name namespace_id sender recipient /\
    (price_decay op ==
       inject_Z (Qfloor (price_decay_rate * inject_Z (2 ^ 24))) / inject_Z (2 ^ 24))%Q /\
    (price_decay_rate - 1 / inject_Z (2 ^ 24) < price_decay op)%Q /\
    (price_decay op <= price_decay_rate)%Q /\
    (forall n : Z, (price_decay_rate == inject_Z n / inject_Z (2 ^ 24))%Q ->
                   (price_decay op == price_decay_rate)%Q).
Proof.
  intros Hb40 Hplus Hdot Hlen Hver Hlife Hcost Hr0 Hr255.
  rewrite int_of_float_floor in Hr255 by done.
  change (2 ^ 24)%Z with 16777216%Z.
  set (fp := Qfloor (price_decay_rate * inject_Z 16777216)).
  destruct (fixpoint_floor_range _ Hr0 Hr255) as [Hfp0 Hfp]. fold fp in Hfp0, Hfp.
  assert (Hcoerce : coerce_lifetime lifetime = lifetime).
  { unfold coerce_lifetime.
    destruct (Z.ltb_spec lifetime 0), (Z.gtb_spec lifetime (2 ^ 32 - 1));
      cbn [orb]; lia. }
  eexists _, _, _. split; [|split; [|split]].
  - apply build_ok; try done; lia.
  - apply strip_framing_wire.
  - rewrite Hcoerce. apply parse_layout; lia.
  - cbn [NamespaceReveal.lifetime NamespaceReveal.cost NamespaceReveal.version
         NamespaceReveal.namespace_id NamespaceReveal.namespace_id_hash price_decay].
    fold fp.
    pose proof (namespace_decay_to_float_div fp Hfp0) as Hdec.
    pose proof (Qfloor_le (price_decay_rate * inject_Z 16777216)) as Hlo.
    pose proof (Qlt_floor (price_decay_rate * inject_Z 16777216)) as Hhi.
    fold fp in Hlo, Hhi. rewrite inject_Z_plus in Hhi.
    change (inject_Z 1) with 1%Q in Hhi.
    assert (Hdec' : (namespace_decay_to_float fp * (16777216 # 1) == inject_Z fp)%Q).
    { rewrite Hdec. change (inject_Z 16777216) with (16777216 # 1)%Q. field. }
    change (inject_Z 16777216) with (16777216 # 1)%Q in *.
    do 5 (split; [reflexivity|]).
    split; [exact Hdec|]. split; [|split].
    + assert (E : (1 / (16777216 # 1) == 1 # 16777216)%Q) by reflexivity.
      rewrite E. lra.
    + lra.
    + intros n Hn. rewrite Hdec.
      assert (Hfpn : fp = n).
      { subst fp. rewrite Hn.
        assert (E : (inject_Z n / (16777216 # 1) * (16777216 # 1) == inject_Z n)%Q)
          by field.
        rewrite E. apply Qfloor_Z. }
      rewrite Hfpn, Hn. reflexivity.
Qed.


Lemma parse_build_roundtrip_witness :
  exists packaged_script bin_payload op,
    build sample_is_b40 sample_magic sample_opcode "id" 1 "1reveal" 52595 6400000 (5 # 2) false
      = Ok packaged_script /\
    strip_framing packaged_script = Ok bin_payload /\
    parse sample_hash_name bin_payload "sender" "1reveal" = Ok op /\
    NamespaceReveal.lifetime op = 52595%Z /\
    NamespaceReveal.cost op = 6400000%Z /\
    NamespaceReveal.version op = 1%Z /\
    NamespaceReveal.namespace_id op = "id" /\
    NamespaceReveal.namespace_id_hash op = sample_hash_name "id" "sender" "1reveal" /\
    (price_decay op ==
       inject_Z (Qfloor ((5 # 2) * inject_Z (2 ^ 24))) / inject_Z (2 ^ 24))%Q /\
    ((5 # 2) - 1 / inject_Z (2 ^ 24) < price_decay op)%Q /\
    (price_decay op <= 5 # 2)%Q /\
    (forall n : Z, (5 # 2 == inject_Z n / inject_Z (2 ^ 24))%Q ->
                   (price_decay op == 5 # 2)%Q).
Proof.
  apply (parse_build_roundtrip sample_hash_name sample_is_b40 sample_magic
           sample_opcode
           "id" 1 "1reveal" 52595 6400000 (5 # 2) false "sender" "1reveal");
    try reflexivity; try (simpl; lia); try (vm_compute; discriminate).
Defined.

(** C1 as stated fails: the rate [2^-25], a binary64 number that is not
    negative and has integer part 0, comes back as 0. *)
Lemma parse_build_price_decay_lost :
  binary64 (1 # 33554432) /\
  (0 <= 1 # 33554432)%Q /\ (int_of_float (1 # 33554432) <= 255)%Z /\
  exists packaged_script bin_payload op,
    build sample_is_b40 sample_magic sample_opcode "id" 1 "1reveal" 52595 6400000
          (1 # 33554432) false = Ok packaged_script /\
    strip_framing packaged_script = Ok bin_payload /\
    parse sample_hash_name bin_payload "sender" "1reveal" = Ok op /\
    ~ (price_decay op == 1 # 33554432)%Q.
Proof.
  split; [exists 1%Z, (-25)%Z; split; [done|split; [lia|reflexivity]]|].
  split; [by vm_compute|]. split; [by vm_compute|].
  eexists _, _, _. split; [vm_compute; reflexivity|].
  split; [vm_compute; reflexivity|].
  split; [vm_compute; reflexivity|].
  vm_compute. discriminate.
Qed.

(** C5.  A negative value that is not below [-2^(8 w)] is not refused:
    [serialize_int(-1, 7)] returns a string of 16 characters with a minus
    sign in it.  The two bounds of the claim on the positive side hold. *)
Theorem serialize_int_negative_accepted :
  serialize_int (-1) 7 = Ok "0-00000000000001" /\
  serialize_int (2 ^ 56) 7 = Raise (Exception (IntegerOverflow 7)) /\
  serialize_int (2 ^ 56 - 1) 7 = Ok "ffffffffffffff".
Proof. repeat split; vm_compute; reflexivity. Qed.

(** C6.  A cost from [2^56] to [2^64 - 1] passes the range check of [build]
    (the check's condition is false) and then overflows the 7-byte field:
    [build] raises the "Integer overflow (7 bytes)" exception of
    [serialize_int], not the "Cost out of range" one. *)
Theorem build_cost_overflows_field {Address : Type}
    (is_b40 : string -> bool) (MAGIC_BYTES : bool -> ascii * ascii)
    (NAMESPACE_REVEAL : ascii)
    (namespace_id : string) (version : Z) (reveal_addr : Address)
    (lifetime satoshi_cost : Z) (price_decay_rate : Q) (testset : bool) :
  is_b40 namespace_id = true ->
  contains "+" namespace_id = false ->
  contains "." namespace_id = false ->
  String.length namespace_id <= 19 ->
  (0 <= price_decay_rate)%Q ->
  (int_of_float price_decay_rate <= 255)%Z ->
  (2 ^ 56 <= satoshi_cost <= 2 ^ 64 - 1)%Z ->
  ((satoshi_cost <? 0) || (satoshi_cost >? 2 ^ 64 - 1))%Z = false /\
  serialize_int satoshi_cost 7 = Raise (Exception (IntegerOverflow 7)) /\
  build is_b40 MAGIC_BYTES NAMESPACE_REVEAL namespace_id version reveal_addr lifetime
        satoshi_cost price_decay_rate testset
  = Raise (Exception (IntegerOverflow 7)).
Proof.
  intros Hb40 Hplus Hdot Hlen Hr0 Hr255 Hcost.
  rewrite int_of_float_floor in Hr255 by done.
  assert (Hcheck : ((satoshi_cost <? 0) || (satoshi_cost >? 2 ^ 64 - 1))%Z = false).
  { destruct (Z.ltb_spec satoshi_cost 0), (Z.gtb_spec satoshi_cost (2 ^ 64 - 1));
      cbn [orb]; lia. }
  assert (Hser : serialize_int satoshi_cost 7 = Raise (Exception (IntegerOverflow 7))).
  { apply serialize_int_overflow. lia. }
  split; [exact Hcheck|]. split; [exact Hser|].
  unfold build.
  rewrite Hb40, Hplus, (proj1 (count_pos_contains "." namespace_id)), Hdot.
  cbn [negb orb LENGTHS].
  destruct (Nat.ltb_spec 19 (String.length namespace_id)) as [|_]; [lia|].
  rewrite namespace_decay_to_fixpoint_floor by done.
  fold (coerce_lifetime lifetime). rewrite Hcheck.
  set (fp := Qfloor (price_decay_rate * inject_Z 16777216)).
  destruct ((fp <? 0) || (fp >? 2 ^ 32 - 1))%Z eqn:Hfp.
  - exfalso. pose proof (fixpoint_floor_range _ Hr0 Hr255) as Hrange.
    fold fp in Hrange.
    destruct (Z.ltb_spec fp 0), (Z.gtb_spec fp (2 ^ 32 - 1));
      cbn [orb] in Hfp; try discriminate; lia.
  - pose proof (coerce_lifetime_range lifetime).
    rewrite (serialize_int_ok (coerce_lifetime lifetime) 4) by lia.
    cbn [mbind result_bind]. rewrite Hser. reflexivity.
Qed.

Lemma build_cost_overflows_field_witness :
  ((2 ^ 56 <? 0) || (2 ^ 56 >? 2 ^ 64 - 1))%Z = false /\
  serialize_int (2 ^ 56) 7 = Raise (Exception (IntegerOverflow 7)) /\
  build sample_is_b40 sample_magic sample_opcode "id" 1 "1reveal" 52595 (2 ^ 56) (5 # 2) false
  = Raise (Exception (IntegerOverflow 7)).
Proof.
  apply (build_cost_overflows_field sample_is_b40 sample_magic sample_opcode
           "id" 1 "1reveal" 52595 (2 ^ 56) (5 # 2) false);
    try reflexivity; try (simpl; lia); try (vm_compute; discriminate).
Defined.

(** C7.  The empty namespace id is not refused: [build] checks the length
    against the upper bound only.  When [is_b40] accepts the empty string
    (it has no character outside the alphabet), [build] returns a script
    whose namespace id field is empty, whatever the framing bytes are. *)
Theorem build_accepts_empty_namespace_id {Address : Type}
    (is_b40 : string -> bool) (MAGIC_BYTES : bool -> ascii * ascii)
    (NAMESPACE_REVEAL : ascii) (reveal_addr : Address) (testset : bool) :
  is_b40 "" = true ->
  build is_b40 MAGIC_BYTES NAMESPACE_REVEAL "" 1 reveal_addr 0 0 0 testset
  = Ok (hexlify (wire MAGIC_BYTES NAMESPACE_REVEAL testset 0 0 0 1 "")).
Proof.
  intros Hb40.
  rewrite (build_ok is_b40 MAGIC_BYTES NAMESPACE_REVEAL "" 1 reveal_addr 0 0 0 testset);
    try done; try (simpl; lia); try (vm_compute; discriminate).
Qed.

Lemma build_accepts_empty_namespace_id_witness :
  build sample_is_b40 sample_magic sample_opcode "" 1 "1reveal" 0 0 0 false
  = Ok "6964260000000000000000000000000000000001".
Proof.
  exact (build_accepts_empty_namespace_id sample_is_b40 sample_magic
           sample_opcode "1reveal" false eq_refl).
Defined.

(** C9, as amended.  [parse] has no check of the payload's length and no
    error of its own: on a payload of at most 15 bytes the field that starts
    at or after the end of the payload is the empty string, and [int] raises
    [ValueError] on it. *)
Theorem parse_short_payload {Sender Address Hash : Type}
    (hash_name : string -> Sender -> Address -> Hash)
    (bin_payload : string) (sender : Sender) (recipient_address : Address) :
  String.length bin_payload <= 15 ->
  parse hash_name bin_payload sender recipient_address = Raise ValueError.
Proof.
  intros Hlen. unfold parse.
  cbv zeta. cbn [LENGTHS Nat.add].
  destruct (Nat.le_gt_cases (String.length bin_payload) 0) as [H0|H0].
  { rewrite (read_field_outside 0 4) by lia. reflexivity. }
  destruct (read_field_inside 0 4 bin_payload) as [life ->]; [lia..|].
  cbn [mbind result_bind].
  destruct (Nat.le_gt_cases (String.length bin_payload) 4) as [H4|H4].
  { rewrite (read_field_outside 4 11) by lia. reflexivity. }
  destruct (read_field_inside 4 11 bin_payload) as [cost ->]; [lia..|].
  cbn [mbind result_bind].
  destruct (Nat.le_gt_cases (String.length bin_payload) 11) as [H11|H11].
  { rewrite (read_field_outside 11 15) by lia. reflexivity. }
  destruct (read_field_inside 11 15 bin_payload) as [decay ->]; [lia..|].
  cbn [mbind result_bind].
  rewrite (read_field_outside 15 17) by lia. reflexivity.
Qed.

Lemma parse_short_payload_witness :
  parse sample_hash_name "0123456789abcde" "sender" "1reveal" = Raise ValueError.
Proof.
  apply (parse_short_payload sample_hash_name "0123456789abcde" "sender" "1reveal").
  simpl. lia.
Defined.

(** C9 as stated fails: a payload of 16 bytes, one short of the fixed
    header, is parsed; the version is read from the one byte that is there
    and the namespace id is empty.  And the error on the empty payload is
    the [ValueError] of [int]. *)
Lemma parse_16_bytes_returns :
  String.length "0123456789abcdef" = 16 /\
  (exists op,
     parse sample_hash_name "0123456789abcdef" "sender" "1reveal" = Ok op /\
     NamespaceReveal.version op = 102%Z /\ NamespaceReveal.namespace_id op = "") /\
  parse sample_hash_name "" "sender" "1reveal" = Raise ValueError.
Proof.
  split; [reflexivity|]. split; [|reflexivity].
  eexists. split; [vm_compute; reflexivity|]. split; reflexivity.
Qed.

(** C10.  When [namespace_decay_to_fixpoint] returns a value, the value is
    in [0, 2^32 - 1]; so [build] never raises its "Decay rate out of range"
    exception. *)
Theorem decay_fixpoint_in_range {Address : Type}
    (is_b40 : string -> bool) (MAGIC_BYTES : bool -> ascii * ascii)
    (NAMESPACE_REVEAL : ascii)
    (namespace_id : string) (version : Z) (reveal_addr : Address)
    (lifetime satoshi_cost : Z) (price_decay_rate : Q) (testset : bool)
    (fixpoint : Z) :
  namespace_decay_to_fixpoint price_decay_rate = Some fixpoint ->
  (0 <= fixpoint <= 2 ^ 32 - 1)%Z /\
  ((fixpoint <? 0) || (fixpoint >? 2 ^ 32 - 1))%Z = false /\
  forall fixpoint' : Z,
    build is_b40 MAGIC_BYTES NAMESPACE_REVEAL namespace_id version reveal_addr lifetime
          satoshi_cost price_decay_rate testset
    <> Raise (Exception (DecayOutOfRange fixpoint')).
Proof.
  intros Hfix.
  assert (Hrange : (0 <= fixpoint <= 2 ^ 32 - 1)%Z).
  { destruct (namespace_decay_to_fixpoint price_decay_rate) eqn:E in Hfix; [|done].
    assert (Hnone : namespace_decay_to_fixpoint price_decay_rate <> None)
      by congruence.
    rewrite namespace_decay_to_fixpoint_None in Hnone.
    assert (Hr0 : (0 <= price_decay_rate)%Q).
    { apply Qnot_lt_le. tauto. }
    assert (Hr255 : (Qfloor price_decay_rate <= 255)%Z).
    { rewrite <- int_of_float_floor by done. lia. }
    rewrite namespace_decay_to_fixpoint_floor in E by done.
    pose proof (fixpoint_floor_range _ Hr0 Hr255). simplify_eq. lia. }
  assert (Hcheck : ((fixpoint <? 0) || (fixpoint >? 2 ^ 32 - 1))%Z = false).
  { destruct (Z.ltb_spec fixpoint 0), (Z.gtb_spec fixpoint (2 ^ 32 - 1));
      cbn [orb]; lia. }
  split; [exact Hrange|]. split; [exact Hcheck|].
  intros fixpoint'. unfold build. rewrite Hfix, Hcheck.
  destruct (negb (is_b40 namespace_id) || contains "+" namespace_id
            || (count "." namespace_id >? 0)%Z); [done|].
  destruct (Nat.ltb (LENGTHS blockchain_id_namespace_id) (String.length namespace_id));
    [done|].
  destruct ((satoshi_cost <? 0) || (satoshi_cost >? 2 ^ 64 - 1))%Z; [done|].
  repeat match goal with
  | |- context [serialize_int ?v ?w] =>
      let E := fresh "E" in
      destruct (serialize_int v w) eqn:E; cbn [mbind result_bind];
      [|apply serialize_int_raise in E; by rewrite E]
  end.
  done.
Qed.

Lemma decay_fixpoint_in_range_witness :
  (0 <= 41943040 <= 2 ^ 32 - 1)%Z /\
  ((41943040 <? 0) || (41943040 >? 2 ^ 32 - 1))%Z = false /\
  forall fixpoint' : Z,
    build sample_is_b40 sample_magic sample_opcode "id" 1 "1reveal" 52595 6400000 (5 # 2) false
    <> Raise (Exception (DecayOutOfRange fixpoint')).
Proof.
  apply (decay_fixpoint_in_range sample_is_b40 sample_magic sample_opcode "id" 1 "1reveal"
           52595 6400000 (5 # 2) false 41943040).
  reflexivity.
Defined.

End NamespaceRevealSpec.

(** ** Facts about [user.py] *)

Module UserFacts.
Import PyFacts User.

(** *** [split] and [join] *)

Lemma split_nonempty (sep : ascii) (s : string) : split sep s <> [].
Proof.
  destruct s as [|c s]; [done|]. cbn [split].
  destruct (Ascii.eqb c sep); [done|]. by destruct (split sep s).
Qed.

Lemma split_cons_other (sep c : ascii) (s : string) :
  Ascii.eqb c sep = false ->
  exists x xs, split sep s = x :: xs /\ split sep (String c s) = String c x :: xs.
Proof.
  intros Hc. cbn [split]. rewrite Hc.
  destruct (split sep s) as [|x xs] eqn:E; [by apply split_nonempty in E|].
  by exists x, xs.
Qed.

Lemma split_no_sep (sep : ascii) (s : string) :
  contains sep s = false -> split sep s = [s].
Proof.
  induction s as [|c s IH]; [done|]. cbn [contains]. intros H.
  apply orb_false_elim in H as [Hc Hs].
  rewrite Ascii.eqb_sym in Hc.
  destruct (split_cons_other sep c s Hc) as (x & xs & E & ->).
  rewrite IH in E by done. by simplify_eq.
Qed.

Lemma split_app (sep : ascii) (a b : string) :
  split sep (a +:+ String sep b) = split sep a ++ split sep b.
Proof.
  induction a as [|c a IH].
  - rewrite str_app_nil_l. cbn [split]. by rewrite Ascii.eqb_refl.
  - rewrite str_app_cons. destruct (Ascii.eqb c sep) eqn:Hc.
    + cbn [split]. rewrite Hc, IH. reflexivity.
    + destruct (split_cons_other sep c a Hc) as (x & xs & E & ->).
      destruct (split_cons_other sep c (a +:+ String sep b) Hc) as (y & ys & E' & ->).
      rewrite IH, E in E'. by simplify_eq/=.
Qed.

Lemma join_cons (sep x : string) (l : list string) :
  l <> [] -> join sep (x :: l) = x +:+ sep +:+ join sep l.
Proof. by destruct l. Qed.

Lemma join_split (sep : ascii) (s : string) :
  join (String sep "") (split sep s) = s.
Proof.
  induction s as [|c s IH]; [done|].
  destruct (Ascii.eqb c sep) eqn:Hc.
  - cbn [split]. rewrite Hc. apply Ascii.eqb_eq in Hc as ->.
    rewrite join_cons, IH by apply split_nonempty. reflexivity.
  - destruct (split_cons_other sep c s Hc) as (x & xs & E & ->).
    rewrite E in IH. destruct xs as [|y ys].
    + cbn [join] in *. by rewrite IH.
    + rewrite join_cons in * by done. by rewrite str_app_cons, IH.
Qed.

Lemma contains_app (c : ascii) (a b : string) :
  contains c (a +:+ b) = contains c a || contains c b.
Proof.
  induction a as [|x a IH]; [done|].
  rewrite str_app_cons. cbn [contains]. by rewrite IH, orb_assoc.
Qed.

(** A string with a separator in it ends with a last separator. *)
Lemma last_sep_decomposition (sep : ascii) (s : string) :
  contains sep s = true ->
  exists a b, s = a +:+ String sep b /\ contains sep b = false.
Proof.
  induction s as [|c s IH]; [done|]. cbn [contains]. intros H.
  destruct (contains sep s) eqn:Hs.
  - destruct (IH eq_refl) as (a & b & -> & Hb).
    exists (String c a), b. by rewrite str_app_cons.
  - rewrite orb_false_r in H. apply Ascii.eqb_eq in H as <-.
    by exists "", s.
Qed.

Lemma split_last_sep (sep : ascii) (a b : string) :
  contains sep b = false ->
  List.last (split sep (a +:+ String sep b)) "" = b /\
  removelast (split sep (a +:+ String sep b)) = split sep a.
Proof.
  intros Hb. rewrite split_app, (split_no_sep sep b Hb).
  by rewrite last_last, removelast_last.
Qed.

(** *** Decimal numerals *)

Lemma int_of_str_of_int (v : Z) : int_of_str (str_of_int v) = Ok v.
Proof.
  unfold int_of_str, str_of_int.
  rewrite NilZero.isi.
  - by rewrite DecimalZ.of_to.
  - destruct v as [|p|p]; [done| |done]. cbn. intros [= H].
    by apply (Unsigned.to_uint_nonnil p).
  - destruct v as [|p|p]; [done|done|]. cbn. intros [= H].
    by apply (Unsigned.to_uint_nonnil p).
Qed.

Lemma contains_colon_uint (d : Decimal.uint) :
  contains ":" (NilEmpty.string_of_uint d) = false.
Proof. induction d; [done|cbn [NilEmpty.string_of_uint contains]; by rewrite IHd..]. Qed.

Lemma contains_colon_str_of_int (v : Z) : contains ":" (str_of_int v) = false.
Proof.
  unfold str_of_int. destruct (Z.to_int v) as [d|d]; cbn [NilZero.string_of_int].
  - destruct d; try done; apply (contains_colon_uint (_ d)).
  - cbn [contains]. destruct d; try done; apply (contains_colon_uint (_ d)).
Qed.


Section RegistryFacts.

Context {Info Other : Type}.
Variable is_valid_hash : string -> bool.
Variable USER_ZONEFILE_SCHEMA : user_zonefile Other -> bool.
Variable PROFILE_MUTABLE_DATA_SCHEMA : user_data_info Info Other -> bool.
Variable OP_MUTABLE_DATA_MD_PATTERN : string -> bool.
Variable b64encode : string -> string.
Variable b64decode : string -> result string.
Variable dict_keys : gmap string Info -> list string.

Local Abbreviation is_mutable_data_md := (is_mutable_data_md OP_MUTABLE_DATA_MD_PATTERN).
Local Abbreviation pack_mutable_data_md := (pack_mutable_data_md b64encode).
Local Abbreviation unpack_mutable_data_md :=
  (unpack_mutable_data_md OP_MUTABLE_DATA_MD_PATTERN b64decode).
Local Abbreviation get_mutable_data_info_ex :=
  (get_mutable_data_info_ex PROFILE_MUTABLE_DATA_SCHEMA
     OP_MUTABLE_DATA_MD_PATTERN b64decode dict_keys).
Local Abbreviation put_mutable_data_info :=
  (put_mutable_data_info PROFILE_MUTABLE_DATA_SCHEMA
     OP_MUTABLE_DATA_MD_PATTERN b64decode dict_keys).

(** The parts of a packed key. *)
Lemma split_pack_mutable_data_md (data_id : string) (version : Z) :
  contains ":" (b64encode data_id) = false ->
  split ":" (pack_mutable_data_md data_id version)
  = ["mutable"; b64encode data_id; str_of_int version].
Proof.
  intros Hb. unfold User.pack_mutable_data_md.
  change ("mutable:" +:+ ?x) with ("mutable" +:+ String ":" x).
  change (":" +:+ ?x) with (String ":" x).
  rewrite !split_app, (split_no_sep ":" "mutable"), (split_no_sep _ _ Hb) by done.
  by rewrite (split_no_sep _ _ (contains_colon_str_of_int version)).
Qed.

(** Unpacking is the inverse of packing, for a data id that base64 gives
    back and a packed key that the pattern accepts. *)
Lemma unpack_pack_mutable_data_md (data_id : string) (version : Z) :
  is_mutable_data_md (pack_mutable_data_md data_id version) = true ->
  b64decode (b64encode data_id) = Ok data_id ->
  contains ":" (b64encode data_id) = false ->
  unpack_mutable_data_md (pack_mutable_data_md data_id version)
  = Ok (data_id, version).
Proof.
  intros Hmd Hb64 Hcolon. unfold User.unpack_mutable_data_md.
  rewrite Hmd, split_pack_mutable_data_md by done.
  cbn [negb index nth_error mbind result_bind].
  rewrite Hb64. cbn [mbind result_bind].
  rewrite int_of_str_of_int. reflexivity.
Qed.

(** What the loop of [get_mutable_data_info_ex] returns is an entry of the
    mapping under a key of the list that unpacks to the data id. *)
Lemma get_mutable_data_info_ex_loop_found (d : gmap string Info)
    (data_id : string) (keys : list string) (info : Info) (version : Z)
    (md : string) :
  get_mutable_data_info_ex_loop OP_MUTABLE_DATA_MD_PATTERN b64decode d data_id keys
  = Ok (Some (info, version, md)) ->
  md ∈ keys /\ d !! md = Some info /\ is_mutable_data_md md = true /\
  unpack_mutable_data_md md = Ok (data_id, version).
Proof.
  induction keys as [|k keys IH]; [done|]. cbn [get_mutable_data_info_ex_loop].
  destruct (User.is_mutable_data_md _ k) eqn:Hmd; cbn [negb].
  - destruct (User.unpack_mutable_data_md _ _ k) as [[uid ver]|e] eqn:Hun;
      cbn [mbind result_bind]; [|done].
    destruct (String.eqb_spec data_id uid) as [<-|Hne].
    + destruct (d !! k) as [i|] eqn:Hk; [|done].
      intros [= <- <- <-]. split; [by left|done].
    + intros H. destruct (IH H) as (? & ? & ? & ?). split; [by right|done].
  - intros H. destruct (IH H) as (? & ? & ? & ?). split; [by right|done].
Qed.

Lemma get_mutable_data_info_ex_found (user_data_info : user_data_info Info Other)
    (data_id : string) (info : Info) (version : Z) (md : string) :
  get_mutable_data_info_ex user_data_info data_id = Ok (Some (info, version, md)) ->
  exists d, data user_data_info = Some d /\ d !! md = Some info /\
            is_mutable_data_md md = true /\
            unpack_mutable_data_md md = Ok (data_id, version).
Proof.
  unfold User.get_mutable_data_info_ex.
  destruct (has_mutable_data_section _ _); cbn [negb]; [|done].
  destruct (data user_data_info) as [d|]; [|done].
  intros H. apply get_mutable_data_info_ex_loop_found in H as (_ & ? & ? & ?).
  by exists d.
Qed.

(** Conversely, in a mapping where every metadata key unpacks and [md] is
    the only key of [data_id], the lookup finds [md], whatever the order in
    which the keys are visited. *)
Lemma get_mutable_data_info_ex_loop_unique (d : gmap string Info)
    (data_id : string) (keys : list string) (info : Info) (version : Z)
    (md : string) :
  md ∈ keys -> d !! md = Some info -> is_mutable_data_md md = true ->
  unpack_mutable_data_md md = Ok (data_id, version) ->
  (forall k, k ∈ keys -> is_mutable_data_md k = true ->
             exists id0 v0, unpack_mutable_data_md k = Ok (id0, v0) /\
                            (id0 = data_id -> k = md)) ->
  get_mutable_data_info_ex_loop OP_MUTABLE_DATA_MD_PATTERN b64decode d data_id keys
  = Ok (Some (info, version, md)).
Proof.
  intros Hin Hmd Hismd Hun Hall.
  induction keys as [|k keys IH]; [by apply elem_of_nil in Hin|].
  cbn [get_mutable_data_info_ex_loop].
  assert (Hrest : md ∈ keys ->
    get_mutable_data_info_ex_loop OP_MUTABLE_DATA_MD_PATTERN b64decode d data_id keys
    = Ok (Some (info, version, md))).
  { intros Hin'. apply IH; [done|]. intros k' Hk'. apply Hall. by right. }
  destruct (decide (k = md)) as [->|Hne].
  - rewrite Hismd, Hun. cbn [negb mbind result_bind].
    by rewrite String.eqb_refl, Hmd.
  - assert (Hin' : md ∈ keys).
    { apply elem_of_cons in Hin as [->|]; done. }
    destruct (User.is_mutable_data_md _ k) eqn:Hk; cbn [negb]; [|by apply Hrest].
    destruct (Hall k (list_elem_of_here _ _) Hk) as (id0 & v0 & -> & Hid0).
    cbn [mbind result_bind].
    destruct (String.eqb_spec data_id id0) as [->|_]; [by destruct Hne, Hid0|].
    by apply Hrest.
Qed.

Lemma size_lookup_Some (d : gmap string Info) (k : string) (i : Info) :
  d !! k = Some i -> Nat.eqb (size d) 0 = false.
Proof.
  intros H. apply Nat.eqb_neq. intros Hs. apply map_size_empty_inv in Hs.
  subst d. by rewrite lookup_empty in H.
Qed.

End RegistryFacts.

End UserFacts.

(** ** The claims about [user.py] *)

Module UserSpec.
Import PyFacts User UserFacts.

Section Claims.

Context {Info Other : Type}.
Variable is_valid_hash : string -> bool.
Variable USER_ZONEFILE_SCHEMA : user_zonefile Other -> bool.
Variable PROFILE_MUTABLE_DATA_SCHEMA : user_data_info Info Other -> bool.
Variable OP_MUTABLE_DATA_MD_PATTERN : string -> bool.
Variable b64encode : string -> string.
Variable b64decode : string -> result string.
Variable dict_keys : gmap string Info -> list string.

Local Abbreviation is_mutable_data_md := (is_mutable_data_md OP_MUTABLE_DATA_MD_PATTERN).
Local Abbreviation pack_mutable_data_md := (pack_mutable_data_md b64encode).
Local Abbreviation unpack_mutable_data_md :=
  (unpack_mutable_data_md OP_MUTABLE_DATA_MD_PATTERN b64decode).
Local Abbreviation get_mutable_data_info_ex :=
  (get_mutable_data_info_ex PROFILE_MUTABLE_DATA_SCHEMA
     OP_MUTABLE_DATA_MD_PATTERN b64decode dict_keys).
Local Abbreviation put_mutable_data_info :=
  (put_mutable_data_info PROFILE_MUTABLE_DATA_SCHEMA
     OP_MUTABLE_DATA_MD_PATTERN b64decode dict_keys).
Local Abbreviation get_immutable_data_hash :=
  (get_immutable_data_hash is_valid_hash USER_ZONEFILE_SCHEMA).
Local Abbreviation put_immutable_data_zonefile :=
  (put_immutable_data_zonefile is_valid_hash USER_ZONEFILE_SCHEMA).

(** C2.  When the data info holds an entry for [data_id] (the registry's
    lookup finds [info] under the key [md], with version [v]), a put with a
    version [v' <= v] returns [False] and leaves the data info, and so the
    entry, its key and its links, as they were, whatever the links given. *)
Theorem put_mutable_data_info_stale (user_data_info : user_data_info Info Other)
    (data_id : string) (info : Info) (v : Z) (md : string) (v' : Z)
    (mutable_data_links : gmap string Info) :
  get_mutable_data_info_ex user_data_info data_id = Ok (Some (info, v, md)) ->
  (v' <= v)%Z ->
  put_mutable_data_info user_data_info data_id v' mutable_data_links
  = Ok (false, user_data_info) /\
  exists d, data user_data_info = Some d /\ d !! md = Some info /\
            unpack_mutable_data_md md = Ok (data_id, v).
Proof.
  intros Hex Hle.
  destruct (get_mutable_data_info_ex_found _ _ _ _ _ _ _ _ _ Hex)
    as (d & Hd & Hmd & _ & Hun).
  split; [|by exists d].
  unfold User.put_mutable_data_info.
  destruct user_data_info as [dat oth]. cbn [data udi_other] in *. subst dat.
  cbn [default from_option id]. rewrite (size_lookup_Some d md info Hmd), Hex.
  cbn [mbind result_bind].
  destruct (Z.geb_spec v v'); [done|lia].
Qed.

(** C3.  When the data info holds one entry for [data_id], found by the
    lookup under the key [md] with version [v], a put with a version
    [v' > v] and the links under the packed key of [(data_id, v')] returns
    [True]; afterwards the new key holds the new links and unpacks to
    [(data_id, v')], the old key is absent, and the new key is the only key
    of the mapping that unpacks to [data_id].  Base64 is assumed to give
    [data_id] back from an encoding without [":"], and the key pattern to
    accept the new key. *)
Theorem put_mutable_data_info_newer (user_data_info : user_data_info Info Other)
    (d : gmap string Info) (data_id : string) (info : Info) (v : Z)
    (md : string) (v' : Z) (info' : Info) :
  data user_data_info = Some d ->
  get_mutable_data_info_ex user_data_info data_id = Ok (Some (info, v, md)) ->
  (forall md0 v0, is_Some (d !! md0) -> is_mutable_data_md md0 = true ->
                  unpack_mutable_data_md md0 = Ok (data_id, v0) -> md0 = md) ->
  (v < v')%Z ->
  is_mutable_data_md (pack_mutable_data_md data_id v') = true ->
  b64decode (b64encode data_id) = Ok data_id ->
  contains ":" (b64encode data_id) = false ->
  let md' := pack_mutable_data_md data_id v' in
  let d' := <[md' := info']> (delete md d) in
  put_mutable_data_info user_data_info data_id v' {[md' := info']}
  = Ok (true, {| data := Some d'; udi_other := udi_other user_data_info |}) /\
  d' !! md' = Some info' /\
  unpack_mutable_data_md md' = Ok (data_id, v') /\
  d' !! md = None /\
  (forall md0 v0, is_Some (d' !! md0) -> is_mutable_data_md md0 = true ->
                  unpack_mutable_data_md md0 = Ok (data_id, v0) ->
                  md0 = md' /\ v0 = v').
Proof.
  intros Hd Hex Huniq Hlt Hpat Hb64 Hcolon md' d'.
  destruct (get_mutable_data_info_ex_found _ _ _ _ _ _ _ _ _ Hex)
    as (d0 & Hd0 & Hmd & Hismd & Hun).
  assert (d0 = d) as -> by congruence.
  pose proof (unpack_pack_mutable_data_md _ _ _ data_id v' Hpat Hb64 Hcolon) as Hun'.
  fold md' in Hun'.
  assert (Hne : md' <> md).
  { intros E. rewrite E, Hun in Hun'. simplify_eq. lia. }
  split; [|split; [|split; [|split]]].
  - unfold User.put_mutable_data_info.
    destruct user_data_info as [dat oth]. cbn [data udi_other] in *. subst dat.
    cbn [default from_option id]. rewrite (size_lookup_Some d md info Hmd), Hex.
    cbn [mbind result_bind].
    destruct (Z.geb_spec v v'); [lia|].
    by rewrite <- insert_union_singleton_l.
  - apply lookup_insert_eq.
  - exact Hun'.
  - subst d'. rewrite lookup_insert_ne by done. apply lookup_delete_eq.
  - intros md0 v0 Hin Hmd0 Hun0.
    destruct (decide (md0 = md')) as [->|Hne0].
    + split; [done|]. rewrite Hun' in Hun0. by simplify_eq.
    + exfalso. subst d'. rewrite lookup_insert_ne in Hin by done.
      destruct (decide (md0 = md)) as [->|Hne1].
      * rewrite lookup_delete_eq in Hin. by destruct Hin.
      * rewrite lookup_delete_ne in Hin by done.
        by apply Hne1, (Huniq md0 v0).
Qed.

(** C4.  When [data_id] maps to the one hash [h] in the zonefile's txt
    records, a put of a well-formed hash [h'] under [data_id] returns [True]
    if [h' = h] and [False] otherwise, and leaves the zonefile as it was. *)
Theorem put_immutable_data_zonefile_existing (user_zonefile : user_zonefile Other)
    (data_id h h' : string) (data_url : option string) :
  is_user_zonefile USER_ZONEFILE_SCHEMA user_zonefile = true ->
  is_valid_hash h' = true ->
  get_immutable_data_hash user_zonefile data_id = Ok (OneHash h) ->
  (h' = h ->
   put_immutable_data_zonefile user_zonefile data_id h' data_url
   = Ok (true, user_zonefile)) /\
  (h' <> h ->
   put_immutable_data_zonefile user_zonefile data_id h' data_url
   = Ok (false, user_zonefile)).
Proof.
  intros Hzf Hvalid Hget. unfold User.put_immutable_data_zonefile.
  rewrite Hzf, Hvalid, Hget. cbn [negb mbind result_bind].
  split; intros H.
  - subst h'. by rewrite String.eqb_refl.
  - assert (String.eqb h h' = false) as ->; [|done].
    apply String.eqb_neq. congruence.
Qed.

(** C8, as amended.  A txt record with a ["#"] in it is [url + "#" + h] with
    no ["#"] in [h], in one way only; [get_immutable_hash_from_txt] returns
    [h] when it is a well-formed hash and [None] otherwise, and
    [get_immutable_url_from_txt] returns [url] when it is not empty and
    [None] when it is. *)
Theorem immutable_txt_last_hash (txtrec : string) :
  contains "#" txtrec = true ->
  exists url h,
    txtrec = url +:+ String "#" h /\ contains "#" h = false /\
    (forall url0 h0, txtrec = url0 +:+ String "#" h0 -> contains "#" h0 = false ->
                     url0 = url /\ h0 = h) /\
    get_immutable_hash_from_txt is_valid_hash txtrec
      = (if is_valid_hash h then Some h else None) /\
    get_immutable_url_from_txt txtrec
      = (match url with EmptyString => None | _ => Some url end).
Proof.
  intros Hc. destruct (last_sep_decomposition "#" txtrec Hc) as (url & h & -> & Hh).
  exists url, h. split; [done|]. split; [done|].
  destruct (split_last_sep "#" url h Hh) as [Hlast Hinit].
  split; [|split].
  - intros url0 h0 E Hh0.
    destruct (split_last_sep "#" url0 h0 Hh0) as [Hlast0 Hinit0].
    rewrite <- E, Hlast in Hlast0. rewrite <- E, Hinit in Hinit0.
    split; [|done].
    by rewrite <- (join_split "#" url0), <- Hinit0, join_split.
  - unfold User.get_immutable_hash_from_txt. rewrite Hc, Hlast. cbn [negb].
    by destruct (is_valid_hash h).
  - unfold User.get_immutable_url_from_txt. rewrite Hc, Hinit. cbn [negb].
    by rewrite join_split.
Qed.

End Claims.

Lemma put_mutable_data_info_stale_witness :
  Sample.put_mutable_data_info Sample.data_info_photo_v1 "photo" 1
    {[ Sample.photo_v1 := ["https://b.example/photo"] ]}
  = Ok (false, Sample.data_info_photo_v1) /\
  exists d, data Sample.data_info_photo_v1 = Some d /\
            d !! Sample.photo_v1 = Some ["https://a.example/photo"] /\
            Sample.unpack_mutable_data_md Sample.photo_v1 = Ok ("photo", 1%Z).
Proof.
  apply (put_mutable_data_info_stale Sample.any_data_info
           Sample.mutable_data_md_pattern Sample.b64decode Sample.dict_keys
           Sample.data_info_photo_v1 "photo" ["https://a.example/photo"] 1
           Sample.photo_v1 1).
  - vm_compute. reflexivity.
  - lia.
Defined.

Lemma put_mutable_data_info_newer_witness :
  Sample.put_mutable_data_info Sample.data_info_photo_v1 "photo" 2
    {[ Sample.photo_v2 := ["https://b.example/photo"] ]}
  = Ok (true,
        {| data := Some (<[Sample.photo_v2 := ["https://b.example/photo"]]>
                           (delete Sample.photo_v1
                              {[ Sample.photo_v1 := ["https://a.example/photo"] ]}));
           udi_other := tt |}).
Proof.
  apply (put_mutable_data_info_newer Sample.any_data_info
           Sample.mutable_data_md_pattern Sample.b64encode Sample.b64decode
           Sample.dict_keys Sample.data_info_photo_v1
           {[ Sample.photo_v1 := ["https://a.example/photo"] ]}
           "photo" ["https://a.example/photo"] 1 Sample.photo_v1 2
           ["https://b.example/photo"]).
  - reflexivity.
  - vm_compute. reflexivity.
  - intros md0 v0 [x Hx] _ _. by apply lookup_singleton_Some in Hx as [<- _].
  - lia.
  - vm_compute. reflexivity.
  - vm_compute. reflexivity.
  - vm_compute. reflexivity.
Defined.

Lemma put_immutable_data_zonefile_existing_witness :
  Sample.put_immutable_data_zonefile Sample.zonefile_avatar "avatar" Sample.hash1 None
  = Ok (true, Sample.zonefile_avatar) /\
  Sample.put_immutable_data_zonefile Sample.zonefile_avatar "avatar" Sample.hash2 None
  = Ok (false, Sample.zonefile_avatar).
Proof.
  split.
  - apply (put_immutable_data_zonefile_existing Sample.is_valid_hash
             Sample.any_zonefile Sample.zonefile_avatar "avatar"
             Sample.hash1 Sample.hash1 None); reflexivity.
  - apply (put_immutable_data_zonefile_existing Sample.is_valid_hash
             Sample.any_zonefile Sample.zonefile_avatar "avatar"
             Sample.hash1 Sample.hash2 None); try reflexivity.
    vm_compute. discriminate.
Defined.

Lemma immutable_txt_last_hash_witness :
  get_immutable_hash_from_txt Sample.is_valid_hash
    ("https://a.example/#top" +:+ String "#" Sample.hash1) = Some Sample.hash1 /\
  get_immutable_url_from_txt ("https://a.example/#top" +:+ String "#" Sample.hash1)
  = Some "https://a.example/#top".
Proof.
  destruct (immutable_txt_last_hash Sample.is_valid_hash
              ("https://a.example/#top" +:+ String "#" Sample.hash1) eq_refl)
    as (url & h & _ & _ & Huniq & -> & ->).
  destruct (Huniq "https://a.example/#top" Sample.hash1 eq_refl eq_refl)
    as [<- <-].
  split; reflexivity.
Defined.

(** C8 as stated fails: on a record without a URL, ["#" + hash],
    [get_immutable_url_from_txt] returns [None], not the empty string that
    precedes the ["#"]. *)
Lemma immutable_url_empty_is_None :
  "#abc" = "" +:+ String "#" "abc" /\ contains "#" "abc" = false /\
  get_immutable_url_from_txt "#abc" = None /\
  get_immutable_url_from_txt "#abc" <> Some "".
Proof. repeat split; done. Qed.

End UserSpec.

(** ** More facts about the codec *)

Module CodecMoreFacts.
Import PyFacts NamespaceReveal NamespaceRevealFacts.

Lemma str_take_drop (n : nat) (s : string) : str_take n s +:+ str_drop n s = s.
Proof.
  revert n. induction s as [|c s IH]; intros [|n]; try reflexivity.
  cbn [str_take str_drop]. by rewrite str_app_cons, IH.
Qed.

Lemma str_length_take_le (n : nat) (s : string) :
  n <= String.length s -> String.length (str_take n s) = n.
Proof. intros H. rewrite str_length_take. lia. Qed.

Lemma str_drop_drop (n m : nat) (s : string) :
  str_drop n (str_drop m s) = str_drop (m + n) s.
Proof.
  revert m. induction s as [|c s IH]; intros [|m]; try reflexivity.
  - by destruct n.
  - cbn [str_drop Nat.add]. apply IH.
Qed.

(** A payload of at least 17 bytes is its four fields and its tail. *)
Lemma payload_fields (p : string) :
  17 <= String.length p ->
  p = slice 0 4 p +:+ slice 4 11 p +:+ slice 11 15 p +:+ slice 15 17 p +:+
      slice_from 17 p /\
  String.length (slice 0 4 p) = 4 /\ String.length (slice 4 11 p) = 7 /\
  String.length (slice 11 15 p) = 4 /\ String.length (slice 15 17 p) = 2.
Proof.
  intros H. unfold slice, slice_from. cbn [Nat.sub].
  change (str_drop 0 p) with p.
  split.
  - rewrite <- (str_take_drop 4 p) at 1. f_equal.
    rewrite <- (str_take_drop 7 (str_drop 4 p)) at 1. f_equal.
    rewrite str_drop_drop. cbn [Nat.add].
    rewrite <- (str_take_drop 4 (str_drop 11 p)) at 1. f_equal.
    rewrite str_drop_drop. cbn [Nat.add].
    rewrite <- (str_take_drop 2 (str_drop 15 p)) at 1. f_equal.
    by rewrite str_drop_drop.
  - rewrite !str_length_take, !length_str_drop. lia.
Qed.

(** *** The number of a byte string *)

Lemma int16_acc_hexlify_value (s : string) (acc : Z) :
  int16_acc acc (hexlify s) = Ok (be_value_acc acc s).
Proof.
  revert acc. induction s as [|c s IH]; intros acc; [reflexivity|].
  cbn [hexlify be_value_acc]. unfold hexlify_byte.
  rewrite !str_app_cons, str_app_nil_l.
  pose proof (byte_value_bound c) as Hc.
  cbn [int16_acc]. rewrite !hex_value_digit.
  - rewrite IH. do 2 f_equal.
    pose proof (Z.div_mod (byte_value c) 16). lia.
  - apply Z.mod_pos_bound. lia.
  - split; [apply Z.div_pos; lia|apply Z.div_lt_upper_bound; lia].
Qed.

Lemma int16_hexlify_value (s : string) :
  s <> "" -> int16 (hexlify s) = Ok (be_value s).
Proof.
  destruct s as [|c s]; [done|]. intros _.
  unfold be_value. rewrite <- int16_acc_hexlify_value. reflexivity.
Qed.

Lemma be_value_acc_split (s : string) (acc : Z) :
  be_value_acc acc s = (acc * 256 ^ Z.of_nat (String.length s) + be_value s)%Z.
Proof.
  unfold be_value. revert acc. induction s as [|c s IH]; intros acc.
  - cbn. lia.
  - cbn [be_value_acc String.length]. rewrite IH, (IH (256 * 0 + byte_value c)%Z).
    rewrite Nat2Z.inj_succ, Z.pow_succ_r by lia. lia.
Qed.

Lemma be_value_bound (s : string) :
  (0 <= be_value s < 256 ^ Z.of_nat (String.length s))%Z.
Proof.
  induction s as [|c s IH]; [cbn; lia|].
  unfold be_value. cbn [be_value_acc String.length].
  rewrite be_value_acc_split, Nat2Z.inj_succ, Z.pow_succ_r by lia.
  pose proof (byte_value_bound c).
  assert (0 < 256 ^ Z.of_nat (String.length s))%Z by (apply Z.pow_pos_nonneg; lia).
  nia.
Qed.

Lemma be_value_snoc (s : string) (c : ascii) :
  be_value (s +:+ String c "") = (256 * be_value s + byte_value c)%Z.
Proof.
  unfold be_value. generalize 0%Z. induction s as [|a s IH]; intros acc.
  - reflexivity.
  - rewrite str_app_cons. cbn [be_value_acc]. apply IH.
Qed.

Lemma str_snoc_inv (s : string) (w : nat) :
  String.length s = S w ->
  exists s' c, s = s' +:+ String c "" /\ String.length s' = w.
Proof.
  revert s. induction w as [|w IH]; intros [|a s] H; try done.
  - destruct s; [|done]. by exists "", a.
  - cbn [String.length] in H.
    destruct (IH s) as (s' & c & -> & Hlen); [lia|].
    exists (String a s'), c. split; [by rewrite str_app_cons|]. cbn. lia.
Qed.

(** The bytes of the number of a byte string are the byte string. *)
Lemma be_bytes_be_value (s : string) (w : nat) :
  String.length s = w -> be_bytes w (be_value s) = s.
Proof.
  revert s. induction w as [|w IH]; intros s H.
  - by destruct s.
  - destruct (str_snoc_inv s w H) as (s' & c & -> & Hlen).
    cbn [be_bytes]. rewrite be_value_snoc.
    pose proof (byte_value_bound c) as Hc.
    replace ((256 * be_value s' + byte_value c) / 256)%Z with (be_value s').
    2:{ apply Z.div_unique with (r := byte_value c); lia. }
    replace ((256 * be_value s' + byte_value c) mod 256)%Z with (byte_value c).
    2:{ apply Z.mod_unique with (q := be_value s'); lia. }
    by rewrite IH, of_byte_value.
Qed.

(** *** The float of a 32-bit fixed-point value *)

Lemma namespace_decay_to_float_range (fp : Z) :
  (0 <= fp < 2 ^ 32)%Z ->
  (0 <= namespace_decay_to_float fp)%Q /\
  (Qfloor (namespace_decay_to_float fp) <= 255)%Z /\
  Qfloor (namespace_decay_to_float fp * inject_Z 16777216) = fp.
Proof.
  intros Hfp. pose proof (namespace_decay_to_float_div fp ltac:(lia)) as E.
  split; [|split].
  - rewrite E. apply Qle_shift_div_l; [done|]. rewrite Qmult_0_l.
    change 0%Q with (inject_Z 0). rewrite <- Zle_Qle. lia.
  - rewrite E, Qfloor_div by lia.
    assert (fp / 16777216 < 256)%Z by (apply Z.div_lt_upper_bound; lia). lia.
  - rewrite E.
    assert (E' : (inject_Z fp / inject_Z 16777216 * inject_Z 16777216 == inject_Z fp)%Q).
    { change (inject_Z 16777216) with (16777216 # 1)%Q. field. }
    rewrite E'. apply Qfloor_Z.
Qed.


(** *** When [build] returns *)

Section BuildFacts.

Context {Address : Type}.
Variable is_b40 : string -> bool.
Variable MAGIC_BYTES : bool -> ascii * ascii.
Variable NAMESPACE_REVEAL : ascii.

Lemma namespace_decay_to_fixpoint_Some (x : Q) (fp : Z) :
  namespace_decay_to_fixpoint x = Some fp ->
  (0 <= x)%Q /\ (int_of_float x <= 255)%Z /\ (Qfloor x <= 255)%Z /\
  fp = Qfloor (x * inject_Z 16777216).
Proof.
  intros E.
  assert (Hnone : namespace_decay_to_fixpoint x <> None) by congruence.
  rewrite namespace_decay_to_fixpoint_None in Hnone.
  assert (H0 : (0 <= x)%Q) by (apply Qnot_lt_le; tauto).
  assert (H255 : (int_of_float x <= 255)%Z) by lia.
  split; [done|]. split; [done|].
  rewrite int_of_float_floor in H255 by done. split; [done|].
  rewrite namespace_decay_to_fixpoint_floor in E by done. congruence.
Qed.

Lemma build_Ok_inv (namespace_id : string) (version : Z) (reveal_addr : Address)
    (lifetime satoshi_cost : Z) (price_decay_rate : Q) (testset : bool)
    (script : string) :
  build is_b40 MAGIC_BYTES NAMESPACE_REVEAL namespace_id version reveal_addr lifetime
        satoshi_cost price_decay_rate testset = Ok script ->
  is_b40 namespace_id = true /\ contains "+" namespace_id = false /\
  contains "." namespace_id = false /\ String.length namespace_id <= 19 /\
  (0 <= price_decay_rate)%Q /\ (int_of_float price_decay_rate <= 255)%Z /\
  (0 <= satoshi_cost < 2 ^ 56)%Z /\ (- 2 ^ 16 <= version < 2 ^ 16)%Z.
Proof.
  unfold build. rewrite (proj1 (count_pos_contains "." namespace_id)).
  destruct (is_b40 namespace_id); cbn [negb orb]; [|done].
  destruct (contains "+" namespace_id); cbn [orb]; [done|].
  destruct (contains "." namespace_id); [done|].
  cbn [LENGTHS]. destruct (Nat.ltb_spec 19 (String.length namespace_id)); [done|].
  destruct (namespace_decay_to_fixpoint price_decay_rate) as [fp|] eqn:Hfp; [|done].
  apply namespace_decay_to_fixpoint_Some in Hfp as (Hr0 & Hr255 & _ & _).
  destruct (Z.ltb_spec satoshi_cost 0); cbn [orb]; [done|].
  destruct (Z.gtb_spec satoshi_cost (2 ^ 64 - 1)); [done|].
  destruct (_ || _); [done|].
  fold (coerce_lifetime lifetime).
  destruct (serialize_int (coerce_lifetime lifetime) 4) as [life_hex|];
    cbn [mbind result_bind]; [|done].
  destruct (serialize_int satoshi_cost 7) as [cost_hex|] eqn:Hcost;
    cbn [mbind result_bind]; [|done].
  destruct (serialize_int fp 4) as [decay_hex|]; cbn [mbind result_bind]; [|done].
  destruct (serialize_int version 2) as [version_hex|] eqn:Hver;
    cbn [mbind result_bind]; [|done].
  intros _.
  assert (Hc : ~ raises (serialize_int satoshi_cost 7)).
  { intros [e He]. congruence. }
  assert (Hv : ~ raises (serialize_int version 2)).
  { intros [e He]. congruence. }
  rewrite serialize_int_raises_iff in Hc, Hv.
  change (7 * 8)%Z with 56%Z in Hc. change (2 * 8)%Z with 16%Z in Hv.
  repeat split; try done; lia.
Qed.

End BuildFacts.

End CodecMoreFacts.

(** ** Further properties of [namespacereveal.py] *)

Module NamespaceRevealMore.
Import PyFacts NamespaceReveal NamespaceRevealFacts CodecMoreFacts.

(** X1.  A value that is not negative and fits [numbytes] bytes is
    serialized to exactly [2 * numbytes] characters, and [int(..., 16)]
    reads the value back from them. *)
Theorem serialize_int_field (int_field numbytes : Z) :
  (1 <= numbytes)%Z -> (0 <= int_field < 2 ^ (numbytes * 8))%Z ->
  exists hex_str,
    serialize_int int_field numbytes = Ok hex_str /\
    Z.of_nat (String.length hex_str) = (2 * numbytes)%Z /\
    int16 hex_str = Ok int_field.
Proof.
  intros Hw Hv. eexists. split; [by apply serialize_int_ok|].
  rewrite length_hexlify, length_be_bytes. split; [lia|].
  apply int16_hexlify_be_bytes; [lia|].
  rewrite Z2Nat.id by lia. change 256%Z with (2 ^ 8)%Z.
  rewrite <- Z.pow_mul_r by lia. by rewrite (Z.mul_comm 8).
Qed.

Lemma serialize_int_field_witness :
  exists hex_str,
    serialize_int 1 2 = Ok hex_str /\
    Z.of_nat (String.length hex_str) = (2 * 2)%Z /\
    int16 hex_str = Ok 1%Z.
Proof. apply (serialize_int_field 1 2); lia. Defined.


(** X3.  A rate that is not negative and has an integer part of at most
    255 has a fixed-point value, and the float of that value is the rate
    rounded down by less than [2^-24]. *)
Theorem decay_encode_decode (rate : Q) :
  (0 <= rate)%Q -> (int_of_float rate <= 255)%Z ->
  exists fixpoint,
    namespace_decay_to_fixpoint rate = Some fixpoint /\
    (namespace_decay_to_float fixpoint <= rate)%Q /\
    (rate - (1 # 16777216) < namespace_decay_to_float fixpoint)%Q.
Proof.
  intros H0 H255. rewrite int_of_float_floor in H255 by done.
  eexists. split; [by apply namespace_decay_to_fixpoint_floor|].
  destruct (fixpoint_floor_range _ H0 H255) as [Hfp0 _].
  set (fp := Qfloor (rate * inject_Z 16777216)) in *.
  pose proof (namespace_decay_to_float_div fp Hfp0) as Hdec.
  pose proof (Qfloor_le (rate * inject_Z 16777216)) as Hlo.
  pose proof (Qlt_floor (rate * inject_Z 16777216)) as Hhi.
  fold fp in Hlo, Hhi. rewrite inject_Z_plus in Hhi.
  change (inject_Z 1) with 1%Q in Hhi.
  assert (Hdec' : (namespace_decay_to_float fp * (16777216 # 1) == inject_Z fp)%Q).
  { rewrite Hdec. change (inject_Z 16777216) with (16777216 # 1)%Q. field. }
  change (inject_Z 16777216) with (16777216 # 1)%Q in *.
  split; lra.
Qed.

Lemma decay_encode_decode_witness :
  exists fixpoint,
    namespace_decay_to_fixpoint (33554433 # 33554432) = Some fixpoint /\
    (namespace_decay_to_float fixpoint <= 33554433 # 33554432)%Q /\
    ((33554433 # 33554432) - (1 # 16777216) < namespace_decay_to_float fixpoint)%Q.
Proof. apply (decay_encode_decode (33554433 # 33554432)); by vm_compute. Defined.

(** X4.  Every fixed-point value of 32 bits is the fixed-point value of
    its float: decoding and then encoding gives the value back. *)
Theorem decay_decode_encode (fixpoint : Z) :
  (0 <= fixpoint < 2 ^ 32)%Z ->
  namespace_decay_to_fixpoint (namespace_decay_to_float fixpoint) = Some fixpoint.
Proof.
  intros Hfp. destruct (namespace_decay_to_float_range fixpoint Hfp) as (H0 & H255 & E).
  rewrite namespace_decay_to_fixpoint_floor by done. by rewrite E.
Qed.

Lemma decay_decode_encode_witness :
  namespace_decay_to_fixpoint (namespace_decay_to_float 0xfffffffe) = Some 0xfffffffe%Z.
Proof. apply (decay_decode_encode 0xfffffffe). lia. Defined.

(** X5.  On the fixed-point values of 32 bits,
    [namespace_decay_to_float] is strictly increasing: two wire values are
    never decoded to the same rate. *)
Theorem namespace_decay_to_float_increasing (fp1 fp2 : Z) :
  (0 <= fp1 < fp2)%Z -> (fp2 < 2 ^ 32)%Z ->
  (namespace_decay_to_float fp1 < namespace_decay_to_float fp2)%Q.
Proof.
  intros H _. rewrite !namespace_decay_to_float_div by lia.
  apply Qlt_shift_div_l; [done|].
  assert (E : (inject_Z fp1 / inject_Z 16777216 * inject_Z 16777216 == inject_Z fp1)%Q).
  { change (inject_Z 16777216) with (16777216 # 1)%Q. field. }
  rewrite E, <- Zlt_Qlt. lia.
Qed.

Lemma namespace_decay_to_float_increasing_witness :
  (namespace_decay_to_float 41943040 < namespace_decay_to_float 41943041)%Q.
Proof. apply (namespace_decay_to_float_increasing 41943040 41943041); lia. Defined.

(** X6.  [namespace_decay_to_fixpoint] keeps the order of the rates it
    accepts. *)
Theorem namespace_decay_to_fixpoint_monotone (rate1 rate2 : Q) (fp1 fp2 : Z) :
  (rate1 <= rate2)%Q ->
  namespace_decay_to_fixpoint rate1 = Some fp1 ->
  namespace_decay_to_fixpoint rate2 = Some fp2 ->
  (fp1 <= fp2)%Z.
Proof.
  intros Hle H1 H2.
  apply namespace_decay_to_fixpoint_Some in H1 as (_ & _ & _ & ->).
  apply namespace_decay_to_fixpoint_Some in H2 as (_ & _ & _ & ->).
  apply Qfloor_resp_le.
  change (inject_Z 16777216) with (16777216 # 1)%Q. lra.
Qed.

Lemma namespace_decay_to_fixpoint_monotone_witness : (16777216 <= 41943040)%Z.
Proof.
  apply (namespace_decay_to_fixpoint_monotone (33554433 # 33554432) (5 # 2));
    by vm_compute.
Defined.


Section BuildParse.

Context {Sender Address Hash : Type}.
Variable is_b40 : string -> bool.
Variable hash_name : string -> Sender -> Address -> Hash.
Variable MAGIC_BYTES : bool -> ascii * ascii.
Variable NAMESPACE_REVEAL : ascii.

(** X7.  [build] returns a script exactly when the namespace id passes
    both of its checks, the rate is not negative with an integer part of at
    most 255, the cost is on 56 bits and the version is in
    [-2^16, 2^16 - 1]; the lifetime never makes it fail. *)
Theorem build_returns_exactly (namespace_id : string) (version : Z)
    (reveal_addr : Address) (lifetime satoshi_cost : Z) (price_decay_rate : Q)
    (testset : bool) :
  (exists script,
     build is_b40 MAGIC_BYTES NAMESPACE_REVEAL namespace_id version reveal_addr
           lifetime satoshi_cost price_decay_rate testset = Ok script) <->
  (is_b40 namespace_id = true /\ contains "+" namespace_id = false /\
   contains "." namespace_id = false /\ String.length namespace_id <= 19 /\
   (0 <= price_decay_rate)%Q /\ (int_of_float price_decay_rate <= 255)%Z /\
   (0 <= satoshi_cost < 2 ^ 56)%Z /\ (- 2 ^ 16 <= version < 2 ^ 16)%Z).
Proof.
  split.
  - intros [script H]. by apply build_Ok_inv in H.
  - intros (Hb40 & Hplus & Hdot & Hlen & Hr0 & Hr255 & Hcost & Hver).
    rewrite int_of_float_floor in Hr255 by done.
    unfold build.
    rewrite Hb40, Hplus, (proj1 (count_pos_contains "." namespace_id)), Hdot.
    cbn [negb orb LENGTHS].
    destruct (Nat.ltb_spec 19 (String.length namespace_id)) as [|_]; [lia|].
    rewrite namespace_decay_to_fixpoint_floor by done.
    fold (coerce_lifetime lifetime).
    pose proof (coerce_lifetime_range lifetime) as Hlife.
    pose proof (fixpoint_floor_range _ Hr0 Hr255) as Hfp.
    set (fp := Qfloor (price_decay_rate * inject_Z 16777216)) in *.
    destruct (Z.ltb_spec satoshi_cost 0), (Z.gtb_spec satoshi_cost (2 ^ 64 - 1));
      try lia.
    destruct (Z.ltb_spec fp 0), (Z.gtb_spec fp (2 ^ 32 - 1)); try lia.
    cbn [orb].
    rewrite (serialize_int_ok (coerce_lifetime lifetime) 4),
      (serialize_int_ok satoshi_cost 7), (serialize_int_ok fp 4) by lia.
    cbn [mbind result_bind].
    destruct (serialize_int_returns version 2) as [h ->]; [lia|].
    cbn [mbind result_bind]. by eexists.
Qed.

(** X8.  The checks of [build] are made in order, and the first that fails
    decides the exception.  For a namespace id that passes: a rate that is
    negative or has an integer part above 255 gives "Invalid price decay
    rate", whatever the cost and the version; with a rate that passes, a
    cost below 0 or above [2^64 - 1] gives "Cost out of range", whatever the
    version; with a cost on 56 bits too, a version outside
    [-2^16, 2^16 - 1] gives "Integer overflow (2 bytes)". *)
Theorem build_first_violation (namespace_id : string) (version : Z)
    (reveal_addr : Address) (lifetime satoshi_cost : Z) (price_decay_rate : Q)
    (testset : bool) :
  is_b40 namespace_id = true -> contains "+" namespace_id = false ->
  contains "." namespace_id = false -> String.length namespace_id <= 19 ->
  let result :=
    build is_b40 MAGIC_BYTES NAMESPACE_REVEAL namespace_id version reveal_addr
          lifetime satoshi_cost price_decay_rate testset in
  ((price_decay_rate < 0)%Q \/ (255 < int_of_float price_decay_rate)%Z ->
   result = Raise (Exception (InvalidPriceDecay price_decay_rate))) /\
  ((0 <= price_decay_rate)%Q -> (int_of_float price_decay_rate <= 255)%Z ->
   (satoshi_cost < 0 \/ 2 ^ 64 - 1 < satoshi_cost)%Z ->
   result = Raise (Exception (CostOutOfRange satoshi_cost))) /\
  ((0 <= price_decay_rate)%Q -> (int_of_float price_decay_rate <= 255)%Z ->
   (0 <= satoshi_cost < 2 ^ 56)%Z ->
   (version < - 2 ^ 16 \/ 2 ^ 16 <= version)%Z ->
   result = Raise (Exception (IntegerOverflow 2))).
Proof.
  intros Hb40 Hplus Hdot Hlen result. subst result. unfold build.
  rewrite Hb40, Hplus, (proj1 (count_pos_contains "." namespace_id)), Hdot.
  cbn [negb orb LENGTHS].
  destruct (Nat.ltb_spec 19 (String.length namespace_id)) as [|_]; [lia|].
  split; [|split].
  - intros Hbad. apply namespace_decay_to_fixpoint_None in Hbad. by rewrite Hbad.
  - intros Hr0 Hr255 Hcost. rewrite int_of_float_floor in Hr255 by done.
    rewrite namespace_decay_to_fixpoint_floor by done.
    destruct (Z.ltb_spec satoshi_cost 0), (Z.gtb_spec satoshi_cost (2 ^ 64 - 1));
      try lia; done.
  - intros Hr0 Hr255 Hcost Hver. rewrite int_of_float_floor in Hr255 by done.
    rewrite namespace_decay_to_fixpoint_floor by done.
    fold (coerce_lifetime lifetime).
    pose proof (coerce_lifetime_range lifetime) as Hlife.
    pose proof (fixpoint_floor_range _ Hr0 Hr255) as Hfp.
    set (fp := Qfloor (price_decay_rate * inject_Z 16777216)) in *.
    destruct (Z.ltb_spec satoshi_cost 0), (Z.gtb_spec satoshi_cost (2 ^ 64 - 1));
      try lia.
    destruct (Z.ltb_spec fp 0), (Z.gtb_spec fp (2 ^ 32 - 1)); try lia.
    cbn [orb].
    rewrite (serialize_int_ok (coerce_lifetime lifetime) 4),
      (serialize_int_ok satoshi_cost 7), (serialize_int_ok fp 4) by lia.
    cbn [mbind result_bind].
    rewrite (serialize_int_overflow version 2) by (change (2 * 8)%Z with 16%Z; lia).
    reflexivity.
Qed.

(** X9.  A lifetime that is negative or above [2^32 - 1] is written as
    the "infinite" lifetime: [parse] reads [0xFFFFFFFF] back from what
    [build] returns. *)
Theorem build_parse_infinite_lifetime (namespace_id : string) (version : Z)
    (reveal_addr : Address) (lifetime satoshi_cost : Z) (price_decay_rate : Q)
    (testset : bool) (sender : Sender) (recipient : Address) :
  is_b40 namespace_id = true -> contains "+" namespace_id = false ->
  contains "." namespace_id = false -> String.length namespace_id <= 19 ->
  (0 <= version < 2 ^ 16)%Z -> (0 <= satoshi_cost < 2 ^ 56)%Z ->
  (0 <= price_decay_rate)%Q -> (int_of_float price_decay_rate <= 255)%Z ->
  (lifetime < 0 \/ 2 ^ 32 - 1 < lifetime)%Z ->
  exists packaged_script bin_payload op,
    build is_b40 MAGIC_BYTES NAMESPACE_REVEAL namespace_id version reveal_addr
          lifetime satoshi_cost price_decay_rate testset = Ok packaged_script /\
    strip_framing packaged_script = Ok bin_payload /\
    parse hash_name bin_payload sender recipient = Ok op /\
    NamespaceReveal.lifetime op = 0xffffffff%Z.
Proof.
  intros Hb40 Hplus Hdot Hlen Hver Hcost Hr0 Hr255 Hlife.
  rewrite int_of_float_floor in Hr255 by done.
  pose proof (fixpoint_floor_range _ Hr0 Hr255) as Hfp.
  assert (Hcoerce : coerce_lifetime lifetime = 0xffffffff%Z).
  { unfold coerce_lifetime, NAMESPACE_LIFE_INFINITE.
    destruct (Z.ltb_spec lifetime 0), (Z.gtb_spec lifetime (2 ^ 32 - 1));
      cbn [orb]; lia. }
  eexists _, _, _. split; [by apply build_ok|].
  split; [apply strip_framing_wire|]. rewrite Hcoerce.
  split; [apply parse_layout; lia|]. reflexivity.
Qed.

(** X10.  A script that [build] returns for a version that is not negative
    has 40 characters and two more for each character of the namespace id:
    the 20 bytes of the framing and the fixed fields, then the id; it is at
    most 78 characters, 39 bytes, long. *)
Theorem build_script_length (namespace_id : string) (version : Z)
    (reveal_addr : Address) (lifetime satoshi_cost : Z) (price_decay_rate : Q)
    (testset : bool) (script : string) :
  build is_b40 MAGIC_BYTES NAMESPACE_REVEAL namespace_id version reveal_addr
        lifetime satoshi_cost price_decay_rate testset = Ok script ->
  (0 <= version)%Z ->
  String.length script = 40 + 2 * String.length namespace_id /\
  String.length script <= 78.
Proof.
  intros Hbuild Hv0.
  destruct (build_Ok_inv _ _ _ _ _ _ _ _ _ _ _ Hbuild)
    as (Hb40 & Hplus & Hdot & Hlen & Hr0 & Hr255 & Hcost & Hver).
  rewrite int_of_float_floor in Hr255 by done.
  rewrite build_ok in Hbuild by (try done; lia).
  match type of Hbuild with Ok ?w = _ =>
    assert (E : script = w) by congruence end.
  clear Hbuild. subst script. rewrite length_hexlify. unfold wire.
  cbn [String.length]. rewrite !str_length_app, !length_be_bytes. lia.
Qed.

(** X11.  [parse] returns a record on every payload of at least 16 bytes,
    whatever the bytes are: the lifetime is on 32 bits, the cost on 56, the
    version on 16, the price decay is in [0, 256), the namespace id is what
    follows the 17th byte, not checked, and the hash is [hash_name] of
    it. *)
Theorem parse_returns (bin_payload : string) (sender : Sender)
    (recipient_address : Address) :
  16 <= String.length bin_payload ->
  exists op,
    parse hash_name bin_payload sender recipient_address = Ok op /\
    (0 <= NamespaceReveal.lifetime op < 2 ^ 32)%Z /\
    (0 <= cost op < 2 ^ 56)%Z /\
    (0 <= NamespaceReveal.version op < 2 ^ 16)%Z /\
    (0 <= price_decay op)%Q /\ (price_decay op < 256)%Q /\
    NamespaceReveal.namespace_id op = slice_from 17 bin_payload /\
    namespace_id_hash op
    = hash_name (slice_from 17 bin_payload) sender recipient_address.
Proof.
  intros Hlen. unfold parse. cbv zeta. cbn [LENGTHS Nat.add].
  assert (Hfield : forall lo hi, lo < 16 -> lo < hi ->
    int16 (hexlify (slice lo hi bin_payload)) = Ok (be_value (slice lo hi bin_payload)) /\
    (0 <= be_value (slice lo hi bin_payload) < 256 ^ Z.of_nat (hi - lo))%Z).
  { intros lo hi Hlo Hhi. split.
    - apply int16_hexlify_value, slice_nonempty; lia.
    - pose proof (be_value_bound (slice lo hi bin_payload)) as Hb.
      assert (Hl : String.length (slice lo hi bin_payload) <= hi - lo).
      { unfold slice. rewrite str_length_take. lia. }
      split; [lia|]. eapply Z.lt_le_trans; [apply Hb|].
      apply Z.pow_le_mono_r; lia. }
  destruct (Hfield 0 4) as [-> H1]; [lia..|].
  destruct (Hfield 4 11) as [-> H2]; [lia..|].
  destruct (Hfield 11 15) as [-> H3]; [lia..|].
  destruct (Hfield 15 17) as [-> H4]; [lia..|].
  cbn [mbind result_bind]. eexists. split; [reflexivity|].
  cbn [NamespaceReveal.lifetime cost NamespaceReveal.version price_decay
       NamespaceReveal.namespace_id namespace_id_hash].
  change (256 ^ Z.of_nat (4 - 0))%Z with (2 ^ 32)%Z in H1.
  change (256 ^ Z.of_nat (11 - 4))%Z with (2 ^ 56)%Z in H2.
  change (256 ^ Z.of_nat (15 - 11))%Z with (2 ^ 32)%Z in H3.
  change (256 ^ Z.of_nat (17 - 15))%Z with (2 ^ 16)%Z in H4.
  do 3 (split; [done|]).
  set (d := be_value (slice 11 15 bin_payload)) in *.
  destruct (namespace_decay_to_float_range d H3) as (H0 & _ & _).
  split; [done|]. split; [|done].
  rewrite namespace_decay_to_float_div by lia.
  apply Qlt_shift_div_r; [done|].
  change (256 * inject_Z 16777216)%Q with (inject_Z (2 ^ 32)).
  rewrite <- Zlt_Qlt. lia.
Qed.

(** X12.  What [parse] reads from a payload of at least 17 bytes whose
    tail is a namespace id that [build] accepts, [build] writes back: given
    the fields of the record, it returns the framing bytes followed by the
    payload, byte for byte. *)
Theorem parse_build_roundtrip_payload (bin_payload : string) (sender : Sender)
    (recipient_address reveal_addr : Address) (testset : bool) :
  17 <= String.length bin_payload ->
  is_b40 (slice_from 17 bin_payload) = true ->
  contains "+" (slice_from 17 bin_payload) = false ->
  contains "." (slice_from 17 bin_payload) = false ->
  String.length bin_payload <= 36 ->
  exists op,
    parse hash_name bin_payload sender recipient_address = Ok op /\
    build is_b40 MAGIC_BYTES NAMESPACE_REVEAL (NamespaceReveal.namespace_id op)
          (NamespaceReveal.version op) reveal_addr (NamespaceReveal.lifetime op)
          (cost op) (price_decay op) testset
    = Ok (hexlify (String (MAGIC_BYTES testset).1 (String (MAGIC_BYTES testset).2
                     (String NAMESPACE_REVEAL bin_payload)))).
Proof.
  intros Hlen Hb40 Hplus Hdot Hmax.
  destruct (payload_fields bin_payload Hlen) as (Hp & HL & HC & HD & HV).
  set (L := slice 0 4 bin_payload) in *. set (C := slice 4 11 bin_payload) in *.
  set (D := slice 11 15 bin_payload) in *. set (V := slice 15 17 bin_payload) in *.
  set (ns := slice_from 17 bin_payload) in *.
  pose proof (be_value_bound L) as HbL. pose proof (be_value_bound C) as HbC.
  pose proof (be_value_bound D) as HbD. pose proof (be_value_bound V) as HbV.
  rewrite HL in HbL. rewrite HC in HbC. rewrite HD in HbD. rewrite HV in HbV.
  change (256 ^ Z.of_nat 4)%Z with (2 ^ 32)%Z in *.
  change (256 ^ Z.of_nat 7)%Z with (2 ^ 56)%Z in *.
  change (256 ^ Z.of_nat 2)%Z with (2 ^ 16)%Z in *.
  assert (Hns : String.length ns <= 19).
  { unfold ns, slice_from. rewrite length_str_drop. lia. }
  assert (Hwire : bin_payload
    = be_bytes 4 (be_value L) +:+ be_bytes 7 (be_value C) +:+
      be_bytes 4 (be_value D) +:+ be_bytes 2 (be_value V) +:+ ns).
  { by rewrite !be_bytes_be_value. }
  eexists. split.
  - rewrite Hwire at 1. apply parse_layout; lia.
  - cbn [NamespaceReveal.lifetime cost NamespaceReveal.version price_decay
         NamespaceReveal.namespace_id].
    destruct (namespace_decay_to_float_range (be_value D) HbD) as (H0 & H255 & E).
    rewrite build_ok by (try done; lia).
    do 2 f_equal. unfold wire. do 3 f_equal.
    rewrite E.
    assert (Hlife : coerce_lifetime (be_value L) = be_value L).
    { unfold coerce_lifetime.
      destruct (Z.ltb_spec (be_value L) 0),
        (Z.gtb_spec (be_value L) (2 ^ 32 - 1)); cbn [orb]; lia. }
    rewrite Hlife. symmetry. exact Hwire.
Qed.

End BuildParse.

Lemma build_first_violation_witness :
  build sample_is_b40 sample_magic sample_opcode "id" (-70000) "1reveal" 52595
        (-1) (300 # 1) false
  = Raise (Exception (InvalidPriceDecay (300 # 1))) /\
  build sample_is_b40 sample_magic sample_opcode "id" (-70000) "1reveal" 52595
        (-1) (5 # 2) false
  = Raise (Exception (CostOutOfRange (-1))) /\
  build sample_is_b40 sample_magic sample_opcode "id" (-70000) "1reveal" 52595
        6400000 (5 # 2) false
  = Raise (Exception (IntegerOverflow 2)).
Proof.
  split; [|split].
  - apply (build_first_violation sample_is_b40 sample_magic sample_opcode
             "id" (-70000) "1reveal" 52595 (-1) (300 # 1) false);
      try reflexivity; try (simpl; lia).
    right. vm_compute. reflexivity.
  - apply (build_first_violation sample_is_b40 sample_magic sample_opcode
             "id" (-70000) "1reveal" 52595 (-1) (5 # 2) false);
      try reflexivity; try (simpl; lia); try (vm_compute; discriminate).
  - apply (build_first_violation sample_is_b40 sample_magic sample_opcode
             "id" (-70000) "1reveal" 52595 6400000 (5 # 2) false);
      try reflexivity; try (simpl; lia); try (vm_compute; discriminate).
Defined.

Lemma build_parse_infinite_lifetime_witness :
  exists packaged_script bin_payload op,
    build sample_is_b40 sample_magic sample_opcode "id" 1 "1reveal" (-1) 6400000
          (5 # 2) false = Ok packaged_script /\
    strip_framing packaged_script = Ok bin_payload /\
    parse sample_hash_name bin_payload "sender" "1reveal" = Ok op /\
    NamespaceReveal.lifetime op = 0xffffffff%Z.
Proof.
  apply (build_parse_infinite_lifetime sample_is_b40 sample_hash_name sample_magic
           sample_opcode "id" 1 "1reveal" (-1) 6400000 (5 # 2) false
           "sender" "1reveal");
    try reflexivity; try (simpl; lia); try (vm_compute; discriminate).
Defined.

Lemma build_script_length_witness :
  exists script,
    build sample_is_b40 sample_magic sample_opcode "id" 1 "1reveal" 52595 6400000
          (5 # 2) false = Ok script /\
    String.length script = 44 /\ String.length script <= 78.
Proof.
  eexists. split; [reflexivity|].
  apply (build_script_length sample_is_b40 sample_magic sample_opcode "id" 1
           "1reveal" 52595 6400000 (5 # 2) false); [reflexivity|lia].
Defined.

Lemma parse_returns_witness :
  exists op,
    parse sample_hash_name "0123456789abcdef" "sender" "1reveal" = Ok op /\
    (0 <= NamespaceReveal.lifetime op < 2 ^ 32)%Z /\
    (0 <= cost op < 2 ^ 56)%Z /\
    (0 <= NamespaceReveal.version op < 2 ^ 16)%Z /\
    (0 <= price_decay op)%Q /\ (price_decay op < 256)%Q /\
    NamespaceReveal.namespace_id op = "" /\
    namespace_id_hash op = sample_hash_name "" "sender" "1reveal".
Proof.
  apply (parse_returns sample_hash_name "0123456789abcdef" "sender" "1reveal").
  simpl. lia.
Defined.

Lemma parse_build_roundtrip_payload_witness :
  exists op,
    parse sample_hash_name "0123456789abcdefgid" "sender" "1reveal" = Ok op /\
    build sample_is_b40 sample_magic sample_opcode (NamespaceReveal.namespace_id op)
          (NamespaceReveal.version op) "1reveal" (NamespaceReveal.lifetime op)
          (cost op) (price_decay op) false
    = Ok (hexlify "id&0123456789abcdefgid").
Proof.
  apply (parse_build_roundtrip_payload sample_is_b40 sample_hash_name sample_magic
           sample_opcode "0123456789abcdefgid" "sender" "1reveal" "1reveal" false);
    try reflexivity; simpl; lia.
Defined.

End NamespaceRevealMore.

(** ** More facts about [user.py] *)

Module UserMoreFacts.
Import PyFacts User UserFacts.

(** *** Strings *)

Lemma str_app_inv_tail (a b c : string) : a +:+ c = b +:+ c -> a = b.
Proof.
  revert b. induction a as [|x a IH]; intros [|y b] H.
  - reflexivity.
  - apply (f_equal String.length) in H.
    rewrite str_app_cons in H. cbn [String.length] in H.
    rewrite str_app_nil_l, str_length_app in H. lia.
  - apply (f_equal String.length) in H.
    rewrite str_app_cons in H. cbn [String.length] in H.
    rewrite str_app_nil_l, str_length_app in H. lia.
  - rewrite !str_app_cons in H. injection H as -> H. f_equal. by apply IH.
Qed.

Lemma replace_char_app (c : ascii) (new a b : string) :
  replace_char c new (a +:+ b) = replace_char c new a +:+ replace_char c new b.
Proof.
  induction a as [|x a IH]; [by rewrite !str_app_nil_l|].
  rewrite str_app_cons. cbn [replace_char]. rewrite IH.
  destruct (Ascii.eqb x c); [by rewrite str_app_assoc|by rewrite str_app_cons].
Qed.

Lemma contains_replace_char (c : ascii) (new s : string) :
  contains c new = false -> contains c (replace_char c new s) = false.
Proof.
  intros Hnew. induction s as [|x s IH]; [done|]. cbn [replace_char].
  destruct (Ascii.eqb x c) eqn:Hx.
  - by rewrite contains_app, Hnew, IH.
  - cbn [contains]. rewrite IH, orb_false_r. by rewrite Ascii.eqb_sym.
Qed.


Lemma startswith_nil (s : string) : startswith s "" = true.
Proof. by destruct s. Qed.

Lemma startswith_cons (a b : ascii) (s p : string) :
  startswith (String b s) (String a p)
  = if Ascii.eqb a b then startswith s p else false.
Proof.
  unfold startswith. cbn [String.prefix].
  destruct (ascii_dec a b) as [->|Hne].
  - by rewrite Ascii.eqb_refl.
  - by apply Ascii.eqb_neq in Hne as ->.
Qed.

Lemma startswith_app_same (a s p : string) :
  startswith (a +:+ s) (a +:+ p) = startswith s p.
Proof.
  induction a as [|c a IH]; [done|].
  by rewrite !str_app_cons, startswith_cons, Ascii.eqb_refl.
Qed.

Lemma startswith_app (p s : string) : startswith (p +:+ s) p = true.
Proof.
  rewrite <- (str_app_nil_r p) at 2. rewrite startswith_app_same.
  apply startswith_nil.
Qed.

(** Two fields that end at their first separator, one a prefix of the
    other, are the same field. *)
Lemma startswith_field (sep : ascii) (e e0 s : string) :
  contains sep e = false -> contains sep e0 = false ->
  startswith (e0 +:+ String sep s) (e +:+ String sep "") = true -> e = e0.
Proof.
  revert e0. induction e as [|c e IH]; intros [|c0 e0]; cbn [contains];
    rewrite ?str_app_cons, ?str_app_nil_l, ?startswith_cons.
  - done.
  - intros _ [Hc _]%orb_false_elim. by rewrite Hc.
  - intros [Hc _]%orb_false_elim _. rewrite Ascii.eqb_sym in Hc. by rewrite Hc.
  - intros [_ He]%orb_false_elim [_ He0]%orb_false_elim.
    destruct (Ascii.eqb_spec c c0) as [->|]; [|done].
    intros H. f_equal. by apply IH.
Qed.

Lemma replace_slash_inj (s1 s2 : string) :
  contains "\" s1 = false -> contains "\" s2 = false ->
  replace_char "/" "\x2f" s1 = replace_char "/" "\x2f" s2 -> s1 = s2.
Proof.
  revert s2. induction s1 as [|a s1 IH]; intros [|b s2]; cbn [contains replace_char].
  - done.
  - intros _ _. by destruct (Ascii.eqb b "/").
  - intros _ _. by destruct (Ascii.eqb a "/").
  - intros H1 H2. apply orb_false_elim in H1 as [Ha H1].
    apply orb_false_elim in H2 as [Hb H2].
    destruct (Ascii.eqb_spec a "/") as [->|Hna], (Ascii.eqb_spec b "/") as [->|Hnb].
    + rewrite !str_app_cons, !str_app_nil_l. intros [= E]. f_equal. by apply IH.
    + rewrite !str_app_cons. intros [= <- _]. done.
    + rewrite !str_app_cons. intros [= -> _]. done.
    + intros [= -> E]. f_equal. by apply IH.
Qed.

(** *** The immutable data registry *)

Section ImmutableFacts.

Context {Other : Type}.
Variable is_valid_hash : string -> bool.
Variable USER_ZONEFILE_SCHEMA : user_zonefile Other -> bool.

Local Abbreviation checked_hash := (checked_hash is_valid_hash).
Local Abbreviation entries := (list_immutable_data_loop is_valid_hash).
Local Abbreviation has_loop := (has_immutable_data_loop is_valid_hash).
Local Abbreviation has_id_loop := (has_immutable_data_id_loop is_valid_hash).
Local Abbreviation remove_loop := (remove_immutable_data_zonefile_loop is_valid_hash).
Local Abbreviation url_loop := (get_immutable_data_url_loop is_valid_hash).
Local Abbreviation step := (get_immutable_data_hash_step is_valid_hash).

Lemma checked_hash_valid (rec : txtrec) (h : string) :
  checked_hash rec = Some h -> is_valid_hash h = true.
Proof.
  unfold User.checked_hash. destruct (get_immutable_hash_from_txt _ _); [|done].
  destruct (is_valid_hash s) eqn:E; [|done]. by intros [= <-].
Qed.

(** The record [put_immutable_data_zonefile] writes carries its hash and
    its URL. *)
Lemma checked_hash_written (data_id url h : string) :
  is_valid_hash h = true -> contains "#" h = false ->
  checked_hash {| name := data_id; txt := url +:+ String "#" h |} = Some h.
Proof.
  intros Hv Hh. unfold User.checked_hash, get_immutable_hash_from_txt. cbn [txt].
  rewrite contains_app. cbn [contains]. rewrite Ascii.eqb_refl, orb_true_r.
  cbn [negb]. destruct (split_last_sep "#" url h Hh) as [-> _].
  rewrite Hv. cbn [negb]. by rewrite Hv.
Qed.

Lemma get_immutable_url_written (url h : string) :
  contains "#" h = false ->
  get_immutable_url_from_txt (url +:+ String "#" h)
  = match url with EmptyString => None | _ => Some url end.
Proof.
  intros Hh. unfold get_immutable_url_from_txt.
  rewrite contains_app. cbn [contains]. rewrite Ascii.eqb_refl, orb_true_r.
  cbn [negb]. destruct (split_last_sep "#" url h Hh) as [_ ->].
  by rewrite join_split.
Qed.

Lemma entries_app (a b : list txtrec) : entries (a ++ b) = entries a ++ entries b.
Proof.
  induction a as [|r a IH]; [done|]. cbn [app list_immutable_data_loop].
  destruct (checked_hash r); by rewrite IH.
Qed.

Lemma has_loop_entries (h : string) (recs : list txtrec) :
  has_loop h recs = bool_decide (h ∈ (entries recs).*2).
Proof.
  induction recs as [|r recs IH]; [done|].
  cbn [has_immutable_data_loop list_immutable_data_loop].
  destruct (checked_hash r) as [h'|]; [|done]. cbn [fmap list_fmap snd].
  destruct (String.eqb_spec h h') as [->|Hne].
  - symmetry. apply bool_decide_eq_true. by left.
  - rewrite IH. apply bool_decide_ext. rewrite elem_of_cons.
    split; [by right|by intros [?|?]].
Qed.

Lemma has_id_loop_entries (data_id : string) (recs : list txtrec) :
  has_id_loop data_id recs = bool_decide (data_id ∈ (entries recs).*1).
Proof.
  induction recs as [|r recs IH]; [done|].
  cbn [has_immutable_data_id_loop list_immutable_data_loop].
  destruct (checked_hash r) as [h'|]; [|done]. cbn [fmap list_fmap fst].
  destruct (String.eqb_spec data_id (name r)) as [->|Hne].
  - symmetry. apply bool_decide_eq_true. by left.
  - rewrite IH. apply bool_decide_ext. rewrite elem_of_cons.
    split; [by right|by intros [?|?]].
Qed.

Lemma has_loop_app (h : string) (a b : list txtrec) :
  has_loop h (a ++ b) = has_loop h a || has_loop h b.
Proof.
  induction a as [|r a IH]; [done|]. cbn [app has_immutable_data_loop].
  destruct (checked_hash r) as [h'|]; [|done]. by destruct (String.eqb h h').
Qed.

Lemma has_id_loop_app (data_id : string) (a b : list txtrec) :
  has_id_loop data_id (a ++ b) = has_id_loop data_id a || has_id_loop data_id b.
Proof.
  induction a as [|r a IH]; [done|]. cbn [app has_immutable_data_id_loop].
  destruct (checked_hash r) as [h'|]; [|done].
  by destruct (String.eqb data_id (name r)).
Qed.

Lemma entries_valid (recs : list txtrec) (p : string * string) :
  p ∈ entries recs -> is_valid_hash p.2 = true.
Proof.
  induction recs as [|r recs IH]; cbn [list_immutable_data_loop].
  - by intros ?%elem_of_nil.
  - destruct (checked_hash r) as [h|] eqn:E; [|done].
    intros [->|?]%elem_of_cons; [|by apply IH]. by apply checked_hash_valid in E.
Qed.

Local Abbreviation collect hs :=
  (match hs%list with nil => NoHash | cons h nil => OneHash h | _ => ManyHashes hs%list end).

(** The accumulator of [get_immutable_data_hash] holds the hashes listed
    for the data id so far. *)
Lemma fold_step_entries (data_id : string) (recs : list txtrec) (acc : list string) :
  fold_left (step data_id) recs (collect acc)
  = collect (acc ++ (filter (fun p => p.1 = data_id) (entries recs)).*2).
Proof.
  revert acc. induction recs as [|r recs IH]; intros acc.
  - cbn. by rewrite app_nil_r.
  - cbn [fold_left list_immutable_data_loop].
    unfold get_immutable_data_hash_step at 2. unfold User.checked_hash.
    destruct (String.eqb_spec data_id (name r)) as [E|Hne]; cbn [negb].
    + destruct (get_immutable_hash_from_txt is_valid_hash (txt r)) as [h|]; [|apply IH].
      destruct (is_valid_hash h); cbn [negb]; [|apply IH].
      rewrite filter_cons_True by done. cbn [fmap list_fmap snd].
      replace (acc ++ h :: (filter (fun p => p.1 = data_id) (entries recs)).*2)
        with ((acc ++ [h]) ++ (filter (fun p => p.1 = data_id) (entries recs)).*2)
        by (by rewrite <- app_assoc).
      rewrite <- IH. f_equal. by destruct acc as [|a [|b acc]].
    + destruct (get_immutable_hash_from_txt is_valid_hash (txt r)) as [h|]; [|apply IH].
      destruct (is_valid_hash h); [|apply IH].
      rewrite filter_cons_False by (cbn; congruence). apply IH.
Qed.

Lemma get_immutable_data_hash_entries (user_zonefile : user_zonefile Other)
    (data_id : string) :
  is_user_zonefile USER_ZONEFILE_SCHEMA user_zonefile = true ->
  get_immutable_data_hash is_valid_hash USER_ZONEFILE_SCHEMA user_zonefile data_id
  = Ok (collect ((filter (fun p => p.1 = data_id)
                    (entries (default [] (zf_txt user_zonefile)))).*2)).
Proof.
  intros Hzf. unfold User.get_immutable_data_hash. rewrite Hzf. cbn [negb].
  destruct (zf_txt user_zonefile) as [recs|]; [|done].
  f_equal. exact (fold_step_entries data_id recs []).
Qed.

(** The record at which [remove_immutable_data_zonefile] stops is the first
    that carries the hash, and [remove] takes that very record out. *)
Lemma remove_loop_first (h : string) (pre suf : list txtrec) (rec : txtrec) :
  has_loop h pre = false -> checked_hash rec = Some h ->
  remove_loop h (pre ++ rec :: suf) = Some rec /\
  remove_first rec (pre ++ rec :: suf) = pre ++ suf.
Proof.
  intros Hpre Hrec. induction pre as [|r pre IH].
  - cbn [app remove_immutable_data_zonefile_loop remove_first].
    rewrite Hrec, String.eqb_refl. by rewrite decide_True.
  - cbn [app remove_immutable_data_zonefile_loop remove_first].
    cbn [has_immutable_data_loop] in Hpre.
    destruct (checked_hash r) as [h'|] eqn:Hr.
    + destruct (String.eqb_spec h h') as [->|Hne]; [done|].
      destruct (IH Hpre) as [-> ->].
      rewrite decide_False; [done|]. intros ->. congruence.
    + destruct (IH Hpre) as [-> ->].
      rewrite decide_False; [done|]. intros ->. congruence.
Qed.

Lemma remove_loop_spec (h : string) (recs : list txtrec) :
  match remove_loop h recs with
  | Some rec =>
      exists pre suf, recs = pre ++ rec :: suf /\ checked_hash rec = Some h /\
                      has_loop h pre = false
  | None => has_loop h recs = false
  end.
Proof.
  induction recs as [|r recs IH]; [done|].
  cbn [remove_immutable_data_zonefile_loop has_immutable_data_loop].
  destruct (checked_hash r) as [h'|] eqn:Hr.
  - destruct (String.eqb_spec h h') as [->|Hne].
    + by exists [], recs.
    + destruct (remove_loop h recs) as [rec|]; [|done].
      destruct IH as (pre & suf & -> & ? & ?). exists (r :: pre), suf.
      cbn [has_immutable_data_loop]. rewrite Hr.
      by destruct (String.eqb_spec h h').
  - destruct (remove_loop h recs) as [rec|]; [|done].
    destruct IH as (pre & suf & -> & ? & ?). exists (r :: pre), suf.
    cbn [has_immutable_data_loop]. by rewrite Hr.
Qed.

Lemma url_loop_first (h : string) (pre suf : list txtrec) (rec : txtrec) :
  has_loop h pre = false -> checked_hash rec = Some h ->
  url_loop h (pre ++ rec :: suf) = get_immutable_url_from_txt (txt rec).
Proof.
  intros Hpre Hrec. induction pre as [|r pre IH].
  - cbn [app get_immutable_data_url_loop]. by rewrite Hrec, String.eqb_refl.
  - cbn [app get_immutable_data_url_loop]. cbn [has_immutable_data_loop] in Hpre.
    destruct (checked_hash r) as [h'|]; [|by apply IH].
    destruct (String.eqb_spec h h'); [done|]. by apply IH.
Qed.

End ImmutableFacts.

(** *** The mutable data registry *)

Section MutableFacts.

Context {Info Other : Type}.
Variable PROFILE_MUTABLE_DATA_SCHEMA : user_data_info Info Other -> bool.
Variable OP_MUTABLE_DATA_MD_PATTERN : string -> bool.
Variable b64encode : string -> string.
Variable b64decode : string -> result string.
Variable dict_keys : gmap string Info -> list string.

Local Abbreviation is_mutable_data_md := (is_mutable_data_md OP_MUTABLE_DATA_MD_PATTERN).
Local Abbreviation unpack_mutable_data_md :=
  (unpack_mutable_data_md OP_MUTABLE_DATA_MD_PATTERN b64decode).
Local Abbreviation ex_loop :=
  (get_mutable_data_info_ex_loop OP_MUTABLE_DATA_MD_PATTERN b64decode).
Local Abbreviation md_loop :=
  (get_mutable_data_info_md_loop OP_MUTABLE_DATA_MD_PATTERN b64decode).
Local Abbreviation rm_loop :=
  (remove_mutable_data_info_loop OP_MUTABLE_DATA_MD_PATTERN b64decode).
Local Abbreviation has_loop :=
  (has_mutable_data_info_loop OP_MUTABLE_DATA_MD_PATTERN b64decode).
Local Abbreviation list_loop :=
  (list_mutable_data_loop OP_MUTABLE_DATA_MD_PATTERN b64decode).

Lemma unpack_Ok_is_md (k : string) (p : string * Z) :
  unpack_mutable_data_md k = Ok p -> is_mutable_data_md k = true.
Proof.
  unfold User.unpack_mutable_data_md. by destruct (User.is_mutable_data_md _ k).
Qed.

(** The loops of [remove_mutable_data_info] and [get_mutable_data_info_md]
    stop at the key [get_mutable_data_info_ex] returns. *)
Lemma ex_loop_rm_loop (d : gmap string Info) (data_id : string) (keys : list string)
    (r : option (Info * Z * string)) :
  ex_loop d data_id keys = Ok r -> rm_loop data_id keys = Ok (snd <$> r).
Proof.
  induction keys as [|k keys IH];
    cbn [get_mutable_data_info_ex_loop remove_mutable_data_info_loop].
  - by intros [= <-].
  - destruct (User.is_mutable_data_md _ k); cbn [negb]; [|done].
    destruct (User.unpack_mutable_data_md _ _ k) as [[uid ver]|e];
      cbn [mbind result_bind]; [|done].
    destruct (String.eqb data_id uid); [|done].
    destruct (d !! k); [|done]. by intros [= <-].
Qed.

Lemma ex_loop_md_loop (d : gmap string Info) (data_id : string) (keys : list string)
    (r : option (Info * Z * string)) :
  ex_loop d data_id keys = Ok r -> md_loop data_id keys = snd <$> r.
Proof.
  induction keys as [|k keys IH];
    cbn [get_mutable_data_info_ex_loop get_mutable_data_info_md_loop].
  - by intros [= <-].
  - destruct (User.is_mutable_data_md _ k); cbn [negb]; [|done].
    destruct (User.unpack_mutable_data_md _ _ k) as [[uid ver]|e];
      cbn [mbind result_bind]; [|done].
    destruct (String.eqb data_id uid); [|done].
    destruct (d !! k); [|done]. by intros [= <-].
Qed.

Lemma md_loop_found (data_id : string) (keys : list string) (k : string) :
  md_loop data_id keys = Some k ->
  k ∈ keys /\ exists v, unpack_mutable_data_md k = Ok (data_id, v).
Proof.
  induction keys as [|k0 keys IH]; cbn [get_mutable_data_info_md_loop]; [done|].
  assert (Hrest : md_loop data_id keys = Some k ->
    k ∈ k0 :: keys /\ exists v, unpack_mutable_data_md k = Ok (data_id, v)).
  { intros H. destruct (IH H). split; [by right|done]. }
  destruct (User.is_mutable_data_md _ k0); cbn [negb]; [|done].
  destruct (User.unpack_mutable_data_md _ _ k0) as [[uid ver]|e] eqn:Hun; [|done].
  destruct (String.eqb_spec data_id uid) as [->|]; [|done].
  intros [= <-]. split; [by left|by exists ver].
Qed.

(** When [has_mutable_data_info] returns, it has found what
    [get_mutable_data_info_ex] finds. *)
Lemma has_loop_ex_loop (d : gmap string Info) (data_id : string) (keys : list string)
    (b : bool) :
  (forall k, k ∈ keys -> is_Some (d !! k)) ->
  has_loop data_id keys = Ok b ->
  exists r, ex_loop d data_id keys = Ok r /\ b = bool_decide (is_Some r).
Proof.
  intros Hdom. induction keys as [|k keys IH];
    cbn [get_mutable_data_info_ex_loop has_mutable_data_info_loop].
  - intros [= <-]. by exists None.
  - destruct (User.unpack_mutable_data_md _ _ k) as [[uid ver]|e] eqn:Hun;
      cbn [mbind result_bind]; [|done].
    rewrite (unpack_Ok_is_md _ _ Hun). cbn [negb].
    destruct (String.eqb data_id uid).
    + intros [= <-]. destruct (Hdom k) as [i ->]; [by left|]. by eexists.
    + apply IH. intros k' Hk'. apply Hdom. by right.
Qed.

Lemma ex_loop_list_loop (d : gmap string Info) (data_id : string) (keys : list string)
    (r : option (Info * Z * string)) :
  ex_loop d data_id keys = Ok r ->
  match r with
  | Some (_, v, _) => (data_id, v) ∈ list_loop keys
  | None => data_id ∉ (list_loop keys).*1
  end.
Proof.
  revert r. induction keys as [|k keys IH]; intros r;
    cbn [get_mutable_data_info_ex_loop list_mutable_data_loop].
  - intros [= <-]. by intros ?%elem_of_nil.
  - destruct (User.is_mutable_data_md _ k); cbn [negb]; [|apply IH].
    destruct (User.unpack_mutable_data_md _ _ k) as [[uid ver]|e];
      cbn [mbind result_bind]; [|done].
    destruct (String.eqb_spec data_id uid) as [->|Hne].
    + destruct (d !! k); [|done]. intros [= <-]. by left.
    + intros H. specialize (IH r H). destruct r as [[[? v] ?]|].
      * by right.
      * cbn [fmap list_fmap fst]. by intros [?|?]%elem_of_cons.
Qed.

(** On keys that [pack_mutable_data_md] has written, the prefix test of
    [get_mutable_data_info] and the comparison of the unpacked data id say
    the same, and the two lookups visit the keys alike. *)
Lemma startswith_pack_prefix (data_id id0 : string) (v0 : Z) :
  contains ":" (b64encode data_id) = false ->
  contains ":" (b64encode id0) = false ->
  b64decode (b64encode data_id) = Ok data_id ->
  b64decode (b64encode id0) = Ok id0 ->
  startswith (pack_mutable_data_md b64encode id0 v0)
             (pack_mutable_data_md_prefix b64encode data_id)
  = String.eqb data_id id0.
Proof.
  intros Hc Hc0 Hd Hd0.
  unfold User.pack_mutable_data_md, User.pack_mutable_data_md_prefix.
  rewrite startswith_app_same.
  destruct (String.eqb_spec data_id id0) as [->|Hne].
  - rewrite startswith_app_same. change (":" +:+ ?x) with (String ":" x).
    rewrite startswith_cons, Ascii.eqb_refl. apply startswith_nil.
  - apply not_true_is_false. intros H.
    change (":" +:+ ?x) with (String ":" x) in H.
    apply startswith_field in H; [|done..].
    apply Hne. rewrite H in Hd. congruence.
Qed.

Lemma info_loop_ex_loop (d : gmap string Info) (data_id : string)
    (keys : list string) :
  contains ":" (b64encode data_id) = false ->
  b64decode (b64encode data_id) = Ok data_id ->
  (forall k, k ∈ keys ->
     exists id0 v0, k = pack_mutable_data_md b64encode id0 v0 /\
                    is_mutable_data_md k = true /\
                    contains ":" (b64encode id0) = false /\
                    b64decode (b64encode id0) = Ok id0) ->
  get_mutable_data_info_loop OP_MUTABLE_DATA_MD_PATTERN b64encode b64decode d
    data_id keys
  = match ex_loop d data_id keys with
    | Ok r => Ok ((fun t : Info * Z * string => t.1.1) <$> r)
    | Raise e => Raise e
    end.
Proof.
  intros Hc Hd Hkeys. induction keys as [|k keys IH]; [done|].
  cbn [get_mutable_data_info_loop get_mutable_data_info_ex_loop].
  destruct (Hkeys k) as (id0 & v0 & -> & Hmd & Hc0 & Hd0); [by left|].
  rewrite Hmd, startswith_pack_prefix by done.
  rewrite (unpack_pack_mutable_data_md _ _ _ id0 v0 Hmd Hd0 Hc0).
  cbn [negb mbind result_bind].
  assert (Hrest : forall k', k' ∈ keys ->
     exists id0 v0, k' = pack_mutable_data_md b64encode id0 v0 /\
                    is_mutable_data_md k' = true /\
                    contains ":" (b64encode id0) = false /\
                    b64decode (b64encode id0) = Ok id0).
  { intros k' Hk'. apply Hkeys. by right. }
  destruct (String.eqb data_id id0); cbn [negb mbind result_bind].
  - by destruct (d !! _).
  - by apply IH.
Qed.

End MutableFacts.

(** *** The data public key *)

Lemma data_pubkey_loop_Some (key_prefix x y : string) (recs : list txtrec)
    (old : option string) :
  user_zonefile_data_pubkey_loop key_prefix (Some x) recs = Ok old ->
  user_zonefile_data_pubkey_loop key_prefix (Some y) recs = Ok (Some y).
Proof.
  induction recs as [|r recs IH]; cbn [user_zonefile_data_pubkey_loop]; [done|].
  destruct (startswith (txt r) key_prefix); cbn [negb]; done.
Qed.

Lemma data_pubkey_loop_set (key_prefix pubkey_hex : string) (recs : list txtrec)
    (old : option string) :
  user_zonefile_data_pubkey_loop key_prefix None recs = Ok old ->
  user_zonefile_data_pubkey_loop key_prefix None
    (match user_zonefile_set_data_pubkey_loop key_prefix
             (key_prefix +:+ pubkey_hex) recs with
     | Some recs' => recs'
     | None => recs ++ [{| name := "pubkey"; txt := key_prefix +:+ pubkey_hex |}]
     end)
  = Ok (Some pubkey_hex).
Proof.
  revert old. induction recs as [|r recs IH]; intros old;
    cbn [user_zonefile_data_pubkey_loop user_zonefile_set_data_pubkey_loop].
  - intros _. cbn [app user_zonefile_data_pubkey_loop txt].
    rewrite startswith_app. cbn [negb]. by rewrite slice_from_app.
  - destruct (startswith (txt r) key_prefix) eqn:Hr; cbn [negb].
    + intros H. cbn [user_zonefile_data_pubkey_loop txt].
      rewrite startswith_app. cbn [negb]. rewrite slice_from_app by done.
      by eapply data_pubkey_loop_Some.
    + intros H. specialize (IH old H).
      destruct (user_zonefile_set_data_pubkey_loop _ _ recs) as [recs'|];
        cbn [fmap option_fmap option_map app user_zonefile_data_pubkey_loop];
        by rewrite Hr.
Qed.

(** *** The profile URLs *)

Lemma remove_first_middle {A : Type} `{EqDecision A} (x : A) (pre suf : list A) :
  x ∉ pre -> remove_first x (pre ++ x :: suf) = pre ++ suf.
Proof.
  intros Hx. induction pre as [|y pre IH]; cbn [app remove_first].
  - by rewrite decide_True.
  - apply not_elem_of_cons in Hx as [Hne Hx].
    rewrite decide_False by done. f_equal. by apply IH.
Qed.

Lemma length_remove_first {A : Type} `{EqDecision A} (x : A) (l : list A) :
  length (remove_first x l) <= length l.
Proof.
  induction l as [|y l IH]; cbn [remove_first length]; [lia|].
  destruct (decide (x = y)); cbn [length]; lia.
Qed.

Section UrlFacts.

Context {UriRest : Type} `{EqDecision UriRest}.

Local Abbreviation remove_loop := (remove_user_zonefile_url_loop (UriRest := UriRest)).
Local Abbreviation urls_loop := (user_zonefile_urls_loop (UriRest := UriRest)).

Lemma urls_loop_app (a b : list (urirec UriRest)) :
  urls_loop (a ++ b) = urls_loop a ++ urls_loop b.
Proof.
  induction a as [|r a IH]; [done|]. cbn [app user_zonefile_urls_loop].
  destruct (target r); by rewrite IH.
Qed.

(** A URL that is listed is a duplicate for [add_user_zonefile_url]. *)
Lemma existsb_targets_listed (url : string) (recs : list (urirec UriRest)) :
  url ∈ urls_loop recs -> existsb (targets url) recs = true.
Proof.
  induction recs as [|r recs IH]; cbn [user_zonefile_urls_loop existsb].
  - by intros ?%elem_of_nil.
  - unfold targets at 1. destruct (target r) as [t|]; cbn [default from_option id].
    + intros [->|H]%elem_of_cons.
      * by rewrite String.eqb_refl.
      * by rewrite IH, orb_true_r.
    + intros H. by rewrite IH, orb_true_r.
Qed.

Lemma existsb_targets_inv (url : string) (recs : list (urirec UriRest)) :
  existsb (targets url) recs = true ->
  url ∈ urls_loop recs \/
  (url = "" /\ exists r, r ∈ recs /\ target r = None).
Proof.
  induction recs as [|r recs IH]; cbn [user_zonefile_urls_loop existsb]; [done|].
  intros [H|H]%orb_true_iff.
  - unfold targets in H. destruct (target r) as [t|] eqn:Ht;
      cbn [default from_option id] in H; apply String.eqb_eq in H.
    + left. subst url. by left.
    + right. split; [done|]. exists r. split; [by left|done].
  - destruct (IH H) as [Hin|(-> & r' & Hr' & Ht')].
    + left. destruct (target r); [by right|done].
    + right. split; [done|]. exists r'. split; [by right|done].
Qed.

(** The loop is over once the index is past the end: more steps change
    nothing. *)
Lemma remove_loop_done (fuel : nat) (url : string) (i : nat)
    (recs : list (urirec UriRest)) :
  length recs <= i -> remove_loop fuel url i recs = recs.
Proof.
  intros Hi. destruct fuel; cbn [remove_user_zonefile_url_loop]; [done|].
  by rewrite lookup_ge_None_2.
Qed.

Lemma remove_loop_fuel (k fuel : nat) (url : string) (i : nat)
    (recs : list (urirec UriRest)) :
  length recs <= i + fuel ->
  remove_loop (fuel + k) url i recs = remove_loop fuel url i recs.
Proof.
  revert i recs. induction fuel as [|fuel IH]; intros i recs Hlen.
  - rewrite !remove_loop_done by lia. done.
  - cbn [Nat.add remove_user_zonefile_url_loop].
    destruct (recs !! i) as [r|]; [|done].
    destruct (targets url r).
    + apply IH. pose proof (length_remove_first r recs). lia.
    + apply IH. lia.
Qed.

(** The records before the index are not visited again; those from the
    index on are filtered, as long as a record that is removed is not
    followed by another that points to the URL, which the loop would step
    over. *)
Lemma remove_loop_filter (fuel : nat) (url : string)
    (pre suf : list (urirec UriRest)) :
  length suf <= fuel ->
  (forall r, r ∈ suf -> targets url r = true -> r ∉ pre) ->
  (forall i a b, suf !! i = Some a -> suf !! S i = Some b ->
                 targets url a = true -> targets url b = false) ->
  remove_loop fuel url (length pre) (pre ++ suf)
  = pre ++ List.filter (fun r => negb (targets url r)) suf.
Proof.
  revert pre suf. induction fuel as [|fuel IH]; intros pre suf Hlen Hpre Hadj.
  - destruct suf; [done|]. cbn [length] in Hlen. lia.
  - destruct suf as [|x suf].
    { rewrite remove_loop_done; [done|]. rewrite app_nil_r. lia. }
    cbn [remove_user_zonefile_url_loop List.filter].
    rewrite list_lookup_middle by done.
    assert (Hadj' : forall i a b, suf !! i = Some a -> suf !! S i = Some b ->
                      targets url a = true -> targets url b = false).
    { intros i a b Ha Hb. by apply (Hadj (S i) a b). }
    destruct (targets url x) eqn:Hx; cbn [negb].
    + rewrite remove_first_middle by (apply Hpre; [by left|done]).
      destruct suf as [|y suf].
      { rewrite remove_loop_done; [done|]. rewrite app_nil_r. lia. }
      assert (Hy : targets url y = false) by (by apply (Hadj 0 x y)).
      cbn [List.filter]. rewrite Hy. cbn [negb].
      replace (S (length pre)) with (length (pre ++ [y]))
        by (rewrite length_app; cbn; lia).
      rewrite (cons_middle y pre suf), app_assoc.
      rewrite IH; [by rewrite <- app_assoc| | |].
      * cbn [length] in Hlen. lia.
      * intros r Hr Ht [Hin| ->%list_elem_of_singleton]%elem_of_app.
        -- revert Hin. apply Hpre; [|done]. by do 2 right.
        -- congruence.
      * intros i a b Ha Hb. by apply (Hadj' (S i) a b).
    + replace (S (length pre)) with (length (pre ++ [x]))
        by (rewrite length_app; cbn; lia).
      rewrite (cons_middle x pre suf), app_assoc.
      rewrite IH; [by rewrite <- app_assoc| | |done].
      * cbn [length] in Hlen. lia.
      * intros r Hr Ht [Hin| ->%list_elem_of_singleton]%elem_of_app.
        -- revert Hin. apply Hpre; [|done]. by right.
        -- congruence.
Qed.

(** The records before the first that points to the URL are stepped
    over. *)
Lemma remove_loop_skip (fuel : nat) (url : string)
    (pre mid suf : list (urirec UriRest)) :
  (forall r, r ∈ mid -> targets url r = false) ->
  remove_loop (length mid + fuel) url (length pre) (pre ++ mid ++ suf)
  = remove_loop fuel url (length (pre ++ mid)) (pre ++ mid ++ suf).
Proof.
  revert pre. induction mid as [|x mid IH]; intros pre Hmid.
  - by rewrite app_nil_r.
  - cbn [length Nat.add remove_user_zonefile_url_loop app].
    rewrite list_lookup_middle by done.
    rewrite (Hmid x) by (by left).
    replace (S (length pre)) with (length (pre ++ [x]))
      by (rewrite length_app; cbn; lia).
    rewrite (cons_middle x pre (mid ++ suf)), app_assoc.
    rewrite IH by (intros r Hr; apply Hmid; by right).
    by rewrite <- !app_assoc.
Qed.

Lemma filter_none_targets (url : string) (l : list (urirec UriRest)) :
  (forall r, r ∈ l -> targets url r = false) ->
  List.filter (fun r => negb (targets url r)) l = l.
Proof.
  induction l as [|x l IH]; intros H; [done|]. cbn [List.filter].
  rewrite (H x) by (by left). cbn [negb]. f_equal. apply IH.
  intros r Hr. apply H. by right.
Qed.

End UrlFacts.

End UserMoreFacts.

(** ** More properties of [user.py] *)

Module UserMore.
Import PyFacts User UserFacts UserMoreFacts.

(** X13.  The file name of a user has no ["/"] in it, whatever the user
    id; and the escaping is not one to one: an id with a ["/"] and the id
    with the four characters [\x2f] in its place get the same file name. *)
Theorem user_name_escapes_slash (user_id a b : string) :
  contains "/" (user_name user_id) = false /\
  a +:+ "/" +:+ b <> a +:+ "\x2f" +:+ b /\
  user_name (a +:+ "/" +:+ b) = user_name (a +:+ "\x2f" +:+ b).
Proof.
  split; [|split].
  - unfold user_name. by rewrite contains_app, contains_replace_char.
  - intros E. apply (f_equal String.length) in E.
    rewrite !str_length_app in E. cbn [String.length] in E. lia.
  - unfold user_name. by rewrite !replace_char_app.
Qed.

(** X14.  Two user ids without a backslash that get the same file name
    are the same id. *)
Theorem user_name_injective (id1 id2 : string) :
  contains "\" id1 = false -> contains "\" id2 = false ->
  user_name id1 = user_name id2 -> id1 = id2.
Proof.
  intros H1 H2 E. apply str_app_inv_tail in E. by apply replace_slash_inj.
Qed.

Lemma user_name_injective_witness : "alice/work" = "alice/work".
Proof.
  apply (user_name_injective "alice/work" "alice/work"); reflexivity.
Defined.

Section Immutable.

Context {Other : Type}.
Variable is_valid_hash : string -> bool.
Variable USER_ZONEFILE_SCHEMA : user_zonefile Other -> bool.

Local Abbreviation is_user_zonefile := (is_user_zonefile USER_ZONEFILE_SCHEMA).
Local Abbreviation get_immutable_data_hash :=
  (get_immutable_data_hash is_valid_hash USER_ZONEFILE_SCHEMA).
Local Abbreviation put_immutable_data_zonefile :=
  (put_immutable_data_zonefile is_valid_hash USER_ZONEFILE_SCHEMA).
Local Abbreviation remove_immutable_data_zonefile :=
  (remove_immutable_data_zonefile is_valid_hash USER_ZONEFILE_SCHEMA).
Local Abbreviation has_immutable_data :=
  (has_immutable_data is_valid_hash USER_ZONEFILE_SCHEMA).
Local Abbreviation has_immutable_data_id :=
  (has_immutable_data_id is_valid_hash USER_ZONEFILE_SCHEMA).
Local Abbreviation get_immutable_data_url :=
  (get_immutable_data_url is_valid_hash USER_ZONEFILE_SCHEMA).
Local Abbreviation list_immutable_data :=
  (list_immutable_data is_valid_hash USER_ZONEFILE_SCHEMA).
Local Abbreviation entries := (list_immutable_data_loop is_valid_hash).

(** X15.  The two membership tests agree with the listing: on a zonefile
    that passes the schema, [has_immutable_data_id] says whether the data id
    is the first component of an entry of [list_immutable_data], and
    [has_immutable_data], for a well-formed hash, whether the hash is the
    second component of one; and every hash listed is well formed. *)
Theorem immutable_lookups_agree_with_list (user_zonefile : user_zonefile Other)
    (data_id data_hash : string) :
  is_user_zonefile user_zonefile = true ->
  is_valid_hash data_hash = true ->
  exists l,
    list_immutable_data user_zonefile = Ok l /\
    has_immutable_data_id user_zonefile data_id
    = Ok (bool_decide (data_id ∈ l.*1)) /\
    has_immutable_data user_zonefile data_hash
    = Ok (bool_decide (data_hash ∈ l.*2)) /\
    (forall p, p ∈ l -> is_valid_hash p.2 = true).
Proof.
  intros Hzf Hv.
  unfold User.list_immutable_data, User.has_immutable_data_id,
    User.has_immutable_data.
  rewrite Hzf, Hv. cbn [negb].
  destruct (zf_txt user_zonefile) as [recs|].
  - exists (entries recs).
    rewrite has_id_loop_entries, has_loop_entries.
    do 3 (split; [done|]). apply entries_valid.
  - exists []. do 3 (split; [done|]). by intros p ?%elem_of_nil.
Qed.

(** X16.  [get_immutable_data_hash] returns the hashes that
    [list_immutable_data] lists under the data id, in the order of the
    listing: [None] when there is none, the hash when there is one, the
    list when there are more. *)
Theorem get_immutable_data_hash_from_list (user_zonefile : user_zonefile Other)
    (data_id : string) :
  is_user_zonefile user_zonefile = true ->
  exists l,
    list_immutable_data user_zonefile = Ok l /\
    get_immutable_data_hash user_zonefile data_id
    = Ok (match (filter (fun p => p.1 = data_id) l).*2 with
          | [] => NoHash
          | [h] => OneHash h
          | hs => ManyHashes hs
          end).
Proof.
  intros Hzf.
  rewrite (get_immutable_data_hash_entries is_valid_hash _ _ _ Hzf).
  unfold User.list_immutable_data. rewrite Hzf. cbn [negb].
  exists (entries (default [] (zf_txt user_zonefile))). split.
  - by destruct (zf_txt user_zonefile).
  - f_equal. by destruct (_.*2) as [|? [|? ?]].
Qed.

(** The new zonefile of a put under a data id that has no hash yet. *)
Lemma put_immutable_data_zonefile_NoHash (user_zonefile : user_zonefile Other)
    (data_id data_hash : string) (data_url : option string) :
  is_valid_hash data_hash = true ->
  get_immutable_data_hash user_zonefile data_id = Ok NoHash ->
  is_user_zonefile user_zonefile = true /\
  (filter (fun p => p.1 = data_id)
     (entries (default [] (zf_txt user_zonefile)))).*2 = [] /\
  put_immutable_data_zonefile user_zonefile data_id data_hash data_url
  = Ok (true,
        {| zf_txt := Some (default [] (zf_txt user_zonefile) ++
                           [{| name := data_id;
                               txt := default "" data_url +:+ String "#" data_hash |}]);
           zf_other := zf_other user_zonefile |}).
Proof.
  intros Hv Hget.
  assert (Hzf : is_user_zonefile user_zonefile = true).
  { unfold User.get_immutable_data_hash in Hget.
    by destruct (User.is_user_zonefile _ _). }
  split; [done|]. split.
  - rewrite (get_immutable_data_hash_entries is_valid_hash _ _ _ Hzf) in Hget.
    by destruct (_.*2) as [|? [|? ?]].
  - unfold User.put_immutable_data_zonefile. rewrite Hzf, Hv, Hget.
    cbn [negb mbind result_bind]. by destruct data_url.
Qed.

(** X17.  A put of a well-formed hash without ["#"] under a data id that
    has no hash yet returns [True] and appends one record; in the new
    zonefile, if it still passes the schema, the data id has that one hash,
    both membership tests say yes, and the listing is the old one with the
    new entry at its end. *)
Theorem put_immutable_data_zonefile_fresh (user_zonefile : user_zonefile Other)
    (data_id data_hash : string) (data_url : option string) :
  is_valid_hash data_hash = true -> contains "#" data_hash = false ->
  get_immutable_data_hash user_zonefile data_id = Ok NoHash ->
  exists user_zonefile' l,
    put_immutable_data_zonefile user_zonefile data_id data_hash data_url
    = Ok (true, user_zonefile') /\
    zf_other user_zonefile' = zf_other user_zonefile /\
    list_immutable_data user_zonefile = Ok l /\
    (is_user_zonefile user_zonefile' = true ->
     get_immutable_data_hash user_zonefile' data_id = Ok (OneHash data_hash) /\
     has_immutable_data user_zonefile' data_hash = Ok true /\
     has_immutable_data_id user_zonefile' data_id = Ok true /\
     list_immutable_data user_zonefile' = Ok (l ++ [(data_id, data_hash)])).
Proof.
  intros Hv Hh Hget.
  destruct (put_immutable_data_zonefile_NoHash user_zonefile data_id data_hash
              data_url Hv Hget) as (Hzf & Hnone & Hput).
  pose proof (checked_hash_written is_valid_hash data_id (default "" data_url)
                data_hash Hv Hh) as Hnew.
  set (new := {| name := data_id;
                 txt := default "" data_url +:+ String "#" data_hash |}) in *.
  set (recs := default [] (zf_txt user_zonefile)) in *.
  assert (Hentries : entries (recs ++ [new]) = entries recs ++ [(data_id, data_hash)]).
  { rewrite entries_app. cbn [list_immutable_data_loop]. by rewrite Hnew. }
  eexists _, (entries recs). split; [exact Hput|]. split; [done|]. split.
  { unfold User.list_immutable_data. rewrite Hzf. cbn [negb]. subst recs.
    by destruct (zf_txt user_zonefile). }
  intros Hzf'.
  unfold User.get_immutable_data_hash, User.has_immutable_data,
    User.has_immutable_data_id, User.list_immutable_data.
  rewrite Hzf', Hv. cbn [negb zf_txt].
  rewrite has_loop_entries, has_id_loop_entries, Hentries.
  split; [|split; [|split]].
  - f_equal.
    etransitivity;
      [exact (fold_step_entries is_valid_hash data_id (recs ++ [new]) [])|].
    cbn [app]. rewrite Hentries, filter_app, fmap_app, Hnone.
    by rewrite filter_cons_True.
  - f_equal. apply bool_decide_eq_true. rewrite fmap_app, elem_of_app.
    right. by left.
  - f_equal. apply bool_decide_eq_true. rewrite fmap_app, elem_of_app.
    right. by left.
  - done.
Qed.

(** X18.  A put under one data id changes nothing for another: in the
    zonefile it leaves, if it still passes the schema,
    [get_immutable_data_hash] and [has_immutable_data_id] of any other data
    id are what they were. *)
Theorem put_immutable_data_zonefile_other_ids (user_zonefile : user_zonefile Other)
    (data_id data_hash : string) (data_url : option string) (b : bool)
    (user_zonefile' : User.user_zonefile Other) (other_id : string) :
  put_immutable_data_zonefile user_zonefile data_id data_hash data_url
  = Ok (b, user_zonefile') ->
  is_user_zonefile user_zonefile' = true ->
  other_id <> data_id ->
  get_immutable_data_hash user_zonefile' other_id
  = get_immutable_data_hash user_zonefile other_id /\
  has_immutable_data_id user_zonefile' other_id
  = has_immutable_data_id user_zonefile other_id.
Proof.
  unfold User.put_immutable_data_zonefile.
  destruct (User.is_user_zonefile _ user_zonefile) eqn:Hzf; cbn [negb]; [|done].
  destruct (is_valid_hash data_hash); cbn [negb]; [|done].
  destruct (User.get_immutable_data_hash _ _ user_zonefile data_id) as [k|e];
    cbn [mbind result_bind]; [|done].
  destruct k as [|h|hs]; [|by intros [= <- <-]..].
  intros [= <- <-] Hzf' Hne.
  unfold User.get_immutable_data_hash, User.has_immutable_data_id.
  rewrite Hzf, Hzf'. cbn [negb zf_txt].
  set (new := {| name := data_id; txt := _ |}).
  assert (Hname : String.eqb other_id (name new) = false)
    by (by apply String.eqb_neq).
  rewrite fold_left_app, has_id_loop_app. cbn [fold_left].
  unfold get_immutable_data_hash_step at 1. rewrite Hname. cbn [negb].
  cbn [has_immutable_data_id_loop]. rewrite Hname.
  assert (Hlast : (match User.checked_hash is_valid_hash new with
                   | Some _ => false | None => false end) = false)
    by (by destruct (User.checked_hash _ _)).
  rewrite Hlast, orb_false_r.
  by destruct (zf_txt user_zonefile).
Qed.

(** X19.  [remove_immutable_data_zonefile] returns what
    [has_immutable_data] returns.  When that is [False] the zonefile is left
    as it was; when it is [True] the one record that goes is the first whose
    hash is the given one, and the other records keep their order. *)
Theorem remove_immutable_data_zonefile_first (user_zonefile : user_zonefile Other)
    (data_hash : string) :
  is_user_zonefile user_zonefile = true ->
  is_valid_hash data_hash = true ->
  exists b user_zonefile',
    remove_immutable_data_zonefile user_zonefile data_hash
    = Ok (b, user_zonefile') /\
    has_immutable_data user_zonefile data_hash = Ok b /\
    zf_other user_zonefile' = zf_other user_zonefile /\
    if b then
      exists pre rec suf,
        zf_txt user_zonefile = Some (pre ++ rec :: suf) /\
        zf_txt user_zonefile' = Some (pre ++ suf) /\
        entries (pre ++ rec :: suf)
        = entries pre ++ (name rec, data_hash) :: entries suf /\
        data_hash ∉ (entries pre).*2
    else user_zonefile' = user_zonefile.
Proof.
  intros Hzf Hv.
  unfold User.remove_immutable_data_zonefile, User.has_immutable_data.
  unfold User.is_user_zonefile in *. rewrite Hzf, Hv. cbn [negb].
  destruct (zf_txt user_zonefile) as [recs|] eqn:Htxt; [|by exists false, user_zonefile].
  pose proof (remove_loop_spec is_valid_hash data_hash recs) as Hspec.
  destruct (remove_immutable_data_zonefile_loop _ _ recs) as [rec|].
  - destruct Hspec as (pre & suf & -> & Hrec & Hpre).
    destruct (remove_loop_first is_valid_hash data_hash pre suf rec Hpre Hrec)
      as [_ Hrm].
    eexists true, _. split; [reflexivity|].
    split; [|split; [done|]].
    + f_equal. rewrite has_loop_app, Hpre. cbn [orb has_immutable_data_loop].
      by rewrite Hrec, String.eqb_refl.
    + exists pre, rec, suf. cbn [zf_txt]. rewrite Hrm.
      do 2 (split; [done|]). split.
      * rewrite entries_app. cbn [list_immutable_data_loop]. by rewrite Hrec.
      * rewrite has_loop_entries in Hpre. by apply bool_decide_eq_false in Hpre.
  - exists false, user_zonefile. by rewrite Hspec.
Qed.

(** X20.  A put of a hash the zonefile does not have, under a data id
    that has no hash, followed by the removal of that hash, gives back the
    txt records as they were, as a list that is empty when the zonefile had
    no ['txt'] key. *)
Theorem put_then_remove_immutable (user_zonefile : user_zonefile Other)
    (data_id data_hash : string) (data_url : option string) :
  contains "#" data_hash = false ->
  get_immutable_data_hash user_zonefile data_id = Ok NoHash ->
  has_immutable_data user_zonefile data_hash = Ok false ->
  exists user_zonefile',
    put_immutable_data_zonefile user_zonefile data_id data_hash data_url
    = Ok (true, user_zonefile') /\
    (is_user_zonefile user_zonefile' = true ->
     remove_immutable_data_zonefile user_zonefile' data_hash
     = Ok (true, {| zf_txt := Some (default [] (zf_txt user_zonefile));
                    zf_other := zf_other user_zonefile |})).
Proof.
  intros Hh Hget Hhas.
  assert (Hv : is_valid_hash data_hash = true).
  { unfold User.has_immutable_data in Hhas.
    destruct (User.is_user_zonefile _ _); [|done].
    by destruct (is_valid_hash data_hash). }
  destruct (put_immutable_data_zonefile_NoHash user_zonefile data_id data_hash
              data_url Hv Hget) as (Hzf & _ & Hput).
  pose proof (checked_hash_written is_valid_hash data_id (default "" data_url)
                data_hash Hv Hh) as Hnew.
  eexists. split; [exact Hput|]. intros Hzf'.
  assert (Hpre : has_immutable_data_loop is_valid_hash data_hash
                   (default [] (zf_txt user_zonefile)) = false).
  { unfold User.has_immutable_data in Hhas.
    rewrite Hzf, Hv in Hhas.
    cbn [negb] in Hhas. destruct (zf_txt user_zonefile); [|done].
    by injection Hhas. }
  destruct (remove_loop_first is_valid_hash data_hash _ [] _ Hpre Hnew)
    as [Hloop Hrm].
  unfold User.remove_immutable_data_zonefile.
  rewrite Hzf', Hv. cbn [negb zf_txt zf_other].
  rewrite Hloop, Hrm. by rewrite app_nil_r.
Qed.

(** X21.  After such a put, [get_immutable_data_url] of the hash returns
    the URL that was given, or [None] when none or the empty one was. *)
Theorem get_immutable_data_url_after_put (user_zonefile : user_zonefile Other)
    (data_id data_hash : string) (data_url : option string) :
  contains "#" data_hash = false ->
  get_immutable_data_hash user_zonefile data_id = Ok NoHash ->
  has_immutable_data user_zonefile data_hash = Ok false ->
  exists user_zonefile',
    put_immutable_data_zonefile user_zonefile data_id data_hash data_url
    = Ok (true, user_zonefile') /\
    (is_user_zonefile user_zonefile' = true ->
     get_immutable_data_url user_zonefile' data_hash
     = Ok (match data_url with
           | Some EmptyString => None
           | _ => data_url
           end)).
Proof.
  intros Hh Hget Hhas.
  assert (Hv : is_valid_hash data_hash = true).
  { unfold User.has_immutable_data in Hhas.
    destruct (User.is_user_zonefile _ _); [|done].
    by destruct (is_valid_hash data_hash). }
  destruct (put_immutable_data_zonefile_NoHash user_zonefile data_id data_hash
              data_url Hv Hget) as (Hzf & _ & Hput).
  pose proof (checked_hash_written is_valid_hash data_id (default "" data_url)
                data_hash Hv Hh) as Hnew.
  eexists. split; [exact Hput|]. intros Hzf'.
  assert (Hpre : has_immutable_data_loop is_valid_hash data_hash
                   (default [] (zf_txt user_zonefile)) = false).
  { unfold User.has_immutable_data in Hhas.
    rewrite Hzf, Hv in Hhas.
    cbn [negb] in Hhas. destruct (zf_txt user_zonefile); [|done].
    by injection Hhas. }
  unfold User.get_immutable_data_url.
  rewrite Hzf'. cbn [negb zf_txt].
  rewrite (url_loop_first is_valid_hash data_hash _ [] _ Hpre Hnew). cbn [txt].
  rewrite get_immutable_url_written by done.
  by destruct data_url as [[|c u]|].
Qed.

(** X22.  On a zonefile from which [user_zonefile_data_pubkey] returns,
    [user_zonefile_set_data_pubkey] returns [True], and the key it has set is
    the one [user_zonefile_data_pubkey] then returns, if the zonefile still
    passes the schema. *)
Theorem user_zonefile_set_data_pubkey_then_get (user_zonefile : user_zonefile Other)
    (pubkey_hex key_prefix : string) (old : option string) :
  user_zonefile_data_pubkey USER_ZONEFILE_SCHEMA user_zonefile key_prefix = Ok old ->
  exists user_zonefile',
    user_zonefile_set_data_pubkey USER_ZONEFILE_SCHEMA user_zonefile pubkey_hex
      key_prefix = Ok (true, user_zonefile') /\
    zf_other user_zonefile' = zf_other user_zonefile /\
    (is_user_zonefile user_zonefile' = true ->
     user_zonefile_data_pubkey USER_ZONEFILE_SCHEMA user_zonefile' key_prefix
     = Ok (Some pubkey_hex)).
Proof.
  unfold User.user_zonefile_data_pubkey, User.user_zonefile_set_data_pubkey.
  destruct (User.is_user_zonefile _ user_zonefile); cbn [negb]; [|done].
  intros Hget.
  assert (Hloop : user_zonefile_data_pubkey_loop key_prefix None
                    (default [] (zf_txt user_zonefile)) = Ok old).
  { destruct (zf_txt user_zonefile); [done|]. by injection Hget as <-. }
  pose proof (data_pubkey_loop_set key_prefix pubkey_hex _ _ Hloop) as Hset.
  destruct (user_zonefile_set_data_pubkey_loop _ _ _) as [recs'|];
    (eexists; split; [reflexivity|]; split; [done|]);
    intros Hzf'; rewrite Hzf';
    cbn [negb zf_txt]; exact Hset.
Qed.

End Immutable.

Section Mutable.

Context {Info Other : Type}.
Variable PROFILE_MUTABLE_DATA_SCHEMA : user_data_info Info Other -> bool.
Variable OP_MUTABLE_DATA_MD_PATTERN : string -> bool.
Variable b64encode : string -> string.
Variable b64decode : string -> result string.
Variable dict_keys : gmap string Info -> list string.

Local Abbreviation is_mutable_data_md := (is_mutable_data_md OP_MUTABLE_DATA_MD_PATTERN).
Local Abbreviation pack_mutable_data_md := (pack_mutable_data_md b64encode).
Local Abbreviation pack_mutable_data_md_prefix := (pack_mutable_data_md_prefix b64encode).
Local Abbreviation unpack_mutable_data_md :=
  (unpack_mutable_data_md OP_MUTABLE_DATA_MD_PATTERN b64decode).
Local Abbreviation get_mutable_data_info_ex :=
  (get_mutable_data_info_ex PROFILE_MUTABLE_DATA_SCHEMA
     OP_MUTABLE_DATA_MD_PATTERN b64decode dict_keys).
Local Abbreviation get_mutable_data_info :=
  (get_mutable_data_info PROFILE_MUTABLE_DATA_SCHEMA
     OP_MUTABLE_DATA_MD_PATTERN b64encode b64decode dict_keys).
Local Abbreviation has_mutable_data_info :=
  (has_mutable_data_info PROFILE_MUTABLE_DATA_SCHEMA
     OP_MUTABLE_DATA_MD_PATTERN b64decode dict_keys).
Local Abbreviation remove_mutable_data_info :=
  (remove_mutable_data_info PROFILE_MUTABLE_DATA_SCHEMA
     OP_MUTABLE_DATA_MD_PATTERN b64decode dict_keys).
Local Abbreviation list_mutable_data :=
  (list_mutable_data PROFILE_MUTABLE_DATA_SCHEMA
     OP_MUTABLE_DATA_MD_PATTERN b64decode dict_keys).
Local Abbreviation mutable_data_version :=
  (mutable_data_version PROFILE_MUTABLE_DATA_SCHEMA
     OP_MUTABLE_DATA_MD_PATTERN b64decode dict_keys).

(** X23.  [remove_mutable_data_info] removes what
    [get_mutable_data_info_ex] finds: when the lookup finds nothing it
    returns [False] and leaves the data info as it was; when the lookup
    finds an entry under a key, it returns [True] and that key, and no
    other, is gone from the mapping. *)
Theorem remove_mutable_data_info_found (user_data_info : user_data_info Info Other)
    (data_id : string) (r : option (Info * Z * string)) :
  get_mutable_data_info_ex user_data_info data_id = Ok r ->
  match r with
  | None =>
      remove_mutable_data_info user_data_info data_id = Ok (false, user_data_info)
  | Some (info, version, md) =>
      exists d, data user_data_info = Some d /\ d !! md = Some info /\
        remove_mutable_data_info user_data_info data_id
        = Ok (true, {| data := Some (delete md d);
                       udi_other := udi_other user_data_info |})
  end.
Proof.
  unfold User.get_mutable_data_info_ex, User.remove_mutable_data_info.
  destruct (has_mutable_data_section _ _); cbn [negb].
  - destruct (data user_data_info) as [d|] eqn:Hd.
    + intros Hex. rewrite (ex_loop_rm_loop _ _ _ _ _ _ Hex).
      cbn [mbind result_bind].
      destruct r as [[[info version] md]|]; [|done].
      apply get_mutable_data_info_ex_loop_found in Hex as (_ & Hmd & _).
      by exists d.
    + by intros [= <-].
  - by intros [= <-].
Qed.

(** X24.  [mutable_data_version] returns a version on every data info,
    and it is the one [get_mutable_data_info_ex] finds: when the lookup
    finds an entry with version [v], the version is [v] and
    [list_mutable_data] lists the data id with [v]; when it finds nothing,
    the version is 0 and [list_mutable_data] does not list the data id. *)
Theorem mutable_data_version_found (user_data_info : user_data_info Info Other)
    (data_id : string) :
  (exists v, mutable_data_version user_data_info data_id = Ok v) /\
  forall r, get_mutable_data_info_ex user_data_info data_id = Ok r ->
    match r with
    | Some (_, v, _) =>
        mutable_data_version user_data_info data_id = Ok v /\
        (data_id, v) ∈ list_mutable_data user_data_info
    | None =>
        mutable_data_version user_data_info data_id = Ok 0%Z /\
        data_id ∉ (list_mutable_data user_data_info).*1
    end.
Proof.
  split.
  - unfold User.mutable_data_version, User.get_mutable_data_info_md.
    destruct (has_mutable_data_section _ _); cbn [negb]; [|by eexists].
    destruct (data user_data_info) as [d|]; [|by eexists].
    destruct (get_mutable_data_info_md_loop _ _ _ _) as [k|] eqn:Hk; [|by eexists].
    apply md_loop_found in Hk as (_ & v & ->). by exists v.
  - intros r.
    unfold User.get_mutable_data_info_ex, User.mutable_data_version,
      User.get_mutable_data_info_md, User.list_mutable_data.
    destruct (has_mutable_data_section _ _); cbn [negb].
    + destruct (data user_data_info) as [d|].
      * intros Hex. rewrite (ex_loop_md_loop _ _ _ _ _ _ Hex).
        pose proof (ex_loop_list_loop _ _ _ _ _ _ Hex) as Hlist.
        destruct r as [[[info v] md]|]; cbn [fmap option_fmap option_map snd].
        -- apply get_mutable_data_info_ex_loop_found in Hex as (_ & _ & _ & ->).
           done.
        -- done.
      * intros [= <-]. split; [done|]. by intros ?%elem_of_nil.
    + intros [= <-]. split; [done|]. by intros ?%elem_of_nil.
Qed.


(** X26.  [has_mutable_data_info], when it returns, says whether
    [get_mutable_data_info_ex] finds an entry; and when it raises, it is the
    unpacking of a key of the mapping that raised, as it does on a key that
    is not a metadata key, which the lookup would skip. *)
Theorem has_mutable_data_info_agrees (user_data_info : user_data_info Info Other)
    (data_id : string) :
  (forall d k, data user_data_info = Some d -> k ∈ dict_keys d -> is_Some (d !! k)) ->
  match has_mutable_data_info user_data_info data_id with
  | Ok b =>
      exists r, get_mutable_data_info_ex user_data_info data_id = Ok r /\
                b = bool_decide (is_Some r)
  | Raise e =>
      exists d k, data user_data_info = Some d /\ k ∈ dict_keys d /\
                  unpack_mutable_data_md k = Raise e
  end.
Proof.
  intros Hdom.
  unfold User.has_mutable_data_info, User.get_mutable_data_info_ex.
  destruct (has_mutable_data_section _ _); cbn [negb]; [|by exists None].
  destruct (data user_data_info) as [d|]; [|by exists None].
  specialize (Hdom d). 
  destruct (has_mutable_data_info_loop _ _ _ _) as [b|e] eqn:Hhas.
  - eapply has_loop_ex_loop in Hhas; [done|]. intros k Hk. by apply Hdom.
  - exists d. clear Hdom.
    induction (dict_keys d) as [|k keys IH];
      cbn [has_mutable_data_info_loop] in Hhas; [done|].
    destruct (User.unpack_mutable_data_md _ _ k) as [[uid ver]|e'] eqn:Hun;
      cbn [mbind result_bind] in Hhas.
    + destruct (String.eqb data_id uid); [done|].
      destruct (IH Hhas) as (k' & _ & Hk' & Hun'). exists k'.
      split; [done|]. split; [by right|done].
    + injection Hhas as ->. exists k. split; [done|]. split; [by left|done].
Qed.


End Mutable.

Section Urls.

Context {UriRest Rest : Type} `{EqDecision UriRest}.

Local Abbreviation zonefile := (user_zonefile (zonefile_other UriRest Rest)).

Variable USER_ZONEFILE_SCHEMA : zonefile -> bool.
Variable url_to_uri_record : string -> urirec UriRest.

Local Abbreviation is_user_zonefile := (is_user_zonefile USER_ZONEFILE_SCHEMA).
Local Abbreviation user_zonefile_urls := (user_zonefile_urls USER_ZONEFILE_SCHEMA).
Local Abbreviation add_user_zonefile_url :=
  (add_user_zonefile_url USER_ZONEFILE_SCHEMA url_to_uri_record).
Local Abbreviation remove_user_zonefile_url :=
  (remove_user_zonefile_url USER_ZONEFILE_SCHEMA).

(** X28.  On a zonefile with a ['uri'] list, [add_user_zonefile_url]
    returns [None] and changes nothing for a URL that [user_zonefile_urls]
    lists; for a URL that is not empty and not listed it appends the record
    of [url_to_uri_record] and returns the zonefile, whose URLs, if it still
    passes the schema, are the old ones followed by the URL of the new
    record. *)
Theorem add_user_zonefile_url_listed (user_zonefile : zonefile) (url : string)
    (urls : list string) :
  user_zonefile_urls user_zonefile = Ok (Some urls) ->
  (url ∈ urls -> add_user_zonefile_url user_zonefile url = Ok (false, user_zonefile)) /\
  (url ∉ urls -> url <> "" ->
   exists user_zonefile',
     add_user_zonefile_url user_zonefile url = Ok (true, user_zonefile') /\
     zf_txt user_zonefile' = zf_txt user_zonefile /\
     (is_user_zonefile user_zonefile' = true ->
      user_zonefile_urls user_zonefile'
      = Ok (Some (urls ++ user_zonefile_urls_loop [url_to_uri_record url])))).
Proof.
  unfold User.user_zonefile_urls, User.add_user_zonefile_url.
  destruct (User.is_user_zonefile _ user_zonefile) eqn:Hzf; cbn [negb]; [|done].
  destruct user_zonefile as [txts [[recs|] rest]]; cbn [zf_other uri]; [|done].
  intros [= <-]. cbn [default from_option id]. split.
  - intros Hin. by rewrite (existsb_targets_listed url recs Hin).
  - intros Hnin Hne.
    destruct (existsb (targets url) recs) eqn:Hex.
    + apply existsb_targets_inv in Hex as [?|[? _]]; done.
    + eexists. split; [reflexivity|]. split; [done|]. intros Hzf'.
      unfold with_uri in *. cbn [zf_txt zf_other zf_rest uri] in *.
      rewrite Hzf'. cbn [negb]. by rewrite urls_loop_app.
Qed.

(** X29.  On a ['uri'] list in which no record that points to the URL is
    followed at once by another that does, [remove_user_zonefile_url] leaves
    the records that do not point to it, in their order, and the URL is no
    longer listed. *)
Theorem remove_user_zonefile_url_filter (user_zonefile : zonefile) (url : string)
    (recs : list (urirec UriRest)) :
  is_user_zonefile user_zonefile = true ->
  uri (zf_other user_zonefile) = Some recs ->
  (forall i a b, recs !! i = Some a -> recs !! S i = Some b ->
                 targets url a = true -> targets url b = false) ->
  let recs' := List.filter (fun r => negb (targets url r)) recs in
  remove_user_zonefile_url user_zonefile url
  = Ok (true, with_uri user_zonefile recs') /\
  url ∉ user_zonefile_urls_loop recs'.
Proof.
  intros Hzf Huri Hadj recs'. split.
  - unfold User.remove_user_zonefile_url. rewrite Hzf, Huri. cbn [negb].
    do 3 f_equal.
    apply (remove_loop_filter (length recs) url [] recs); [done| |done].
    intros r _ _. by intros ?%elem_of_nil.
  - intros Hin%existsb_targets_listed. apply existsb_exists in Hin as (r & Hr & Ht).
    subst recs'. apply filter_In in Hr as [_ Hr]. by rewrite Ht in Hr.
Qed.

(** X30.  The loop of [remove_user_zonefile_url] steps over the record
    that follows one it removes: when two records in a row point to the URL
    and no other does, the first goes and the second stays. *)
Theorem remove_user_zonefile_url_adjacent (user_zonefile : zonefile) (url : string)
    (pre suf : list (urirec UriRest)) (a b : urirec UriRest) :
  is_user_zonefile user_zonefile = true ->
  uri (zf_other user_zonefile) = Some (pre ++ a :: b :: suf) ->
  (forall r, r ∈ pre ++ suf -> targets url r = false) ->
  targets url a = true -> targets url b = true ->
  remove_user_zonefile_url user_zonefile url
  = Ok (true, with_uri user_zonefile (pre ++ b :: suf)).
Proof.
  intros Hzf Huri Hrest Ha Hb.
  assert (Hpre : forall r, r ∈ pre -> targets url r = false).
  { intros r Hr. apply Hrest, elem_of_app. by left. }
  assert (Hsuf : forall r, r ∈ suf -> targets url r = false).
  { intros r Hr. apply Hrest, elem_of_app. by right. }
  unfold User.remove_user_zonefile_url. rewrite Hzf, Huri. cbn [negb].
  do 3 f_equal.
  replace (length (pre ++ a :: b :: suf)) with (length pre + S (S (length suf)))
    by (rewrite length_app; cbn [length]; lia).
  rewrite (remove_loop_skip (S (S (length suf))) url [] pre (a :: b :: suf) Hpre).
  remember (S (length suf)) as fuel eqn:Hfuel.
  cbn [app remove_user_zonefile_url_loop].
  rewrite list_lookup_middle by done. rewrite Ha.
  rewrite remove_first_middle.
  2: { intros Hin. apply Hpre in Hin. congruence. }
  replace (S (length pre)) with (length (pre ++ [b]))
    by (rewrite length_app; cbn; lia).
  rewrite (cons_middle b pre suf), app_assoc.
  rewrite remove_loop_filter.
  - by rewrite filter_none_targets, <- app_assoc.
  - lia.
  - intros r Hr Ht. apply Hsuf in Hr. congruence.
  - intros i x y Hx _ Ht. apply list_elem_of_lookup_2 in Hx. apply Hsuf in Hx.
    congruence.
Qed.

End Urls.

(** The keys [Sample.dict_keys] lists are keys of the mapping. *)
Lemma sample_dict_keys_dom (d : gmap string (list string)) (k : string) :
  k ∈ Sample.dict_keys d -> is_Some (d !! k).
Proof.
  unfold Sample.dict_keys. intros ([k' v] & -> & Hin)%list_elem_of_fmap.
  apply elem_of_map_to_list in Hin. by exists v.
Qed.

Lemma immutable_lookups_agree_with_list_witness :
  exists l,
    list_immutable_data Sample.is_valid_hash Sample.any_zonefile
      Sample.zonefile_avatar = Ok l /\
    has_immutable_data_id Sample.is_valid_hash Sample.any_zonefile
      Sample.zonefile_avatar "avatar" = Ok (bool_decide ("avatar" ∈ l.*1)) /\
    has_immutable_data Sample.is_valid_hash Sample.any_zonefile
      Sample.zonefile_avatar Sample.hash1 = Ok (bool_decide (Sample.hash1 ∈ l.*2)) /\
    (forall p, p ∈ l -> Sample.is_valid_hash p.2 = true).
Proof.
  apply (immutable_lookups_agree_with_list Sample.is_valid_hash Sample.any_zonefile
           Sample.zonefile_avatar "avatar" Sample.hash1); reflexivity.
Defined.

Lemma get_immutable_data_hash_from_list_witness :
  exists l,
    list_immutable_data Sample.is_valid_hash Sample.any_zonefile
      Sample.zonefile_avatar = Ok l /\
    get_immutable_data_hash Sample.is_valid_hash Sample.any_zonefile
      Sample.zonefile_avatar "avatar"
    = Ok (match (filter (fun p => p.1 = "avatar") l).*2 with
          | [] => NoHash
          | [h] => OneHash h
          | hs => ManyHashes hs
          end).
Proof.
  apply (get_immutable_data_hash_from_list Sample.is_valid_hash Sample.any_zonefile
           Sample.zonefile_avatar "avatar"); reflexivity.
Defined.

Lemma put_immutable_data_zonefile_fresh_witness :
  exists user_zonefile' l,
    Sample.put_immutable_data_zonefile Sample.zonefile_avatar "resume" Sample.hash2
      (Some "https://a.example/cv") = Ok (true, user_zonefile') /\
    zf_other user_zonefile' = tt /\
    list_immutable_data Sample.is_valid_hash Sample.any_zonefile
      Sample.zonefile_avatar = Ok l /\
    (is_user_zonefile Sample.any_zonefile user_zonefile' = true ->
     get_immutable_data_hash Sample.is_valid_hash Sample.any_zonefile
       user_zonefile' "resume" = Ok (OneHash Sample.hash2) /\
     has_immutable_data Sample.is_valid_hash Sample.any_zonefile
       user_zonefile' Sample.hash2 = Ok true /\
     has_immutable_data_id Sample.is_valid_hash Sample.any_zonefile
       user_zonefile' "resume" = Ok true /\
     list_immutable_data Sample.is_valid_hash Sample.any_zonefile user_zonefile'
     = Ok (l ++ [("resume", Sample.hash2)])).
Proof.
  apply (put_immutable_data_zonefile_fresh Sample.is_valid_hash Sample.any_zonefile
           Sample.zonefile_avatar "resume" Sample.hash2 (Some "https://a.example/cv"));
    vm_compute; reflexivity.
Defined.

Lemma put_immutable_data_zonefile_other_ids_witness :
  get_immutable_data_hash Sample.is_valid_hash Sample.any_zonefile
    {| zf_txt := Some [ {| name := "avatar"; txt := String "#" Sample.hash1 |};
                        {| name := "resume"; txt := String "#" Sample.hash2 |} ];
       zf_other := tt |} "avatar"
  = get_immutable_data_hash Sample.is_valid_hash Sample.any_zonefile
      Sample.zonefile_avatar "avatar" /\
  has_immutable_data_id Sample.is_valid_hash Sample.any_zonefile
    {| zf_txt := Some [ {| name := "avatar"; txt := String "#" Sample.hash1 |};
                        {| name := "resume"; txt := String "#" Sample.hash2 |} ];
       zf_other := tt |} "avatar"
  = has_immutable_data_id Sample.is_valid_hash Sample.any_zonefile
      Sample.zonefile_avatar "avatar".
Proof.
  apply (put_immutable_data_zonefile_other_ids Sample.is_valid_hash
           Sample.any_zonefile Sample.zonefile_avatar "resume" Sample.hash2 None true).
  - vm_compute. reflexivity.
  - reflexivity.
  - discriminate.
Defined.

Lemma remove_immutable_data_zonefile_first_witness :
  exists b user_zonefile',
    remove_immutable_data_zonefile Sample.is_valid_hash Sample.any_zonefile
      Sample.zonefile_avatar Sample.hash1 = Ok (b, user_zonefile') /\
    has_immutable_data Sample.is_valid_hash Sample.any_zonefile
      Sample.zonefile_avatar Sample.hash1 = Ok b /\
    zf_other user_zonefile' = tt /\
    if b then
      exists pre rec suf,
        zf_txt Sample.zonefile_avatar = Some (pre ++ rec :: suf) /\
        zf_txt user_zonefile' = Some (pre ++ suf) /\
        list_immutable_data_loop Sample.is_valid_hash (pre ++ rec :: suf)
        = list_immutable_data_loop Sample.is_valid_hash pre ++
          (name rec, Sample.hash1) :: list_immutable_data_loop Sample.is_valid_hash suf /\
        Sample.hash1 ∉ (list_immutable_data_loop Sample.is_valid_hash pre).*2
    else user_zonefile' = Sample.zonefile_avatar.
Proof.
  apply (remove_immutable_data_zonefile_first Sample.is_valid_hash
           Sample.any_zonefile Sample.zonefile_avatar Sample.hash1); reflexivity.
Defined.

Lemma put_then_remove_immutable_witness :
  exists user_zonefile',
    Sample.put_immutable_data_zonefile Sample.zonefile_avatar "resume" Sample.hash2
      None = Ok (true, user_zonefile') /\
    (is_user_zonefile Sample.any_zonefile user_zonefile' = true ->
     remove_immutable_data_zonefile Sample.is_valid_hash Sample.any_zonefile
       user_zonefile' Sample.hash2
     = Ok (true, Sample.zonefile_avatar)).
Proof.
  apply (put_then_remove_immutable Sample.is_valid_hash Sample.any_zonefile
           Sample.zonefile_avatar "resume" Sample.hash2 None);
    vm_compute; reflexivity.
Defined.

Lemma get_immutable_data_url_after_put_witness :
  exists user_zonefile',
    Sample.put_immutable_data_zonefile Sample.zonefile_avatar "resume" Sample.hash2
      (Some "https://a.example/cv") = Ok (true, user_zonefile') /\
    (is_user_zonefile Sample.any_zonefile user_zonefile' = true ->
     get_immutable_data_url Sample.is_valid_hash Sample.any_zonefile
       user_zonefile' Sample.hash2 = Ok (Some "https://a.example/cv")).
Proof.
  apply (get_immutable_data_url_after_put Sample.is_valid_hash Sample.any_zonefile
           Sample.zonefile_avatar "resume" Sample.hash2 (Some "https://a.example/cv"));
    vm_compute; reflexivity.
Defined.

Lemma user_zonefile_set_data_pubkey_then_get_witness :
  exists user_zonefile',
    user_zonefile_set_data_pubkey Sample.any_zonefile Sample.zonefile_avatar
      "02ab" "pubkey:data:" = Ok (true, user_zonefile') /\
    zf_other user_zonefile' = tt /\
    (is_user_zonefile Sample.any_zonefile user_zonefile' = true ->
     user_zonefile_data_pubkey Sample.any_zonefile user_zonefile' "pubkey:data:"
     = Ok (Some "02ab")).
Proof.
  apply (user_zonefile_set_data_pubkey_then_get Sample.any_zonefile
           Sample.zonefile_avatar "02ab" "pubkey:data:" None).
  reflexivity.
Defined.

Lemma remove_mutable_data_info_found_witness :
  exists d, data Sample.data_info_photo_v1 = Some d /\
    d !! Sample.photo_v1 = Some ["https://a.example/photo"] /\
    remove_mutable_data_info Sample.any_data_info Sample.mutable_data_md_pattern
      Sample.b64decode Sample.dict_keys Sample.data_info_photo_v1 "photo"
    = Ok (true, {| data := Some (delete Sample.photo_v1 d); udi_other := tt |}).
Proof.
  apply (remove_mutable_data_info_found Sample.any_data_info
           Sample.mutable_data_md_pattern Sample.b64decode Sample.dict_keys
           Sample.data_info_photo_v1 "photo"
           (Some (["https://a.example/photo"], 1%Z, Sample.photo_v1))).
  vm_compute. reflexivity.
Defined.


Lemma has_mutable_data_info_agrees_witness :
  match has_mutable_data_info Sample.any_data_info Sample.mutable_data_md_pattern
          Sample.b64decode Sample.dict_keys Sample.data_info_photo_v1 "photo" with
  | Ok b =>
      exists r, Sample.get_mutable_data_info_ex Sample.data_info_photo_v1 "photo" = Ok r /\
                b = bool_decide (is_Some r)
  | Raise e =>
      exists d k, data Sample.data_info_photo_v1 = Some d /\ k ∈ Sample.dict_keys d /\
                  Sample.unpack_mutable_data_md k = Raise e
  end.
Proof.
  apply (has_mutable_data_info_agrees Sample.any_data_info
           Sample.mutable_data_md_pattern Sample.b64decode Sample.dict_keys
           Sample.data_info_photo_v1 "photo").
  intros d k _. apply sample_dict_keys_dom.
Defined.


Lemma add_user_zonefile_url_listed_witness :
  (add_user_zonefile_url SampleUrls.any_zonefile SampleUrls.url_to_uri_record
     (SampleUrls.zonefile_of ["https://a.example/"]) "https://a.example/"
   = Ok (false, SampleUrls.zonefile_of ["https://a.example/"])) /\
  exists user_zonefile',
    add_user_zonefile_url SampleUrls.any_zonefile SampleUrls.url_to_uri_record
      (SampleUrls.zonefile_of ["https://a.example/"]) "https://b.example/"
    = Ok (true, user_zonefile') /\
    zf_txt user_zonefile' = None /\
    (is_user_zonefile SampleUrls.any_zonefile user_zonefile' = true ->
     user_zonefile_urls SampleUrls.any_zonefile user_zonefile'
     = Ok (Some ["https://a.example/"; "https://b.example/"])).
Proof.
  split.
  - apply (add_user_zonefile_url_listed SampleUrls.any_zonefile
             SampleUrls.url_to_uri_record
             (SampleUrls.zonefile_of ["https://a.example/"]) "https://a.example/"
             ["https://a.example/"]); [reflexivity|]. by left.
  - apply (add_user_zonefile_url_listed SampleUrls.any_zonefile
             SampleUrls.url_to_uri_record
             (SampleUrls.zonefile_of ["https://a.example/"]) "https://b.example/"
             ["https://a.example/"]); [reflexivity| |discriminate].
    intros Hin. apply list_elem_of_singleton in Hin. discriminate.
Defined.

Lemma remove_user_zonefile_url_filter_witness :
  remove_user_zonefile_url SampleUrls.any_zonefile
    (SampleUrls.zonefile_of ["https://a.example/"; "https://b.example/"])
    "https://a.example/"
  = Ok (true, SampleUrls.zonefile_of ["https://b.example/"]) /\
  "https://a.example/" ∉ ["https://b.example/"].
Proof.
  assert (Hadj : forall i a b,
            (SampleUrls.url_to_uri_record <$>
               ["https://a.example/"; "https://b.example/"]) !! i = Some a ->
            (SampleUrls.url_to_uri_record <$>
               ["https://a.example/"; "https://b.example/"]) !! S i = Some b ->
            targets "https://a.example/" a = true ->
            targets "https://a.example/" b = false).
  { intros [|[|i]] a b Ha Hb; cbn in Ha, Hb; [|done..].
    injection Hb as <-. reflexivity. }
  exact (remove_user_zonefile_url_filter SampleUrls.any_zonefile
           (SampleUrls.zonefile_of ["https://a.example/"; "https://b.example/"])
           "https://a.example/"
           (SampleUrls.url_to_uri_record <$>
              ["https://a.example/"; "https://b.example/"])
           eq_refl eq_refl Hadj).
Defined.

Lemma remove_user_zonefile_url_adjacent_witness :
  remove_user_zonefile_url SampleUrls.any_zonefile
    (SampleUrls.zonefile_of ["https://a.example/"; "https://a.example/"])
    "https://a.example/"
  = Ok (true, SampleUrls.zonefile_of ["https://a.example/"]).
Proof.
  apply (remove_user_zonefile_url_adjacent SampleUrls.any_zonefile
           (SampleUrls.zonefile_of ["https://a.example/"; "https://a.example/"])
           "https://a.example/" [] []
           (SampleUrls.url_to_uri_record "https://a.example/")
           (SampleUrls.url_to_uri_record "https://a.example/")); try reflexivity.
  intros r Hr. by apply elem_of_nil in Hr.
Defined.

End UserMore.
